(** * countryxchange: the refresh pipeline, the validator and the store

    A shallow embedding of [internal/countries] (service.go, model.go and
    the repository file) together with the statements of its
    specification.  Go values are modelled as follows:
    - [string] is a Rocq string, [int64]/[int] are [Z];
    - [float64] is IEEE 754 binary64, given by the standard library's
      executable specification [spec_float] at precision 53 and maximal
      exponent 1024;
    - a pointer field of [Country] (nil or a value) is an [option];
    - [map[string]T] is a [gmap string T];
    - the [error] interface is the inductive type [error];
    - the MySQL database is an explicit state, a transaction is a working
      copy of it, and every driver call is recorded in a trace. *)

From Stdlib Require Import ZArith String Ascii List Bool Lia.
From Stdlib Require Import Sorting.Sorted Sorting.Permutation.
From Stdlib Require Import Floats.SpecFloat.
From stdpp Require Import base option list gmap strings.

Local Open Scope string_scope.
Local Open Scope Z_scope.
Local Open Scope list_scope.

(** ** float64 *)

Module F64.

Definition prec : Z := 53.
Definition emax : Z := 1024.

Definition t : Type := spec_float.

(** The literal [0.0]. *)
Definition zero : t := S754_zero false.

(** The conversion [float64(n)] of an integer: round to nearest even. *)
Definition of_int (n : Z) : t := binary_normalize prec emax n 0 false.

Definition mul (x y : t) : t := SFmul prec emax x y.
Definition div (x y : t) : t := SFdiv prec emax x y.

Definition leb (x y : t) : bool := SFleb x y.

Definition is_nan (x : t) : bool :=
  match x with S754_nan => true | _ => false end.

End F64.

Abbreviation float64 := F64.t.

(** ** model.go *)

Definition Time : Type := Z.

Inductive error : Type :=
| ExternalError (API : string)
| ValidationError (Errors : gmap string string)
| DriverError (msg : string).

Record Country : Type := mkCountry {
  ID : Z;
  Name : string;
  Capital : option string;
  Region : option string;
  Population : Z;
  CurrencyCode : option string;
  ExchangeRate : option float64;
  EstimatedGDP : option float64;
  FlagURL : option string;
  LastRefreshedAt : option Time
}.

(** [len(errors) > 0] on the map built by the three tests. *)
Definition Validate_errors (c : Country) : gmap string string :=
  let errors : gmap string string := ∅ in
  let errors :=
    if String.eqb (Name c) "" then <["name" := "is required"]> errors
    else errors in
  let errors :=
    if Population c <=? 0 then <["population" := "must be positive"]> errors
    else errors in
  let errors :=
    match CurrencyCode c with
    | None => <["currency_code" := "is required"]> errors
    | Some code =>
        if String.eqb code "" then <["currency_code" := "is required"]> errors
        else errors
    end in
  errors.

Definition Validate (c : Country) : option error :=
  let errors := Validate_errors c in
  if (0 <? Z.of_nat (size errors)) then Some (ValidationError errors)
  else None.

(** ** service.go: the decoded payloads of the two providers *)

Record currency : Type := mkCurrency { Code : string }.

Record restCountry : Type := mkRestCountry {
  rc_Name : string;
  rc_Capital : string;
  rc_Region : string;
  rc_Population : Z;
  rc_Flag : string;
  rc_Currencies : list currency
}.

Record ratesResp : Type := mkRatesResp {
  Result : string;
  Rates : gmap string float64
}.

Record RefreshResult : Type := mkRefreshResult {
  Total : Z;
  LastRefreshed : Time
}.

(** What [client.Do] followed by [json.Decode] can yield: a transport
    error, or a response with its status code and the decoded body
    ([None] when decoding fails). *)
Inductive HttpOutcome (A : Type) : Type :=
| DoError
| Response (StatusCode : Z) (decoded : option A).
Arguments DoError {A}.
Arguments Response {A} StatusCode decoded.

Definition StatusOK : Z := 200.

(** The pieces of Go's standard library the package calls and whose code
    is not part of the repository: [math/rand] ([rand.New(rand.NewSource
    seed)] and [r.Intn n], a state-passing generator) and the RFC 3339
    rendering of [time.Time.Format]. *)
Class Runtime (rng : Type) : Type := {
  NewSource : Z -> rng;
  Intn : rng -> Z -> Z * rng;
  Format_RFC3339 : Time -> string
}.

(** The contract of [Intn]: a value in the half-open interval [0, n). *)
Definition Intn_in_range {rng : Type} `{Runtime rng} : Prop :=
  forall (r : rng) (n : Z), 0 < n -> 0 <= fst (Intn r n) < n.

(** ** The store *)

(** What the MySQL server decides and the repository does not: the
    collation of the text columns (two strings are equal for [=] and for
    a unique key exactly when their weight strings are), the function
    [LOWER], the value an AUTO_INCREMENT column receives on insertion and
    the rounding of a time to a DATETIME column. *)
Class Engine : Type := {
  collation_key : string -> string;
  LOWER : string -> string;
  AUTO_INCREMENT : list Country -> Z;
  DATETIME : Time -> Time
}.

Record metaRow : Type := mkMetaRow {
  meta_key : string;
  meta_value : option string;
  updated_at : option Time
}.

(** A table that was never created is [None]. *)
Record DB : Type := mkDB {
  countries : option (list Country);
  metadata : option (list metaRow)
}.

(** Driver failures are decided by the environment: each statement the
    package issues may fail with a message.  The upsert oracle sees the
    number of upserts already executed in the transaction and the record,
    so it covers both a lost connection and a value the server rejects. *)
Record Faults : Type := mkFaults {
  create_countries_err : option string;
  create_meta_err : option string;
  begin_err : option string;
  upsert_err : Z -> Country -> option string;
  save_err : option string;
  commit_err : option string
}.

(** One call of [Refresh] runs against these inputs. *)
Record World : Type := mkWorld {
  countries_api : HttpOutcome (list restCountry);
  rates_api : HttpOutcome ratesResp;
  clock_seed : Z;
  clock_now : Time;
  faults : Faults
}.

(** The calls made on the database handle, in order. *)
Inductive event : Type :=
| EvEnsureTables
| EvBeginTx
| EvUpsertCountry (c : Country)
| EvSaveLastRefreshed (t : Time)
| EvCommit
| EvRollback
| EvGoGenerateSummaryImage.

(** [sql.NullString] and [sql.NullFloat64]. *)
Record Null (A : Type) : Type := mkNull { Value : A; Valid : bool }.
Arguments mkNull {A} Value Valid.
Arguments Value {A} _.
Arguments Valid {A} _.

Definition to_null {A : Type} (zero : A) (p : option A) : Null A :=
  match p with
  | Some v => mkNull v true
  | None => mkNull zero false
  end.

Definition of_null {A : Type} (n : Null A) : option A :=
  if Valid n then Some (Value n) else None.

Inductive result : Type :=
| Ok (res : RefreshResult)
| Err (err : error).

(** What a call of [Refresh] returns, the database it leaves and the
    calls it made on the handle. *)
Record Outcome : Type := mkOutcome {
  ret : result;
  store : DB;
  calls : list event
}.

Section Model.

Context {rng : Type} `{Runtime rng} `{Engine}.

(** *** Repository: schema, upsert, metadata *)

(** [EnsureTables]: two [CREATE TABLE IF NOT EXISTS], outside of any
    transaction. *)
Definition EnsureTables (f : Faults) (db : DB) : option error * DB :=
  match create_countries_err f with
  | Some e => (Some (DriverError e), db)
  | None =>
      let db1 := mkDB (Some (default [] (countries db))) (metadata db) in
      match create_meta_err f with
      | Some e => (Some (DriverError e), db1)
      | None =>
          (None, mkDB (countries db1) (Some (default [] (metadata db1))))
      end
  end.

Definition same_key (a b : string) : bool :=
  String.eqb (collation_key a) (collation_key b).

(** [ON DUPLICATE KEY UPDATE]: the eight listed columns are assigned,
    [id] and [name] are kept. *)
Definition update_row (old new : Country) : Country :=
  {| ID := ID old;
     Name := Name old;
     Capital := Capital new;
     Region := Region new;
     Population := Population new;
     CurrencyCode := CurrencyCode new;
     ExchangeRate := ExchangeRate new;
     EstimatedGDP := EstimatedGDP new;
     FlagURL := FlagURL new;
     LastRefreshedAt := LastRefreshedAt new |}.

(** [INSERT ... ON DUPLICATE KEY UPDATE] under [UNIQUE KEY unique_name
    (name)]: the row holding the key is updated, otherwise the new row
    is added. *)
Fixpoint insert_on_duplicate (rows : list Country) (new : Country)
  : list Country :=
  match rows with
  | [] => [new]
  | r :: rows' =>
      if same_key (Name r) (Name new) then update_row r new :: rows'
      else r :: insert_on_duplicate rows' new
  end.

(** [UpsertCountry]: the nullable fields become [sql.Null...] values,
    then one [tx.Exec]. *)
Definition UpsertCountry (f : Faults) (n : Z) (tx : DB) (c : Country)
  : option error * DB :=
  let capital := to_null "" (Capital c) in
  let region := to_null "" (Region c) in
  let currency := to_null "" (CurrencyCode c) in
  let flag := to_null "" (FlagURL c) in
  let exchange := to_null F64.zero (ExchangeRate c) in
  let est := to_null F64.zero (EstimatedGDP c) in
  match upsert_err f n c with
  | Some e => (Some (DriverError e), tx)
  | None =>
      match countries tx with
      | None => (Some (DriverError "Table 'countries' doesn't exist"), tx)
      | Some rows =>
          let new :=
            {| ID := AUTO_INCREMENT rows;
               Name := Name c;
               Capital := of_null capital;
               Region := of_null region;
               Population := Population c;
               CurrencyCode := of_null currency;
               ExchangeRate := of_null exchange;
               EstimatedGDP := of_null est;
               FlagURL := of_null flag;
               LastRefreshedAt := DATETIME <$> LastRefreshedAt c |} in
          (None, mkDB (Some (insert_on_duplicate rows new)) (metadata tx))
      end
  end.

Fixpoint meta_on_duplicate (rows : list metaRow) (new : metaRow)
  : list metaRow :=
  match rows with
  | [] => [new]
  | r :: rows' =>
      if same_key (meta_key r) (meta_key new)
      then mkMetaRow (meta_key r) (meta_value new) (updated_at new) :: rows'
      else r :: meta_on_duplicate rows' new
  end.

(** [SaveLastRefreshed]: upsert of the row ['last_refreshed_at']. *)
Definition SaveLastRefreshed (f : Faults) (tx : DB) (t : Time)
  : option error * DB :=
  match save_err f with
  | Some e => (Some (DriverError e), tx)
  | None =>
      match metadata tx with
      | None => (Some (DriverError "Table 'metadata' doesn't exist"), tx)
      | Some rows =>
          let new :=
            mkMetaRow "last_refreshed_at" (Some (Format_RFC3339 t))
                      (Some (DATETIME t)) in
          (None, mkDB (countries tx) (Some (meta_on_duplicate rows new)))
      end
  end.

(** *** Service: one record of the merging loop (lines 121-163) *)

Definition nonempty (s : string) : option string :=
  if String.eqb s "" then None else Some s.

Definition derive (rates : gmap string float64) (now : Time)
           (rcountry : restCountry) (r : rng) : Country * rng :=
  let fallback := (None, None, Some F64.zero, r) in
  let '(currencyCode, exchangeRate, estimatedGDP, r') :=
    match rc_Currencies rcountry with
    | [] => fallback
    | first :: _ =>
        if String.eqb (Code first) "" then fallback
        else
          let code := Code first in
          match rates !! code with
          | Some rate =>
              let '(k, r') := Intn r 1001 in
              let mult := F64.of_int (k + 1000) in
              let est :=
                F64.div (F64.mul (F64.of_int (rc_Population rcountry)) mult)
                        rate in
              (Some code, Some rate, Some est, r')
          | None => (Some code, None, None, r)
          end
    end in
  ({| ID := 0;
      Name := rc_Name rcountry;
      Capital := nonempty (rc_Capital rcountry);
      Region := nonempty (rc_Region rcountry);
      Population := rc_Population rcountry;
      CurrencyCode := currencyCode;
      ExchangeRate := exchangeRate;
      EstimatedGDP := estimatedGDP;
      FlagURL := nonempty (rc_Flag rcountry);
      LastRefreshedAt := Some now |}, r').

(** *** Service: the merging loop (lines 113-180) *)

Fixpoint merge_loop (f : Faults) (rates : gmap string float64) (now : Time)
         (rc : list restCountry) (tx : DB) (r : rng) (processed : Z)
  : (error + DB * Z) * list event :=
  match rc with
  | [] => (inr (tx, processed), [])
  | rcountry :: rest =>
      if String.eqb (rc_Name rcountry) "" then
        merge_loop f rates now rest tx r processed
      else
        let '(c, r') := derive rates now rcountry r in
        match Validate c with
        | Some _ => merge_loop f rates now rest tx r' processed
        | None =>
            match UpsertCountry f processed tx c with
            | (Some err, _) => (inl err, [EvUpsertCountry c; EvRollback])
            | (None, tx') =>
                let '(out, log) :=
                  merge_loop f rates now rest tx' r' (processed + 1) in
                (out, EvUpsertCountry c :: log)
            end
        end
  end.

(** *** Service: [Refresh] *)

Definition fetch {A : Type} (o : HttpOutcome A) (api : string) : error + A :=
  match o with
  | DoError => inl (ExternalError api)
  | Response status decoded =>
      if negb (status =? StatusOK) then inl (ExternalError api)
      else
        match decoded with
        | None => inl (ExternalError api)
        | Some v => inr v
        end
  end.

Definition Refresh (w : World) (db : DB) : Outcome :=
  match fetch (countries_api w) "restcountries" with
  | inl e => mkOutcome (Err e) db []
  | inr rc =>
  match fetch (rates_api w) "exchangerates" with
  | inl e => mkOutcome (Err e) db []
  | inr rr =>
  match EnsureTables (faults w) db with
  | (Some e, db1) => mkOutcome (Err e) db1 [EvEnsureTables]
  | (None, db1) =>
  match begin_err (faults w) with
  | Some e => mkOutcome (Err (DriverError e)) db1 [EvEnsureTables; EvBeginTx]
  | None =>
  let r := NewSource (clock_seed w) in
  let now := clock_now w in
  match merge_loop (faults w) (Rates rr) now rc db1 r 0 with
  | (inl e, log) =>
      mkOutcome (Err e) db1 ([EvEnsureTables; EvBeginTx] ++ log)
  | (inr (tx, processed), log) =>
  match SaveLastRefreshed (faults w) tx now with
  | (Some e, _) =>
      mkOutcome (Err e) db1
        ([EvEnsureTables; EvBeginTx] ++ log
           ++ [EvSaveLastRefreshed now; EvRollback])
  | (None, tx') =>
  match commit_err (faults w) with
  | Some e =>
      mkOutcome (Err (DriverError e)) db1
        ([EvEnsureTables; EvBeginTx] ++ log
           ++ [EvSaveLastRefreshed now; EvCommit; EvRollback])
  | None =>
      mkOutcome (Ok (mkRefreshResult processed now)) tx'
        ([EvEnsureTables; EvBeginTx] ++ log
           ++ [EvSaveLastRefreshed now; EvCommit; EvGoGenerateSummaryImage])
  end end end end end end end.

End Model.

(** ** The SELECT statements of the repository

    [GetAll] assembles the text of a statement; the server parses it.
    The statements it can assemble form a finite family, described by
    [select] and written out by [render]. *)

Inductive column : Type := col_region | col_currency_code.
Inductive direction : Type := ASC | DESC.

Record select : Type := mkSelect {
  sel_where : list column;
  sel_order : option direction
}.

Definition column_name (c : column) : string :=
  match c with
  | col_region => "region"
  | col_currency_code => "currency_code"
  end.

(** [strings.Join]. *)
Fixpoint Join (elems : list string) (sep : string) : string :=
  match elems with
  | [] => ""
  | [s] => s
  | s :: rest => s +:+ sep +:+ Join rest sep
  end.

Definition render (s : select) : string :=
  "SELECT id, name, capital, region, population, currency_code, "
  +:+ "exchange_rate, estimated_gdp, flag_url, last_refreshed_at "
  +:+ "FROM countries"
  +:+ match sel_where s with
      | [] => ""
      | cs =>
          " WHERE "
          +:+ Join (map (fun c => "LOWER(" +:+ column_name c +:+ ") = LOWER(?)")
                        cs) " AND "
      end
  +:+ match sel_order s with
      | None => ""
      | Some ASC => " ORDER BY estimated_gdp ASC"
      | Some DESC => " ORDER BY estimated_gdp DESC"
      end.

Definition statements : list select :=
  w ← [[]; [col_region]; [col_currency_code]; [col_region; col_currency_code]];
  o ← [None; Some ASC; Some DESC];
  [mkSelect w o].

Definition parse (q : string) : option select :=
  List.find (fun s => String.eqb (render s) q) statements.

(** ORDER BY on a nullable DOUBLE column: NULL sorts before every value
    in ascending order, values by the IEEE comparison. *)
Definition est_leb (a b : option float64) : bool :=
  match a, b with
  | None, _ => true
  | Some _, None => false
  | Some x, Some y => F64.leb x y
  end.

Definition before (d : direction) (a b : Country) : bool :=
  match d with
  | ASC => est_leb (EstimatedGDP a) (EstimatedGDP b)
  | DESC => est_leb (EstimatedGDP b) (EstimatedGDP a)
  end.

Fixpoint insert_row (le : Country -> Country -> bool) (x : Country)
         (l : list Country) : list Country :=
  match l with
  | [] => [x]
  | y :: l' => if le x y then x :: l else y :: insert_row le x l'
  end.

(** The server leaves the order of ties open; the model keeps them in
    table order (a stable insertion sort). *)
Definition order_rows (o : option direction) (l : list Country)
  : list Country :=
  match o with
  | None => l
  | Some d => fold_right (insert_row (before d)) [] l
  end.

Definition column_value (c : column) (r : Country) : option string :=
  match c with
  | col_region => Region r
  | col_currency_code => CurrencyCode r
  end.

Section Queries.

Context `{Engine}.

(** [LOWER(col) = LOWER(?)]; NULL when the column is NULL, and then the
    row is not selected. *)
Definition cond_holds (c : column) (arg : string) (r : Country) : bool :=
  match column_value c r with
  | None => false
  | Some v => same_key (LOWER v) (LOWER arg)
  end.

Fixpoint where_holds (cs : list column) (args : list string) (r : Country)
  : bool :=
  match cs, args with
  | [], _ => true
  | c :: cs', a :: args' => cond_holds c a r && where_holds cs' args' r
  | _ :: _, [] => false
  end.

(** [db.Query]: [qerr] is a failure of the driver. *)
Definition db_Query (qerr : option string) (db : DB) (q : string)
           (args : list string) : error + list Country :=
  match qerr with
  | Some e => inl (DriverError e)
  | None =>
      match parse q with
      | None => inl (DriverError "You have an error in your SQL syntax")
      | Some s =>
          if negb (length args =? length (sel_where s))%nat
          then inl (DriverError "Incorrect arguments to mysqld_stmt_execute")
          else
            match countries db with
            | None => inl (DriverError "Table 'countries' doesn't exist")
            | Some rows =>
                inr (order_rows (sel_order s)
                       (List.filter (where_holds (sel_where s) args) rows))
            end
      end
  end.

(** The text and the arguments [GetAll] hands to [db.Query]. *)
Definition GetAll_query (region currency sort : string)
  : string * list string :=
  let base :=
    "SELECT id, name, capital, region, population, currency_code, exchange_rate, estimated_gdp, flag_url, last_refreshed_at FROM countries" in
  let conds : list string := [] in
  let args : list string := [] in
  let '(conds, args) :=
    if negb (String.eqb region "")
    then (conds ++ ["LOWER(region) = LOWER(?)"], args ++ [region])
    else (conds, args) in
  let '(conds, args) :=
    if negb (String.eqb currency "")
    then ((conds ++ ["LOWER(currency_code) = LOWER(?)"])%list,
          (args ++ [currency])%list)
    else (conds, args) in
  let order :=
    if String.eqb sort "gdp_desc" then " ORDER BY estimated_gdp DESC"
    else if String.eqb sort "gdp_asc" then " ORDER BY estimated_gdp ASC"
    else "" in
  let where_ :=
    if (0 <? length conds)%nat then " WHERE " +:+ Join conds " AND "
    else "" in
  (base +:+ where_ +:+ order, args).

(** [rows.Scan] into [sql.Null...] values, then into the pointers. *)
Definition scan (row : Country) : Country :=
  let capital := to_null "" (Capital row) in
  let region := to_null "" (Region row) in
  let currency := to_null "" (CurrencyCode row) in
  let flag := to_null "" (FlagURL row) in
  let exchange := to_null F64.zero (ExchangeRate row) in
  let est := to_null F64.zero (EstimatedGDP row) in
  let last := to_null 0 (LastRefreshedAt row) in
  {| ID := ID row;
     Name := Name row;
     Capital := of_null capital;
     Region := of_null region;
     Population := Population row;
     CurrencyCode := of_null currency;
     ExchangeRate := of_null exchange;
     EstimatedGDP := of_null est;
     FlagURL := of_null flag;
     LastRefreshedAt := of_null last |}.

Definition GetAll (qerr : option string) (db : DB)
           (region currency sort : string) : error + list Country :=
  let '(q, args) := GetAll_query region currency sort in
  match db_Query qerr db q args with
  | inl err => inl err
  | inr rows => inr (map scan rows)
  end.

End Queries.

(** ** Concrete instances used by the examples *)

Module Demo.

Definition two_digits (n : Z) : string :=
  String (ascii_of_nat (48 + Z.to_nat (n / 10 mod 10)))
         (String (ascii_of_nat (48 + Z.to_nat (n mod 10))) "").

(** Times are seconds since the epoch; the rendering is that of the
    instants of 1 January 1970. *)
Definition format_first_day (t : Time) : string :=
  "1970-01-01T" +:+ two_digits (t / 3600 mod 24) +:+ ":"
  +:+ two_digits (t / 60 mod 60) +:+ ":" +:+ two_digits (t mod 60) +:+ "Z".

(** A generator that replays its seed: [Intn n] is [seed mod n] and the
    state advances by 7. *)
#[export] Instance runtime : Runtime Z := {|
  NewSource := fun seed => seed;
  Intn := fun r n => (r mod n, r + 7);
  Format_RFC3339 := format_first_day
|}.

Definition lower_ascii (c : ascii) : ascii :=
  let n := nat_of_ascii c in
  if ((65 <=? n) && (n <=? 90))%nat then ascii_of_nat (n + 32) else c.

Fixpoint lower (s : string) : string :=
  match s with
  | EmptyString => EmptyString
  | String c s' => String (lower_ascii c) (lower s')
  end.

(** A binary collation, ASCII [LOWER], ids counted from the table
    length, DATETIME columns that keep the value. *)
#[export] Instance engine : Engine := {|
  collation_key := fun s => s;
  LOWER := lower;
  AUTO_INCREMENT := fun rows => Z.of_nat (length rows) + 1;
  DATETIME := fun t => t
|}.

Definition no_faults : Faults :=
  mkFaults None None None (fun _ _ => None) None None.

Definition empty_db : DB := mkDB None None.

Definition usd_rates : gmap string float64 := {[ "USD" := F64.of_int 2 ]}.

(** Three records of one million inhabitants: without currencies, with a
    currency the rate feed does not quote, and with a quoted one. *)
Definition rec_none : restCountry :=
  mkRestCountry "Atlantis" "" "" 1000000 "" [].
Definition rec_xyz : restCountry :=
  mkRestCountry "Xanadu" "" "" 1000000 "" [mkCurrency "XYZ"].
Definition rec_usd : restCountry :=
  mkRestCountry "Utopia" "" "" 1000000 "" [mkCurrency "USD"].

(** A record that fails validation (population 0) and a second valid
    record. *)
Definition rec_empty : restCountry :=
  mkRestCountry "Erewhon" "" "" 0 "" [mkCurrency "USD"].
Definition rec_eur : restCountry :=
  mkRestCountry "Ruritania" "Strelsau" "Europe" 2000000 "" [mkCurrency "USD"].

Definition rates_ok : HttpOutcome ratesResp :=
  Response 200 (Some (mkRatesResp "success" usd_rates)).

(** The rate feed is down. *)
Definition w_rates_down : World :=
  mkWorld (Response 200 (Some [rec_usd])) DoError 500 100 no_faults.

(** A run over five records, one without a name. *)
Definition w_mixed : World :=
  mkWorld (Response 200
             (Some [rec_none; rec_usd; rec_empty;
                    mkRestCountry "" "" "" 7 "" [mkCurrency "USD"]; rec_xyz]))
          rates_ok 500 100 no_faults.

(** The server rejects the second upsert of the transaction. *)
Definition second_upsert_fails : Faults :=
  mkFaults None None None
           (fun n _ => if n =? 1 then Some "Lock wait timeout exceeded"
                       else None)
           None None.

Definition w_second_fails : World :=
  mkWorld (Response 200 (Some [rec_usd; rec_empty; rec_eur; rec_xyz]))
          rates_ok 500 100 second_upsert_fails.

(** The record of the upsert example as the specification writes it,
    name and population only, and the two runs over it. *)
Definition bare_wakanda (population : Z) : restCountry :=
  mkRestCountry "Wakanda" "" "" population "" [].

Definition w_bare (population : Z) (now : Time) : World :=
  mkWorld (Response 200 (Some [bare_wakanda population])) rates_ok 500 now
          no_faults.

(** The same runs over records that also carry the currency USD. *)
Definition w_usd (population : Z) (now : Time) : World :=
  mkWorld (Response 200
             (Some [mkRestCountry "Wakanda" "" "" population ""
                                  [mkCurrency "USD"]]))
          rates_ok 500 now no_faults.

(** A table of four rows for the listing examples. *)
Definition listed (id : Z) (name region : string) (est : Z) : Country :=
  mkCountry id name None (Some region) 1000 (Some "USD") (Some (F64.of_int 2))
            (Some (F64.of_int est)) None (Some 100).

Definition db_listing : DB :=
  mkDB (Some [listed 1 "Ten" "americas" 10; listed 2 "Forty" "Europe" 40;
              listed 3 "Thirty" "americas" 30; listed 4 "Twenty" "americas" 20])
       (Some []).

End Demo.

(** ** Vocabulary of the specification *)

(** The three requirements of [Country.Validate]. *)
Definition name_ok (c : Country) : Prop := Name c <> "".
Definition population_ok (c : Country) : Prop := 0 < Population c.
Definition currency_ok (c : Country) : Prop :=
  exists code, CurrencyCode c = Some code /\ code <> "".

#[global] Instance name_ok_dec (c : Country) : Decision (name_ok c).
Proof. unfold name_ok. apply _. Defined.

#[global] Instance population_ok_dec (c : Country) : Decision (population_ok c).
Proof. unfold population_ok. apply _. Defined.

#[global] Instance currency_ok_dec (c : Country) : Decision (currency_ok c).
Proof.
  unfold currency_ok. destruct (CurrencyCode c) as [code |].
  - destruct (decide (code = "")) as [-> | Hne].
    + right. intros (code & [= <-] & Hne). done.
    + left. eauto.
  - right. intros (code & [=] & _).
Defined.

(** The currency code a fetched record yields: the code of the first
    entry of its currencies array, when there is one and it is not
    empty. *)
Definition first_code (rcountry : restCountry) : option string :=
  match rc_Currencies rcountry with
  | [] => None
  | first :: _ => nonempty (Code first)
  end.

(** [population * multiplier / rate] in float64. *)
Definition estimate (population multiplier : Z) (rate : float64) : float64 :=
  F64.div (F64.mul (F64.of_int population) (F64.of_int multiplier)) rate.

(** A failed fetch: transport failure, a status other than 200, or a
    payload that does not decode. *)
Definition fetch_fails {A : Type} (o : HttpOutcome A) : Prop :=
  match o with
  | DoError => True
  | Response status decoded => status <> StatusOK \/ decoded = None
  end.

Definition passes (c : Country) : bool :=
  match Validate c with
  | None => true
  | Some _ => false
  end.

(** The records handed to [UpsertCountry], in call order. *)
Definition upsert_calls (log : list event) : list Country :=
  omap (fun e => match e with EvUpsertCountry c => Some c | _ => None end) log.

(** The ordering a sort token asks for. *)
Definition order_of (sort : string) : option direction :=
  if String.eqb sort "gdp_desc" then Some DESC
  else if String.eqb sort "gdp_asc" then Some ASC
  else None.

(** Whether the text of a statement has a WHERE clause. *)
Definition has_where (q : string) : bool :=
  match String.index 0 " WHERE " q with
  | Some _ => true
  | None => false
  end.

(** Rows whose estimate is not a NaN, as a DOUBLE column holds them. *)
Definition no_nan (r : Country) : Prop :=
  match EstimatedGDP r with
  | Some x => F64.is_nan x = false
  | None => True
  end.

(** [a] is listed before [b] in descending, respectively ascending,
    order of the estimate. *)
Definition gdp_desc (a b : Country) : Prop :=
  est_leb (EstimatedGDP b) (EstimatedGDP a) = true.
Definition gdp_asc (a b : Country) : Prop :=
  est_leb (EstimatedGDP a) (EstimatedGDP b) = true.

(** The record of the upsert example, with the code of its currency. *)
Definition wakanda (population : Z) (code : string) : restCountry :=
  mkRestCountry "Wakanda" "" "" population "" [mkCurrency code].

Section Vocabulary.

Context {rng : Type} `{Runtime rng} `{Engine}.

(** The multiplier drawn from generator state [r]. *)
Definition multiplier (r : rng) : Z := fst (Intn r 1001) + 1000.

(** The candidate records of a run: one per fetched record with a name,
    the generator being threaded from one record to the next. *)
Fixpoint candidates (rates : gmap string float64) (now : Time)
         (rc : list restCountry) (r : rng) : list Country :=
  match rc with
  | [] => []
  | rcountry :: rest =>
      if String.eqb (rc_Name rcountry) "" then candidates rates now rest r
      else
        fst (derive rates now rcountry r)
        :: candidates rates now rest (snd (derive rates now rcountry r))
  end.

(** The generator state once the loop has gone through [rc]. *)
Fixpoint rng_after (rates : gmap string float64) (now : Time)
         (rc : list restCountry) (r : rng) : rng :=
  match rc with
  | [] => r
  | rcountry :: rest =>
      if String.eqb (rc_Name rcountry) "" then rng_after rates now rest r
      else rng_after rates now rest (snd (derive rates now rcountry r))
  end.

(** The row an INSERT of record [c] writes under id [id]. *)
Definition stored_row (id : Z) (c : Country) : Country :=
  {| ID := id;
     Name := Name c;
     Capital := Capital c;
     Region := Region c;
     Population := Population c;
     CurrencyCode := CurrencyCode c;
     ExchangeRate := ExchangeRate c;
     EstimatedGDP := EstimatedGDP c;
     FlagURL := FlagURL c;
     LastRefreshedAt := DATETIME <$> LastRefreshedAt c |}.

(** The rows of the record table; none when it does not exist. *)
Definition rows_of (db : DB) : list Country := default [] (countries db).

(** The metadata row of the last synchronization. *)
Definition last_refreshed_row (db : DB) : option metaRow :=
  List.find (fun m => same_key (meta_key m) "last_refreshed_at")
            (default [] (metadata db)).

(** The table satisfies [UNIQUE KEY unique_name (name)]. *)
Fixpoint unique_names (rows : list Country) : Prop :=
  match rows with
  | [] => True
  | r :: rows' =>
      Forall (fun r' => same_key (Name r) (Name r') = false) rows'
      /\ unique_names rows'
  end.

(** The rows stored under a name. *)
Definition named (name : string) (r : Country) : bool :=
  same_key (Name r) name.

Definition rows_named (name : string) (db : DB) : list Country :=
  List.filter (named name) (rows_of db).

(** Equality up to case, as the statement computes it. *)
Definition ci_equal (v q : string) : bool := same_key (LOWER v) (LOWER q).

(** A filter that is not provided accepts every row; a provided one
    accepts the rows whose column equals it up to case. *)
Definition filter_accepts (q : string) (col : option string) : bool :=
  if String.eqb q "" then true
  else match col with
       | Some v => ci_equal v q
       | None => false
       end.

Definition selected (region currency : string) (r : Country) : bool :=
  filter_accepts region (Region r) && filter_accepts currency (CurrencyCode r).

End Vocabulary.

(** ** The repository: lookup, delete, count, last refresh, drop *)

(** What a lookup returns as an error: the sentinel [ErrNotFound] or
    whatever the driver reported. *)
Inductive lookup_error : Type :=
| ErrNotFound
| LookupFailed (err : error).

(** [time.Parse(time.RFC3339, s)], the counterpart of
    [Format_RFC3339]; [None] when the text does not parse. *)
Class TimeParser : Type := {
  Parse_RFC3339 : string -> option Time
}.

Section Repository.

Context `{Engine} `{TimeParser}.

(** [WHERE LOWER(name) = LOWER(?)]. *)
Definition name_matches (name : string) (r : Country) : bool :=
  same_key (LOWER (Name r)) (LOWER name).

(** [GetByName]: [QueryRow] with [LIMIT 1], then [Scan]; the model takes
    the first matching row in table order. *)
Definition GetByName (qerr : option string) (db : DB) (name : string)
  : lookup_error + Country :=
  match qerr with
  | Some e => inl (LookupFailed (DriverError e))
  | None =>
      match countries db with
      | None =>
          inl (LookupFailed (DriverError "Table 'countries' doesn't exist"))
      | Some rows =>
          match List.find (name_matches name) rows with
          | None => inl ErrNotFound
          | Some row => inr (scan row)
          end
      end
  end.

(** [DeleteByName]: one [db.Exec] outside of any transaction, then
    [RowsAffected]; [qerr] fails the statement, [aerr] the count. *)
Definition DeleteByName (qerr aerr : option string) (db : DB) (name : string)
  : (error + bool) * DB :=
  match qerr with
  | Some e => (inl (DriverError e), db)
  | None =>
      match countries db with
      | None => (inl (DriverError "Table 'countries' doesn't exist"), db)
      | Some rows =>
          let kept := List.filter (fun r => negb (name_matches name r)) rows in
          let n := Z.of_nat (length rows) - Z.of_nat (length kept) in
          let db' := mkDB (Some kept) (metadata db) in
          match aerr with
          | Some e => (inl (DriverError e), db')
          | None => (inr (0 <? n), db')
          end
      end
  end.

(** [TotalCount]: [SELECT COUNT( * ) FROM countries]. *)
Definition TotalCount (qerr : option string) (db : DB) : error + Z :=
  match qerr with
  | Some e => inl (DriverError e)
  | None =>
      match countries db with
      | None => inl (DriverError "Table 'countries' doesn't exist")
      | Some rows => inr (Z.of_nat (length rows))
      end
  end.

(** [GetLastRefreshed]: no row, a NULL or empty value and a value that
    does not parse all give [nil, nil]. *)
Definition GetLastRefreshed (qerr : option string) (db : DB)
  : error + option Time :=
  match qerr with
  | Some e => inl (DriverError e)
  | None =>
      match metadata db with
      | None => inl (DriverError "Table 'metadata' doesn't exist")
      | Some rows =>
          match List.find
                  (fun m => same_key (meta_key m) "last_refreshed_at") rows
          with
          | None => inr None
          | Some m =>
              let v := to_null "" (meta_value m) in
              if negb (Valid v) || String.eqb (Value v) "" then inr None
              else
                match Parse_RFC3339 (Value v) with
                | None => inr None
                | Some t => inr (Some t)
                end
          end
      end
  end.

(** [DropTables]: [DROP TABLE IF EXISTS metadata], then [countries]. *)
Definition DropTables (merr cerr : option string) (db : DB)
  : option error * DB :=
  match merr with
  | Some e => (Some (DriverError e), db)
  | None =>
      let db1 := mkDB (countries db) None in
      match cerr with
      | Some e => (Some (DriverError e), db1)
      | None => (None, mkDB None None)
      end
  end.

End Repository.

(** ** handler.go *)

Definition StatusBadRequest : Z := 400.
Definition StatusForbidden : Z := 403.
Definition StatusNotFound : Z := 404.
Definition StatusInternalServerError : Z := 500.
Definition StatusServiceUnavailable : Z := 503.

(** The method [Error()] of the three kinds of error. *)
Definition Error_text (e : error) : string :=
  match e with
  | ExternalError api => "Could not fetch data from " +:+ api
  | ValidationError _ => "Validation failed"
  | DriverError msg => msg
  end.

(** The values handed to the JSON encoder, kept as values. *)
Inductive details : Type :=
| DetailsFields (errs : gmap string string)
| DetailsText (text : string).

Inductive payload : Type :=
| ErrorPayload (msg : string) (d : option details)
| RefreshedPayload (total : Z) (last_refreshed_at : string)
| ListPayload (list : list Country)
| CountryPayload (c : Country)
| MessagePayload (message : string)
| StatusPayload (total_countries : Z) (last_refreshed_at : option string).

Record reply : Type := mkReply {
  content_type : string;
  code : Z;
  body : payload
}.

Definition writeJSON (status : Z) (v : payload) : reply :=
  mkReply "application/json" status v.

Definition writeError (status : Z) (msg : string) (d : option details)
  : reply :=
  writeJSON status (ErrorPayload msg d).

(** [strings.TrimLeft]. *)
Fixpoint in_cutset (c : ascii) (cutset : string) : bool :=
  match cutset with
  | EmptyString => false
  | String c' rest => Ascii.eqb c c' || in_cutset c rest
  end.

Fixpoint TrimLeft (s cutset : string) : string :=
  match s with
  | EmptyString => EmptyString
  | String c rest => if in_cutset c cutset then TrimLeft rest cutset else s
  end.

(** The loop that copies the query parameters under keys stripped of
    leading question marks; [raw] lists the entries of [req.URL.Query()]
    in the order the [range] visits them. *)
Definition sanitize_query (raw : list (string * list string))
  : gmap string (list string) :=
  foldl (fun q kv => <[TrimLeft (fst kv) "?" := snd kv]> q) ∅ raw.

Definition query_get (q : gmap string (list string)) (key : string) : string :=
  match q !! key with
  | Some (v :: _) => v
  | _ => ""
  end.

Section Handlers.

Context {rng : Type} `{Runtime rng} `{Engine} `{TimeParser}.

(** POST /countries/refresh *)
Definition handle_refresh (w : World) (db : DB) : reply * DB :=
  let out := Refresh w db in
  (match ret out with
   | Err err =>
       match err with
       | ValidationError errs =>
           writeError StatusBadRequest "Validation failed"
                      (Some (DetailsFields errs))
       | ExternalError _ =>
           writeError StatusServiceUnavailable
                      "External data source unavailable"
                      (Some (DetailsText (Error_text err)))
       | _ => writeError StatusInternalServerError "Internal server error" None
       end
   | Ok res =>
       writeJSON StatusOK
                 (RefreshedPayload (Total res)
                                   (Format_RFC3339 (LastRefreshed res)))
   end, store out).

(** GET /countries *)
Definition handle_list (raw : list (string * list string))
           (qerr : option string) (db : DB) : reply :=
  let q := sanitize_query raw in
  let region := query_get q "region" in
  let currency := query_get q "currency" in
  let sort := query_get q "sort" in
  match GetAll qerr db region currency sort with
  | inl _ => writeError StatusInternalServerError "Internal server error" None
  | inr list => writeJSON StatusOK (ListPayload list)
  end.

(** GET /countries/{name} *)
Definition handle_get (qerr : option string) (db : DB) (name : string)
  : reply :=
  match GetByName qerr db name with
  | inl ErrNotFound => writeError StatusNotFound "Country not found" None
  | inl _ => writeError StatusInternalServerError "Internal server error" None
  | inr c => writeJSON StatusOK (CountryPayload c)
  end.

(** DELETE /countries/{name} *)
Definition handle_delete (qerr aerr : option string) (db : DB) (name : string)
  : reply * DB :=
  match DeleteByName qerr aerr db name with
  | (inl _, db') =>
      (writeError StatusInternalServerError "Internal server error" None, db')
  | (inr false, db') =>
      (writeError StatusNotFound "Country not found" None, db')
  | (inr true, db') => (writeJSON StatusOK (MessagePayload "deleted"), db')
  end.

(** GET /status *)
Definition handle_status (cerr merr : option string) (db : DB) : reply :=
  match TotalCount cerr db with
  | inl _ => writeError StatusInternalServerError "Internal server error" None
  | inr total =>
      match GetLastRefreshed merr db with
      | inl _ =>
          writeError StatusInternalServerError "Internal server error" None
      | inr last =>
          let lastStr := Format_RFC3339 <$> last in
          writeJSON StatusOK (StatusPayload total lastStr)
      end
  end.

End Handlers.

(** ** middleware/cors.go *)

(** The part of a request the middleware reads; header keys are in
    canonical form. *)
Record Request : Type := mkRequest {
  Method : string;
  URLPath : string;
  Header : gmap string (list string)
}.

(** [Header.Get]: the first value of the key, or the empty string. *)
Definition Header_Get (h : gmap string (list string)) (key : string)
  : string :=
  match h !! key with
  | Some (v :: _) => v
  | _ => ""
  end.

(** The response writer: the header map, the status once written and
    the body written so far. *)
Record Writer : Type := mkWriter {
  w_header : gmap string string;
  w_status : option Z;
  w_body : string
}.

Definition Header_Set (w : Writer) (key value : string) : Writer :=
  mkWriter (<[key := value]> (w_header w)) (w_status w) (w_body w).

(** [WriteHeader]: only the first call counts. *)
Definition WriteHeader (w : Writer) (status : Z) : Writer :=
  match w_status w with
  | Some _ => w
  | None => mkWriter (w_header w) (Some status) (w_body w)
  end.

(** [http.Error] of the standard library: plain-text headers, the status
    and the message followed by a newline. *)
Definition http_Error (w : Writer) (msg : string) (status : Z) : Writer :=
  let w := mkWriter (delete "Content-Length" (w_header w)) (w_status w)
                    (w_body w) in
  let w := Header_Set w "Content-Type" "text/plain; charset=utf-8" in
  let w := Header_Set w "X-Content-Type-Options" "nosniff" in
  let w := WriteHeader w status in
  mkWriter (w_header w) (w_status w)
           (w_body w +:+ msg +:+ String (ascii_of_nat 10) "").

Definition CorsMiddleware (allowedOrigins : list string)
           (next : Writer -> Request -> Writer) (w : Writer) (r : Request)
  : Writer :=
  let origin := Header_Get (Header r) "Origin" in
  let allowed :=
    existsb (fun allowedOrigin =>
               String.eqb origin allowedOrigin || String.eqb allowedOrigin "*")
            allowedOrigins in
  if negb allowed && negb (String.eqb origin "") then
    http_Error w "Unauthorized origin" StatusForbidden
  else
    let w :=
      if negb (String.eqb origin "")
      then Header_Set w "Access-Control-Allow-Origin" origin
      else w in
    let w := Header_Set w "Access-Control-Allow-Methods"
                        "GET, POST, PUT, DELETE, OPTIONS" in
    let w := Header_Set w "Access-Control-Allow-Headers"
                        "Content-Type, Authorization" in
    let w := Header_Set w "Access-Control-Allow-Credentials" "true" in
    if String.eqb (Method r) "OPTIONS" then WriteHeader w StatusOK
    else next w r.

(** ** image.go *)

(** The calls on the drawing context and on the file system, in
    order. *)
Inductive draw_op : Type :=
| NewContext (width height : Z)
| SetColorWhite
| Clear
| SetRGB (red green blue : Z)
| LoadFontFace (path : string) (points : Z)
| DrawStringAnchored (s : string) (x y ax ay : float64)
| MkdirAll (dir : string)
| SavePNG (path : string).

(** [fmt.Sprintf] for the verbs [%d] and [%.2f], and [filepath.Dir]. *)
Class Formatter : Type := {
  Sprintf_d : Z -> string;
  Sprintf_2f : float64 -> string;
  filepath_Dir : string -> string
}.

Definition f64_add (x y : float64) : float64 := SFadd F64.prec F64.emax x y.

(** The literal [0.5]. *)
Definition f64_half : float64 := F64.div (F64.of_int 1) (F64.of_int 2).

Record entry : Type := mkEntry { entry_Name : string; entry_GDP : float64 }.

(** [SELECT name, estimated_gdp FROM countries WHERE estimated_gdp IS NOT
    NULL ORDER BY estimated_gdp DESC LIMIT 5], scanned into entries. *)
Definition has_estimate (r : Country) : bool :=
  match EstimatedGDP r with
  | Some _ => true
  | None => false
  end.

Definition top_rows (rows : list Country) : list Country :=
  take 5 (order_rows (Some DESC) (List.filter has_estimate rows)).

Definition scan_entry (r : Country) : option entry :=
  match EstimatedGDP r with
  | Some gdp => Some (mkEntry (Name r) gdp)
  | None => None
  end.

Section Image.

Context `{Engine} `{Formatter}.

(** The loop over [top]: one line per entry, 40 points apart. *)
Fixpoint draw_top (i : Z) (y : float64) (top : list entry) : list draw_op :=
  match top with
  | [] => []
  | e :: rest =>
      let line :=
        Sprintf_d (i + 1) +:+ ". " +:+ entry_Name e +:+ " â€” "
        +:+ Sprintf_2f (entry_GDP e) in
      DrawStringAnchored line (F64.of_int 60) y (F64.of_int 0) f64_half
      :: draw_top (i + 1) (f64_add y (F64.of_int 40)) rest
  end.

(** [GenerateSummaryImage]: [cerr] and [qerr] fail the two queries,
    [mkdir_err] and [save_err] the two file operations; a failed
    [LoadFontFace] is ignored by the code. *)
Definition GenerateSummaryImage (cerr qerr mkdir_err png_err : option string)
           (db : DB) (destPath : string) : option error * list draw_op :=
  match TotalCount cerr db with
  | inl err => (Some err, [])
  | inr total =>
      match qerr with
      | Some e => (Some (DriverError e), [])
      | None =>
          match mapM scan_entry (top_rows (rows_of db)) with
          | None => (Some (DriverError "converting NULL to float64"), [])
          | Some top =>
              let ops :=
                [NewContext 1000 600; SetColorWhite; Clear; SetRGB 0 0 0;
                 LoadFontFace "/Library/Fonts/Arial.ttf" 28;
                 DrawStringAnchored
                   ("Countries Summary (total: " +:+ Sprintf_d total +:+ ")")
                   (F64.of_int 500) (F64.of_int 60) f64_half f64_half]
                ++ draw_top 0 (F64.of_int 120) top
                ++ [MkdirAll (filepath_Dir destPath)] in
              match mkdir_err with
              | Some e => (Some (DriverError e), ops)
              | None =>
                  (match png_err with
                   | Some e => Some (DriverError e)
                   | None => None
                   end, ops ++ [SavePNG destPath])
              end
          end
      end
  end.

End Image.

(** ** handler.go: the drop-tables route *)

Section Reset.

Context `{Engine} `{TimeParser}.

(** POST /drop-tables, registered outside of production only. *)
Definition handle_drop_tables (merr cerr : option string) (db : DB)
  : reply * DB :=
  match DropTables merr cerr db with
  | (Some _, db') =>
      (writeError StatusInternalServerError "Failed to drop tables" None, db')
  | (None, db') =>
      (writeJSON StatusOK (MessagePayload "Tables dropped successfully"), db')
  end.

End Reset.

(** ** Further vocabulary *)

(** The identity of a row: its id and its name. *)
Definition idname (r : Country) : Z * string := (ID r, Name r).

(** The key of a query parameter once its leading question marks are
    removed, and the value the list handler reads for a parameter: the
    first value of the entry with that key, the empty string when there
    is none. *)
Definition stripped (kv : string * list string) : string :=
  TrimLeft (fst kv) "?".

Definition first_value (raw : list (string * list string)) (key : string)
  : string :=
  match List.find (fun kv => String.eqb (stripped kv) key) raw with
  | Some (_, v :: _) => v
  | _ => ""
  end.

(** Whether the middleware turns a request away. *)
Definition blocked (allowedOrigins : list string) (r : Request) : Prop :=
  Header_Get (Header r) "Origin" <> ""
  /\ ~ In (Header_Get (Header r) "Origin") allowedOrigins
  /\ ~ In "*" allowedOrigins.

(** A row or record without its refresh time. *)
Definition forget_time (r : Country) : Country :=
  {| ID := ID r;
     Name := Name r;
     Capital := Capital r;
     Region := Region r;
     Population := Population r;
     CurrencyCode := CurrencyCode r;
     ExchangeRate := ExchangeRate r;
     EstimatedGDP := EstimatedGDP r;
     FlagURL := FlagURL r;
     LastRefreshedAt := None |}.

Section MoreVocabulary.

Context `{Engine}.

(** The table after the upserts of the records [cs], in order. *)
Definition apply_upserts (rows : list Country) (cs : list Country)
  : list Country :=
  foldl (fun rows c =>
           insert_on_duplicate rows (stored_row (AUTO_INCREMENT rows) c))
        rows cs.

(** The last record of [cs] that bears the name, if any. *)
Definition last_named (name : string) (cs : list Country) : option Country :=
  List.find (fun c => same_key (Name c) name) (rev cs).

(** Row [r] once the records [cs] have been upserted over it. *)
Definition overwritten (cs : list Country) (r : Country) : Country :=
  match last_named (Name r) cs with
  | Some c => update_row r (stored_row (ID r) c)
  | None => r
  end.

End MoreVocabulary.

(** ** Sample instances and data for the accessors and the handlers *)

Module Samples.

Import Demo.

(** The parser that inverts [format_first_day]: the text of an instant
    of 1 January 1970 parses to that instant, any other text does not
    parse. *)
Definition digit (c : ascii) : Z := Z.of_nat (nat_of_ascii c) - 48.

Definition parse_first_day (s : string) : option Time :=
  match list_ascii_of_string s with
  | [_; _; _; _; _; _; _; _; _; _; _; h1; h2; _; m1; m2; _; s1; s2; _] =>
      let t := (digit h1 * 10 + digit h2) * 3600
               + (digit m1 * 10 + digit m2) * 60
               + (digit s1 * 10 + digit s2) in
      if String.eqb (format_first_day t) s then Some t else None
  | _ => None
  end.

#[export] Instance parser : TimeParser := {|
  Parse_RFC3339 := parse_first_day
|}.

(** Decimal digits of a natural number below [10 ^ 40]. *)
Fixpoint digits (fuel : nat) (n : Z) (acc : string) : string :=
  match fuel with
  | O => acc
  | S fuel' =>
      let acc' := String (ascii_of_nat (48 + Z.to_nat (n mod 10))) acc in
      if n <? 10 then acc' else digits fuel' (n / 10) acc'
  end.

Definition decimal (n : Z) : string :=
  if n <? 0 then "-" +:+ digits 40 (- n) "" else digits 40 n "".

(** The value [m * 2 ^ e] in hundredths, rounded to the nearest, ties to
    even. *)
Definition hundredths (m : positive) (e : Z) : Z :=
  let n := Z.pos m * 100 in
  if 0 <=? e then n * 2 ^ e
  else
    let d := 2 ^ (- e) in
    let q := n / d in
    let r := n mod d in
    if 2 * r <? d then q
    else if d <? 2 * r then q + 1
         else if Z.even q then q else q + 1.

Definition format_2f (x : float64) : string :=
  match x with
  | S754_zero s => (if s then "-" else "") +:+ "0.00"
  | S754_infinity s => if s then "-Inf" else "+Inf"
  | S754_nan => "NaN"
  | S754_finite s m e =>
      let h := hundredths m e in
      (if s then "-" else "") +:+ decimal (h / 100) +:+ "."
      +:+ two_digits (h mod 100)
  end.

(** The directory of a slash-separated path that is already clean. *)
Fixpoint before_last_slash (s : string) : option string :=
  match s with
  | EmptyString => None
  | String c s' =>
      match before_last_slash s' with
      | Some d => Some (String c d)
      | None => if Ascii.eqb c "/" then Some EmptyString else None
      end
  end.

Definition dir (path : string) : string :=
  match before_last_slash path with
  | None => "."
  | Some EmptyString => "/"
  | Some d => d
  end.

#[export] Instance formatter : Formatter := {|
  Sprintf_d := decimal;
  Sprintf_2f := format_2f;
  filepath_Dir := dir
|}.

(** The table of [db_listing] after a refresh at the instant 100. *)
Definition refreshed_at_100 : string := "1970-01-01T00:01:40Z".

Definition db_refreshed : DB :=
  mkDB (countries db_listing)
       (Some [mkMetaRow "last_refreshed_at" (Some refreshed_at_100)
                        (Some 100)]).

(** A table of seven rows, one of them without an estimate. *)
Definition db_seven : DB :=
  mkDB (Some [listed 1 "Ten" "americas" 10; listed 2 "Forty" "Europe" 40;
              listed 3 "Thirty" "americas" 30; listed 4 "Twenty" "americas" 20;
              mkCountry 5 "Nowhere" None None 1000 (Some "XYZ") None None None
                        (Some 100);
              listed 6 "Sixty" "Asia" 60; listed 7 "Fifty" "Asia" 50])
       (Some []).

(** The query [?region=Americas&sort=gdp_desc] whose first key kept its
    question mark. *)
Definition query_americas : list (string * list string) :=
  [("?region", ["Americas"]); ("sort", ["gdp_desc"])].

(** Requests with and without an origin, and a preflight. *)
Definition request_from (method origin : string) : Request :=
  mkRequest method "/countries" {[ "Origin" := [origin] ]}.

Definition request_plain : Request := mkRequest "GET" "/status" ∅.

Definition blank_writer : Writer := mkWriter ∅ None "".

Definition echo (w : Writer) (r : Request) : Writer :=
  mkWriter (w_header w) (Some 200) (w_body w +:+ URLPath r).

End Samples.
Lemma Validate_errors_lookup (c : Country) (k : string) :
  Validate_errors c !! k =
    if decide (k = "name" /\ ~ name_ok c) then Some "is required"
    else if decide (k = "population" /\ ~ population_ok c)
         then Some "must be positive"
    else if decide (k = "currency_code" /\ ~ currency_ok c)
         then Some "is required"
    else None.
Proof.
  assert (Hcur : currency_ok c <->
                 match CurrencyCode c with
                 | Some code => String.eqb code "" = false
                 | None => False
                 end).
  { unfold currency_ok. destruct (CurrencyCode c) as [code |].
    - rewrite String.eqb_neq. split.
      + intros (code' & Heq & Hne). congruence.
      + intros Hne. exists code. done.
    - split; [intros (code' & Heq & _); discriminate | done]. }
  assert (Hname : name_ok c <-> String.eqb (Name c) "" = false)
    by (unfold name_ok; by rewrite String.eqb_neq).
  assert (Hpop : population_ok c <-> (Population c <=? 0) = false)
    by (unfold population_ok; by rewrite Z.leb_gt).
  unfold Validate_errors.
  destruct (String.eqb (Name c) ""), (Population c <=? 0);
    destruct (CurrencyCode c) as [code |];
    try destruct (String.eqb code "");
    (destruct (decide (k = "name")) as [-> | ?];
     [| destruct (decide (k = "population")) as [-> | ?];
        [| destruct (decide (k = "currency_code")) as [-> | ?]]]);
    repeat case_decide; simplify_map_eq; try done;
    exfalso; intuition congruence.
Qed.

Lemma Validate_errors_empty (c : Country) :
  Validate_errors c = ∅ <-> name_ok c /\ population_ok c /\ currency_ok c.
Proof.
  split.
  - intros Hempty.
    assert (Hk : forall k, Validate_errors c !! k = None)
      by (intros k; by rewrite Hempty, lookup_empty).
    pose proof (Hk "name") as H1.
    pose proof (Hk "population") as H2.
    pose proof (Hk "currency_code") as H3.
    rewrite Validate_errors_lookup in H1, H2, H3.
    repeat case_decide; try discriminate;
      repeat split; apply dec_stable; tauto.
  - intros (Hn & Hp & Hc). apply map_eq. intros k.
    rewrite Validate_errors_lookup, lookup_empty.
    repeat case_decide; try reflexivity; exfalso; tauto.
Qed.

Lemma Validate_None (c : Country) :
  Validate c = None <-> Validate_errors c = ∅.
Proof.
  unfold Validate. rewrite <- (map_size_empty_iff (Validate_errors c)).
  destruct (Z.ltb_spec 0 (Z.of_nat (size (Validate_errors c)))); split;
    intros; try discriminate; try reflexivity; try lia; exfalso; lia.
Qed.

(** C5.  [Validate] returns nil exactly when the name is non-empty, the
    population is strictly positive and the currency code is present and
    non-empty; otherwise it returns a [ValidationError] whose map has an
    entry for exactly the violated requirements, each with its reason. *)
Theorem Validate_requirements (c : Country) :
  (Validate c = None <-> name_ok c /\ population_ok c /\ currency_ok c)
  /\ (forall err, Validate c = Some err ->
      exists errs, err = ValidationError errs
        /\ forall k reason, errs !! k = Some reason <->
             (k = "name" /\ ~ name_ok c /\ reason = "is required")
             \/ (k = "population" /\ ~ population_ok c
                 /\ reason = "must be positive")
             \/ (k = "currency_code" /\ ~ currency_ok c
                 /\ reason = "is required")).
Proof.
  split.
  - rewrite Validate_None. apply Validate_errors_empty.
  - intros err Herr. exists (Validate_errors c). split.
    + unfold Validate in Herr.
      destruct (0 <? Z.of_nat (size (Validate_errors c))); congruence.
    + intros k reason. rewrite Validate_errors_lookup.
      repeat case_decide; intuition congruence.
Qed.

(** ** The derivation of one record *)

Section Derivation.

Context {rng : Type} `{Runtime rng}.

Lemma first_code_nonempty (rcountry : restCountry) (code : string) :
  first_code rcountry = Some code -> code <> "".
Proof.
  unfold first_code, nonempty. destruct (rc_Currencies rcountry) as [| first ?].
  - discriminate.
  - destruct (String.eqb_spec (Code first) ""); intros [= <-]; assumption.
Qed.

(** The derived triple and the generator state as one case analysis on
    [first_code] and the rate map. *)
Lemma derive_cases (rates : gmap string float64) (now : Time)
      (rcountry : restCountry) (r : rng) :
  let c := fst (derive rates now rcountry r) in
  let r' := snd (derive rates now rcountry r) in
  match first_code rcountry with
  | None =>
      CurrencyCode c = None /\ ExchangeRate c = None
      /\ EstimatedGDP c = Some F64.zero /\ r' = r
  | Some code =>
      match rates !! code with
      | None =>
          CurrencyCode c = Some code /\ ExchangeRate c = None
          /\ EstimatedGDP c = None /\ r' = r
      | Some rate =>
          CurrencyCode c = Some code /\ ExchangeRate c = Some rate
          /\ EstimatedGDP c
             = Some (estimate (rc_Population rcountry) (multiplier r) rate)
          /\ r' = snd (Intn r 1001)
      end
  end.
Proof.
  unfold derive, first_code, nonempty, estimate, multiplier.
  destruct (rc_Currencies rcountry) as [| first ?]; simpl.
  - done.
  - destruct (String.eqb (Code first) ""); simpl; [done |].
    destruct (rates !! Code first) as [rate |]; simpl; [| done].
    destruct (Intn r 1001) as [k r1]; simpl. done.
Qed.

Lemma derive_fixed_fields (rates : gmap string float64) (now : Time)
      (rcountry : restCountry) (r : rng) :
  let c := fst (derive rates now rcountry r) in
  Name c = rc_Name rcountry /\ Population c = rc_Population rcountry
  /\ Capital c = nonempty (rc_Capital rcountry)
  /\ Region c = nonempty (rc_Region rcountry)
  /\ FlagURL c = nonempty (rc_Flag rcountry)
  /\ LastRefreshedAt c = Some now.
Proof.
  unfold derive.
  destruct (match rc_Currencies rcountry with [] => _ | _ => _ end)
    as [[[? ?] ?] ?].
  simpl. done.
Qed.

(** C1.  The derivation of the merging loop follows the three-way policy:
    no usable currency entry gives no code, no rate and the estimate 0;
    a code that is not a key of the rate map gives the code, no rate and
    no estimate; a code found in the rate map gives the code, the found
    rate and the estimate computed from the population and that rate. *)
Theorem derive_three_way_policy (rates : gmap string float64) (now : Time)
        (rcountry : restCountry) (r : rng) :
  let c := fst (derive rates now rcountry r) in
  (first_code rcountry = None ->
   CurrencyCode c = None /\ ExchangeRate c = None
   /\ EstimatedGDP c = Some F64.zero)
  /\ (forall code, first_code rcountry = Some code -> rates !! code = None ->
      CurrencyCode c = Some code /\ ExchangeRate c = None
      /\ EstimatedGDP c = None)
  /\ (forall code rate,
      first_code rcountry = Some code -> rates !! code = Some rate ->
      CurrencyCode c = Some code /\ ExchangeRate c = Some rate
      /\ EstimatedGDP c
         = Some (estimate (rc_Population rcountry) (multiplier r) rate)).
Proof.
  intros c. pose proof (derive_cases rates now rcountry r) as Hc.
  cbv zeta in Hc. fold c in Hc.
  split; [| split].
  - intros Hfirst. rewrite Hfirst in Hc. tauto.
  - intros code Hfirst Hrate. rewrite Hfirst, Hrate in Hc. tauto.
  - intros code rate Hfirst Hrate. rewrite Hfirst, Hrate in Hc. tauto.
Qed.

(** C6.  In a derived record an estimate other than the zero fallback
    comes with a currency code, and was computed from the population and
    the exchange rate found for that code; a record without a currency
    code carries exactly the estimate 0. *)
Theorem derive_estimate_needs_currency (rates : gmap string float64)
        (now : Time) (rcountry : restCountry) (r : rng) :
  let c := fst (derive rates now rcountry r) in
  (forall est, EstimatedGDP c = Some est -> est <> F64.zero ->
     exists code rate,
       CurrencyCode c = Some code /\ rates !! code = Some rate
       /\ ExchangeRate c = Some rate
       /\ est = estimate (Population c) (multiplier r) rate)
  /\ (CurrencyCode c = None -> EstimatedGDP c = Some F64.zero).
Proof.
  intros c. pose proof (derive_cases rates now rcountry r) as Hc.
  pose proof (derive_fixed_fields rates now rcountry r) as (_ & Hpop & _).
  cbv zeta in Hc, Hpop. fold c in Hc, Hpop.
  destruct (first_code rcountry) as [code |].
  - destruct (rates !! code) as [rate |] eqn:Hrate;
      destruct Hc as (Hcode & Hrate' & Hest & _); split.
    + intros est Hsome _. exists code, rate. rewrite Hpop.
      repeat split; congruence.
    + congruence.
    + congruence.
    + congruence.
  - destruct Hc as (Hcode & _ & Hest & _). split.
    + intros est Hsome Hnz. congruence.
    + intros _. exact Hest.
Qed.

(** C4.  A computed estimate is [population * multiplier / rate] for the
    multiplier [Intn(1001) + 1000] of a single draw, the generator
    advancing by that draw only; a draw within the bounds of [Intn]
    gives a multiplier in [1000, 2000], each value of that interval
    coming from exactly one draw; and population 1,000,000 at rate 2.0
    with multiplier 1500 gives 750,000,000. *)
Theorem estimate_formula (rates : gmap string float64) (now : Time)
        (rcountry : restCountry) (r : rng) (code : string) (rate : float64) :
  first_code rcountry = Some code -> rates !! code = Some rate ->
  0 <= fst (Intn r 1001) < 1001 ->
  EstimatedGDP (fst (derive rates now rcountry r))
  = Some (F64.div (F64.mul (F64.of_int (rc_Population rcountry))
                           (F64.of_int (multiplier r))) rate)
  /\ snd (derive rates now rcountry r) = snd (Intn r 1001)
  /\ 1000 <= multiplier r <= 2000
  /\ (forall m, 1000 <= m <= 2000 ->
        exists k, (0 <= k < 1001 /\ k + 1000 = m)
                  /\ forall k', 0 <= k' < 1001 -> k' + 1000 = m -> k' = k)
  /\ estimate 1000000 1500 (F64.of_int 2) = F64.of_int 750000000.
Proof.
  intros Hfirst Hrate Hdraw.
  pose proof (derive_cases rates now rcountry r) as Hc.
  cbv zeta in Hc. rewrite Hfirst, Hrate in Hc.
  destruct Hc as (_ & _ & Hest & Hrng).
  split; [exact Hest |].
  split; [exact Hrng |].
  split; [unfold multiplier; lia |].
  split; [| vm_compute; reflexivity].
  intros m Hm. exists (m - 1000). split; [lia |]. intros k' Hk' Hsum. lia.
Qed.

End Derivation.

(** ** The merging loop and [Refresh] *)

Section Orchestration.

Context {rng : Type} `{Runtime rng} `{Engine}.

Lemma fetch_fails_dec {A : Type} (o : HttpOutcome A) :
  {fetch_fails o} + {~ fetch_fails o}.
Proof.
  destruct o as [| status [v |]]; simpl.
  - left. exact I.
  - destruct (decide (status = StatusOK)) as [-> | Hne].
    + right. intros [Hs | Hd]; [by apply Hs | discriminate].
    + left. by left.
  - left. by right.
Defined.

Lemma fetch_failure {A : Type} (o : HttpOutcome A) (api : string) :
  fetch_fails o -> fetch o api = inl (ExternalError api).
Proof.
  destruct o as [| status [v |]]; simpl; try done.
  - intros [Hs | Hd]; [| discriminate].
    destruct (Z.eqb_spec status StatusOK); [contradiction | done].
  - intros _. by destruct (negb (status =? StatusOK)).
Qed.

Lemma fetch_success {A : Type} (o : HttpOutcome A) (api : string) :
  ~ fetch_fails o -> exists v, o = Response StatusOK (Some v)
                               /\ fetch o api = inr v.
Proof.
  destruct o as [| status [v |]]; simpl; intros Hok.
  - destruct Hok. exact I.
  - destruct (Z.eqb_spec status StatusOK) as [-> | Hne].
    + exists v. done.
    + destruct Hok. by left.
  - destruct Hok. by right.
Qed.

Lemma fetch_inr {A : Type} (o : HttpOutcome A) (api : string) (v : A) :
  fetch o api = inr v -> ~ fetch_fails o.
Proof.
  intros Hv Hfail. apply (fetch_failure o api) in Hfail. congruence.
Qed.

(** C2.  When the directory fetch or the rate fetch fails, [Refresh]
    returns an [ExternalError] that names the failed provider, makes no
    call on the database (neither [EnsureTables] nor [BeginTx]) and
    leaves the tables and the metadata as they were. *)
Theorem Refresh_source_unavailable (w : World) (db : DB) :
  fetch_fails (countries_api w) \/ fetch_fails (rates_api w) ->
  exists api,
    Refresh w db = mkOutcome (Err (ExternalError api)) db []
    /\ (fetch_fails (countries_api w) -> api = "restcountries")
    /\ (~ fetch_fails (countries_api w) -> api = "exchangerates").
Proof.
  intros Hfail. unfold Refresh.
  destruct (fetch_fails_dec (countries_api w)) as [Hc | Hc].
  - exists "restcountries".
    rewrite (fetch_failure _ _ Hc). tauto.
  - destruct Hfail as [Hc' | Hr]; [contradiction |].
    exists "exchangerates".
    destruct (fetch_success _ "restcountries" Hc) as (rc & _ & ->).
    rewrite (fetch_failure _ _ Hr). tauto.
Qed.

(** *** One step of the loop *)

Lemma merge_loop_nameless (f : Faults) (rates : gmap string float64)
      (now : Time) (rcountry : restCountry) (rest : list restCountry)
      (tx : DB) (r : rng) (n : Z) :
  rc_Name rcountry = "" ->
  merge_loop f rates now (rcountry :: rest) tx r n
  = merge_loop f rates now rest tx r n.
Proof. intros Hname. simpl. by rewrite Hname. Qed.

Lemma merge_loop_invalid (f : Faults) (rates : gmap string float64)
      (now : Time) (rcountry : restCountry) (rest : list restCountry)
      (tx : DB) (r : rng) (n : Z) :
  rc_Name rcountry <> "" ->
  passes (fst (derive rates now rcountry r)) = false ->
  merge_loop f rates now (rcountry :: rest) tx r n
  = merge_loop f rates now rest tx (snd (derive rates now rcountry r)) n.
Proof.
  intros Hname Hpass. simpl.
  apply String.eqb_neq in Hname. rewrite Hname.
  unfold passes in Hpass.
  destruct (derive rates now rcountry r) as [c r']. simpl in *.
  by destruct (Validate c).
Qed.

Lemma merge_loop_upsert_error (f : Faults) (rates : gmap string float64)
      (now : Time) (rcountry : restCountry) (rest : list restCountry)
      (tx tx0 : DB) (r : rng) (n : Z) (e : error) :
  rc_Name rcountry <> "" ->
  passes (fst (derive rates now rcountry r)) = true ->
  UpsertCountry f n tx (fst (derive rates now rcountry r)) = (Some e, tx0) ->
  merge_loop f rates now (rcountry :: rest) tx r n
  = (inl e, [EvUpsertCountry (fst (derive rates now rcountry r)); EvRollback]).
Proof.
  intros Hname Hpass Hup. simpl.
  apply String.eqb_neq in Hname. rewrite Hname.
  unfold passes in Hpass.
  destruct (derive rates now rcountry r) as [c r']. simpl in *.
  destruct (Validate c); [discriminate |]. by rewrite Hup.
Qed.

Lemma merge_loop_upsert_ok (f : Faults) (rates : gmap string float64)
      (now : Time) (rcountry : restCountry) (rest : list restCountry)
      (tx tx1 : DB) (r : rng) (n : Z) :
  rc_Name rcountry <> "" ->
  passes (fst (derive rates now rcountry r)) = true ->
  UpsertCountry f n tx (fst (derive rates now rcountry r)) = (None, tx1) ->
  merge_loop f rates now (rcountry :: rest) tx r n
  = (fst (merge_loop f rates now rest tx1
                     (snd (derive rates now rcountry r)) (n + 1)),
     EvUpsertCountry (fst (derive rates now rcountry r))
     :: snd (merge_loop f rates now rest tx1
                        (snd (derive rates now rcountry r)) (n + 1))).
Proof.
  intros Hname Hpass Hup. simpl.
  apply String.eqb_neq in Hname. rewrite Hname.
  unfold passes in Hpass.
  destruct (derive rates now rcountry r) as [c r']. simpl in *.
  destruct (Validate c); [discriminate |]. rewrite Hup.
  by destruct (merge_loop f rates now rest tx1 r' (n + 1)).
Qed.

(** The four ways an iteration can go. *)
Lemma merge_loop_cons_cases (f : Faults) (rates : gmap string float64)
      (now : Time) (rcountry : restCountry) (rest : list restCountry)
      (tx : DB) (r : rng) (n : Z) :
  let c := fst (derive rates now rcountry r) in
  let r' := snd (derive rates now rcountry r) in
  (rc_Name rcountry = ""
   /\ merge_loop f rates now (rcountry :: rest) tx r n
      = merge_loop f rates now rest tx r n)
  \/ (rc_Name rcountry <> "" /\ passes c = false
      /\ merge_loop f rates now (rcountry :: rest) tx r n
         = merge_loop f rates now rest tx r' n)
  \/ (rc_Name rcountry <> "" /\ passes c = true
      /\ exists msg,
          UpsertCountry f n tx c = (Some (DriverError msg), tx)
          /\ merge_loop f rates now (rcountry :: rest) tx r n
             = (inl (DriverError msg), [EvUpsertCountry c; EvRollback]))
  \/ (rc_Name rcountry <> "" /\ passes c = true
      /\ exists tx1,
          UpsertCountry f n tx c = (None, tx1)
          /\ merge_loop f rates now (rcountry :: rest) tx r n
             = (fst (merge_loop f rates now rest tx1 r' (n + 1)),
                EvUpsertCountry c
                :: snd (merge_loop f rates now rest tx1 r' (n + 1)))).
Proof.
  intros c r'.
  destruct (decide (rc_Name rcountry = "")) as [Hname | Hname].
  { left. split; [done |]. by apply merge_loop_nameless. }
  right. destruct (passes c) eqn:Hpass.
  2:{ left. repeat split; try done. by apply merge_loop_invalid. }
  right. destruct (UpsertCountry f n tx c) as [[e |] tx1] eqn:Hup.
  - left. repeat split; try done.
    assert (exists msg, e = DriverError msg /\ tx1 = tx) as (msg & -> & ->).
    { unfold UpsertCountry in Hup.
      destruct (upsert_err f n c); [injection Hup as <- <-; eauto |].
      destruct (countries tx); [discriminate |].
      injection Hup as <- <-; eauto. }
    exists msg. split; [done |]. by eapply merge_loop_upsert_error.
  - right. repeat split; try done. exists tx1. split; [done |].
    by apply merge_loop_upsert_ok.
Qed.

(** *** The whole loop *)

Lemma candidates_cons (rates : gmap string float64) (now : Time)
      (rcountry : restCountry) (rest : list restCountry) (r : rng) :
  candidates rates now (rcountry :: rest) r
  = if decide (rc_Name rcountry = "") then candidates rates now rest r
    else fst (derive rates now rcountry r)
         :: candidates rates now rest (snd (derive rates now rcountry r)).
Proof.
  simpl. destruct (String.eqb_spec (rc_Name rcountry) ""); by case_decide.
Qed.

Lemma rng_after_cons (rates : gmap string float64) (now : Time)
      (rcountry : restCountry) (rest : list restCountry) (r : rng) :
  rng_after rates now (rcountry :: rest) r
  = if decide (rc_Name rcountry = "") then rng_after rates now rest r
    else rng_after rates now rest (snd (derive rates now rcountry r)).
Proof.
  simpl. destruct (String.eqb_spec (rc_Name rcountry) ""); by case_decide.
Qed.

Lemma upsert_calls_map (l : list Country) (tail : list event) :
  upsert_calls (map EvUpsertCountry l ++ tail) = l ++ upsert_calls tail.
Proof.
  unfold upsert_calls. induction l as [| c l IH]; simpl; [done |].
  f_equal. exact IH.
Qed.

(** The loop hands to [UpsertCountry] the candidates that pass
    validation, in order; it counts them when it completes, and stops
    with a driver error and a rollback at the first failed upsert. *)
Lemma merge_loop_calls (f : Faults) (rates : gmap string float64)
      (now : Time) (rc : list restCountry) :
  forall (tx : DB) (r : rng) (n : Z),
    let passed := List.filter passes (candidates rates now rc r) in
    match merge_loop f rates now rc tx r n with
    | (inr (tx', n'), log) =>
        log = map EvUpsertCountry passed
        /\ n' = n + Z.of_nat (length passed)
    | (inl e, log) =>
        exists msg sent,
          e = DriverError msg
          /\ log = map EvUpsertCountry sent ++ [EvRollback]
          /\ sent `prefix_of` passed
    end.
Proof.
  induction rc as [| x rest IH]; intros tx r n passed.
  { simpl. split; [done | lia]. }
  subst passed. rewrite candidates_cons.
  destruct (merge_loop_cons_cases f rates now x rest tx r n)
    as [(Hn & ->) | [(Hn & Hp & ->) | [(Hn & Hp & msg & Hup & ->)
                                      | (Hn & Hp & tx1 & Hup & ->)]]];
    case_decide; try contradiction.
  - apply IH.
  - simpl. rewrite Hp. apply IH.
  - simpl. rewrite Hp. exists msg, [fst (derive rates now x r)].
    repeat split. apply prefix_cons, prefix_nil.
  - simpl. rewrite Hp.
    specialize (IH tx1 (snd (derive rates now x r)) (n + 1)).
    destruct (merge_loop f rates now rest tx1 (snd (derive rates now x r))
                         (n + 1)) as [[e | [tx' n']] log]; simpl in *.
    + destruct IH as (msg & sent & -> & -> & Hpre).
      exists msg, (fst (derive rates now x r) :: sent).
      repeat split. by apply prefix_cons.
    + destruct IH as (-> & ->). split; [done | lia].
Qed.

Lemma merge_loop_app (f : Faults) (rates : gmap string float64) (now : Time)
      (pre suf : list restCountry) :
  forall (tx : DB) (r : rng) (n : Z) (tx' : DB) (n' : Z) (log : list event),
    merge_loop f rates now pre tx r n = (inr (tx', n'), log) ->
    merge_loop f rates now (pre ++ suf) tx r n
    = (fst (merge_loop f rates now suf tx' (rng_after rates now pre r) n'),
       log ++ snd (merge_loop f rates now suf tx'
                              (rng_after rates now pre r) n')).
Proof.
  induction pre as [| x rest IH]; intros tx r n tx' n' log Hpre.
  { simpl in Hpre. injection Hpre as <- <- <-. simpl.
    by destruct (merge_loop f rates now suf tx r n). }
  rewrite rng_after_cons. rewrite <- app_comm_cons.
  destruct (merge_loop_cons_cases f rates now x rest tx r n)
    as [(Hn & Heq) | [(Hn & Hp & Heq) | [(Hn & Hp & msg & Hup & Heq)
                                        | (Hn & Hp & tx1 & Hup & Heq)]]];
    rewrite Heq in Hpre; case_decide; try contradiction.
  - rewrite merge_loop_nameless by done. by apply IH.
  - rewrite merge_loop_invalid by done. by apply IH.
  - discriminate.
  - rewrite (merge_loop_upsert_ok _ _ _ _ _ _ tx1) by done.
    destruct (merge_loop f rates now rest tx1 (snd (derive rates now x r))
                         (n + 1)) as [out log1] eqn:Hrest.
    simpl in Hpre. injection Hpre as -> <-.
    rewrite (IH _ _ _ _ _ _ Hrest). done.
Qed.

(** *** Errors of [Refresh] *)

Lemma fetch_error {A : Type} (o : HttpOutcome A) (api : string) (e : error) :
  fetch o api = inl e -> e = ExternalError api.
Proof.
  destruct o as [| status [v |]]; simpl;
    try destruct (negb (status =? StatusOK)); congruence.
Qed.

Lemma EnsureTables_error (f : Faults) (db db1 : DB) (e : error) :
  EnsureTables f db = (Some e, db1) -> exists msg, e = DriverError msg.
Proof.
  unfold EnsureTables.
  destruct (create_countries_err f); [intros [= <- _]; eauto |].
  destruct (create_meta_err f); [intros [= <- _]; eauto | discriminate].
Qed.

Lemma EnsureTables_ok (f : Faults) (db db1 : DB) :
  EnsureTables f db = (None, db1) ->
  db1 = mkDB (Some (default [] (countries db)))
             (Some (default [] (metadata db))).
Proof.
  unfold EnsureTables.
  destruct (create_countries_err f); [discriminate |].
  destruct (create_meta_err f); [discriminate |].
  simpl. congruence.
Qed.

Lemma SaveLastRefreshed_error (f : Faults) (tx tx' : DB) (t : Time)
      (e : error) :
  SaveLastRefreshed f tx t = (Some e, tx') -> exists msg, e = DriverError msg.
Proof.
  unfold SaveLastRefreshed.
  destruct (save_err f); [intros [= <- _]; eauto |].
  destruct (metadata tx); [discriminate | intros [= <- _]; eauto].
Qed.

Lemma merge_loop_error (f : Faults) (rates : gmap string float64)
      (now : Time) (rc : list restCountry) (tx : DB) (r : rng) (n : Z)
      (e : error) (log : list event) :
  merge_loop f rates now rc tx r n = (inl e, log) ->
  exists msg, e = DriverError msg.
Proof.
  intros Hloop. pose proof (merge_loop_calls f rates now rc tx r n) as Hc.
  cbv zeta in Hc. rewrite Hloop in Hc.
  destruct Hc as (msg & _ & -> & _). eauto.
Qed.

(** Whatever [Refresh] returns as an error is an [ExternalError] or an
    error of the driver. *)
Lemma Refresh_error_kind (w : World) (db : DB) (e : error) :
  ret (Refresh w db) = Err e ->
  (exists api, e = ExternalError api) \/ (exists msg, e = DriverError msg).
Proof.
  unfold Refresh.
  destruct (fetch (countries_api w) "restcountries") as [e1 | rc] eqn:Hf1.
  { apply fetch_error in Hf1. simpl. intros [= <-]. eauto. }
  destruct (fetch (rates_api w) "exchangerates") as [e2 | rr] eqn:Hf2.
  { apply fetch_error in Hf2. simpl. intros [= <-]. eauto. }
  destruct (EnsureTables (faults w) db) as [[e3 |] db1] eqn:Hens.
  { apply EnsureTables_error in Hens. simpl. intros [= <-]. eauto. }
  destruct (begin_err (faults w)) as [msg |].
  { simpl. intros [= <-]. eauto. }
  destruct (merge_loop _ _ _ _ _ _ _) as [[e4 | [tx n]] log] eqn:Hloop.
  { apply merge_loop_error in Hloop. simpl. intros [= <-]. eauto. }
  destruct (SaveLastRefreshed (faults w) tx (clock_now w))
    as [[e5 |] tx'] eqn:Hsave.
  { apply SaveLastRefreshed_error in Hsave. simpl. intros [= <-]. eauto. }
  destruct (commit_err (faults w)) as [msg |]; simpl.
  - intros [= <-]. eauto.
  - discriminate.
Qed.

Lemma upsert_calls_app (l1 l2 : list event) :
  upsert_calls (l1 ++ l2) = upsert_calls l1 ++ upsert_calls l2.
Proof. unfold upsert_calls. apply omap_app. Qed.

Lemma merge_loop_upserts_pass (f : Faults) (rates : gmap string float64)
      (now : Time) (rc : list restCountry) (tx : DB) (r : rng) (n : Z) :
  Forall (fun c => passes c = true /\ LastRefreshedAt c = Some now)
         (upsert_calls (snd (merge_loop f rates now rc tx r n))).
Proof.
  pose proof (merge_loop_calls f rates now rc tx r n) as Hc. cbv zeta in Hc.
  assert (Hall : Forall (fun c => passes c = true
                                  /\ LastRefreshedAt c = Some now)
                        (List.filter passes (candidates rates now rc r))).
  { apply Forall_forall. intros c Hin. apply list_elem_of_In in Hin.
    apply filter_In in Hin as [Hin Hp].
    split; [exact Hp |]. clear Hp Hc. revert r Hin.
    induction rc as [| x rest IH]; intros r Hin; [destruct Hin |].
    rewrite candidates_cons in Hin. case_decide; [by eapply IH |].
    destruct Hin as [<- | Hin]; [| by eapply IH].
    apply derive_fixed_fields. }
  destruct (merge_loop f rates now rc tx r n) as [[e | [tx' n']] log];
    simpl.
  - destruct Hc as (msg & sent & _ & -> & Hpre).
    rewrite upsert_calls_map. simpl. rewrite app_nil_r.
    destruct Hpre as [rest Hrest]. rewrite Hrest in Hall.
    by apply Forall_app in Hall as [? _].
  - destruct Hc as [-> _].
    rewrite <- (app_nil_r (map _ _)), upsert_calls_map. simpl.
    by rewrite app_nil_r.
Qed.

(** *** What the statements do to the tables *)

Lemma of_null_to_null {A : Type} (zero : A) (p : option A) :
  of_null (to_null zero p) = p.
Proof. by destruct p. Qed.

Lemma UpsertCountry_ok (f : Faults) (n : Z) (tx tx1 : DB) (c : Country) :
  UpsertCountry f n tx c = (None, tx1) ->
  exists rows,
    countries tx = Some rows
    /\ tx1 = mkDB (Some (insert_on_duplicate rows
                           (stored_row (AUTO_INCREMENT rows) c)))
                  (metadata tx).
Proof.
  unfold UpsertCountry, stored_row. rewrite !of_null_to_null.
  destruct (upsert_err f n c); [discriminate |].
  destruct (countries tx) as [rows |]; [| discriminate].
  intros [= <-]. eauto.
Qed.

(** An invariant of the transaction that every upsert of a validated
    record derived from a record satisfying [R] preserves holds when the
    loop completes. *)
Lemma merge_loop_invariant (P : DB -> Prop) (R : restCountry -> Prop)
      (f : Faults) (rates : gmap string float64) (now : Time) :
  (forall tx x r n tx1,
      P tx -> R x -> rc_Name x <> "" ->
      passes (fst (derive rates now x r)) = true ->
      UpsertCountry f n tx (fst (derive rates now x r)) = (None, tx1) ->
      P tx1) ->
  forall (rc : list restCountry) (tx : DB) (r : rng) (n : Z) (tx' : DB)
         (n' : Z) (log : list event),
    Forall R rc -> P tx ->
    merge_loop f rates now rc tx r n = (inr (tx', n'), log) -> P tx'.
Proof.
  intros Hstep. induction rc as [| x rest IH];
    intros tx r n tx' n' log HR HP.
  { simpl. by intros [= <- _ _]. }
  apply Forall_cons in HR as [Hx HR].
  destruct (merge_loop_cons_cases f rates now x rest tx r n)
    as [(Hn & ->) | [(Hn & Hp & ->) | [(Hn & Hp & msg & Hup & ->)
                                      | (Hn & Hp & tx1 & Hup & ->)]]].
  - by apply IH.
  - by apply IH.
  - discriminate.
  - destruct (merge_loop f rates now rest tx1 _ (n + 1))
      as [out log1] eqn:Hrest. simpl. intros [= -> _].
    eapply IH; [exact HR | | exact Hrest].
    eapply Hstep; [exact HP | exact Hx | exact Hn | exact Hp | exact Hup].
Qed.

Lemma insert_on_duplicate_In (rows : list Country) (new row : Country) :
  In row (insert_on_duplicate rows new) ->
  In row rows
  \/ (Population row = Population new
      /\ CurrencyCode row = CurrencyCode new
      /\ LastRefreshedAt row = LastRefreshedAt new).
Proof.
  induction rows as [| r rows IH]; simpl.
  - intros [<- | []]. by right.
  - destruct (same_key (Name r) (Name new)).
    + intros [<- | Hin]; [by right | left; by right].
    + intros [<- | Hin]; [left; by left |].
      destruct (IH Hin) as [? | ?]; [left; by right | by right].
Qed.

Lemma SaveLastRefreshed_ok (f : Faults) (tx tx' : DB) (t : Time) :
  SaveLastRefreshed f tx t = (None, tx') ->
  countries tx' = countries tx
  /\ exists row,
      last_refreshed_row tx' = Some row
      /\ meta_value row = Some (Format_RFC3339 t)
      /\ updated_at row = Some (DATETIME t).
Proof.
  unfold SaveLastRefreshed, last_refreshed_row.
  destruct (save_err f); [discriminate |].
  destruct (metadata tx) as [rows |]; [| discriminate].
  intros [= <-]. simpl. split; [done |].
  induction rows as [| m rows IH]; simpl.
  - unfold same_key. rewrite String.eqb_refl. eauto.
  - destruct (same_key (meta_key m) "last_refreshed_at") eqn:Hk; simpl.
    + rewrite Hk. eauto.
    + rewrite Hk. exact IH.
Qed.

(** *** Successful runs *)

Lemma Refresh_Ok_inv (w : World) (db : DB) (res : RefreshResult) :
  ret (Refresh w db) = Ok res ->
  exists rc rr tx n log tx',
    countries_api w = Response StatusOK (Some rc)
    /\ rates_api w = Response StatusOK (Some rr)
    /\ faults w = mkFaults None None None (upsert_err (faults w)) None None
    /\ merge_loop (faults w) (Rates rr) (clock_now w) rc
                  (mkDB (Some (rows_of db)) (Some (default [] (metadata db))))
                  (NewSource (clock_seed w)) 0
       = (inr (tx, n), log)
    /\ SaveLastRefreshed (faults w) tx (clock_now w) = (None, tx')
    /\ Refresh w db
       = mkOutcome (Ok (mkRefreshResult n (clock_now w))) tx'
           ([EvEnsureTables; EvBeginTx] ++ log
              ++ [EvSaveLastRefreshed (clock_now w); EvCommit;
                  EvGoGenerateSummaryImage]).
Proof.
  unfold Refresh.
  destruct (fetch (countries_api w) "restcountries") as [e1 | rc] eqn:Hf1;
    [discriminate |].
  destruct (fetch (rates_api w) "exchangerates") as [e2 | rr] eqn:Hf2;
    [discriminate |].
  destruct (fetch_success _ "restcountries" (fetch_inr _ _ _ Hf1))
    as (rc' & Hc & Hc').
  destruct (fetch_success _ "exchangerates" (fetch_inr _ _ _ Hf2))
    as (rr' & Hr & Hr').
  assert (rc' = rc) as -> by congruence.
  assert (rr' = rr) as -> by congruence.
  destruct (EnsureTables (faults w) db) as [[e3 |] db1] eqn:Hens;
    [discriminate |].
  pose proof (EnsureTables_ok _ _ _ Hens) as ->.
  unfold EnsureTables in Hens.
  destruct (faults w) as [fc fm fb fu fs fk] eqn:Hfaults. simpl in *.
  destruct fc; [discriminate |]. destruct fm; [discriminate |].
  destruct fb; [discriminate |].
  destruct (merge_loop _ _ _ _ _ _ _) as [[e4 | [tx n]] log] eqn:Hloop;
    [discriminate |].
  destruct (SaveLastRefreshed _ tx (clock_now w)) as [[e5 |] tx'] eqn:Hsave;
    [discriminate |].
  destruct fk; [discriminate |].
  assert (fs = None) as ->.
  { unfold SaveLastRefreshed in Hsave. simpl in Hsave.
    by destruct fs. }
  intros [= <-]. exists rc, rr, tx, n, log, tx'. done.
Qed.

(** What the upserts of a completed loop leave in the transaction. *)
Lemma UpsertCountry_rows_of (f : Faults) (n : Z) (tx tx1 : DB) (c : Country) :
  UpsertCountry f n tx c = (None, tx1) ->
  rows_of tx1
  = insert_on_duplicate (rows_of tx)
                        (stored_row (AUTO_INCREMENT (rows_of tx)) c)
  /\ metadata tx1 = metadata tx.
Proof.
  intros Hup. apply UpsertCountry_ok in Hup as (rows & Hrows & ->).
  unfold rows_of. rewrite Hrows. done.
Qed.

Lemma merge_loop_apply_upserts (f : Faults) (rates : gmap string float64)
      (now : Time) (rc : list restCountry) :
  forall (tx : DB) (r : rng) (n : Z) (tx' : DB) (n' : Z) (log : list event),
    merge_loop f rates now rc tx r n = (inr (tx', n'), log) ->
    rows_of tx' = apply_upserts (rows_of tx) (upsert_calls log).
Proof.
  induction rc as [| x rest IH]; intros tx r n tx' n' log.
  { simpl. by intros [= <- _ <-]. }
  destruct (merge_loop_cons_cases f rates now x rest tx r n)
    as [(Hn & ->) | [(Hn & Hp & ->) | [(Hn & Hp & msg & Hup & ->)
                                      | (Hn & Hp & tx1 & Hup & ->)]]].
  - apply IH.
  - apply IH.
  - discriminate.
  - destruct (merge_loop f rates now rest tx1 _ (n + 1))
      as [out log1] eqn:Hrest. simpl. intros [= -> <-].
    rewrite (IH _ _ _ _ _ _ Hrest).
    apply UpsertCountry_rows_of in Hup as [-> _]. reflexivity.
Qed.

(** C7.  A successful run reports as count the number of candidate
    records that passed validation, which are exactly the records handed
    to [UpsertCountry] and upserted: the committed table is the former
    table with these records upserted in order.  It reports as timestamp
    the time [now] of the run: the one written on every upserted record
    and into the metadata row that the run commits. *)
Theorem Refresh_success_report (w : World) (db : DB) (res : RefreshResult) :
  ret (Refresh w db) = Ok res ->
  exists rc rr,
    countries_api w = Response StatusOK (Some rc)
    /\ rates_api w = Response StatusOK (Some rr)
    /\ let passed :=
         List.filter passes
           (candidates (Rates rr) (clock_now w) rc
                       (NewSource (clock_seed w))) in
       Total res = Z.of_nat (length passed)
       /\ upsert_calls (calls (Refresh w db)) = passed
       /\ rows_of (store (Refresh w db)) = apply_upserts (rows_of db) passed
       /\ LastRefreshed res = clock_now w
       /\ Forall (fun c => LastRefreshedAt c = Some (LastRefreshed res))
                 passed
       /\ (exists log,
              calls (Refresh w db)
              = log ++ [EvSaveLastRefreshed (LastRefreshed res); EvCommit;
                        EvGoGenerateSummaryImage])
       /\ exists row,
            last_refreshed_row (store (Refresh w db)) = Some row
            /\ meta_value row = Some (Format_RFC3339 (LastRefreshed res))
            /\ updated_at row = Some (DATETIME (LastRefreshed res)).
Proof.
  intros Hok.
  destruct (Refresh_Ok_inv w db res Hok)
    as (rc & rr & tx & n & log & tx' & Hc & Hr & _ & Hloop & Hsave & Heq).
  rewrite Heq in Hok. simpl in Hok. injection Hok as <-.
  exists rc, rr. split; [done |]. split; [done |].
  pose proof (merge_loop_calls (faults w) (Rates rr) (clock_now w) rc
                (mkDB (Some (rows_of db)) (Some (default [] (metadata db))))
                (NewSource (clock_seed w)) 0) as Hcalls.
  pose proof (merge_loop_upserts_pass (faults w) (Rates rr) (clock_now w) rc
                (mkDB (Some (rows_of db)) (Some (default [] (metadata db))))
                (NewSource (clock_seed w)) 0) as Hpass.
  cbv zeta in Hcalls. rewrite Hloop in Hcalls, Hpass.
  destruct Hcalls as [Hlog Hn]. simpl in Hpass.
  assert (Hup : upsert_calls log
                = List.filter passes
                    (candidates (Rates rr) (clock_now w) rc
                                (NewSource (clock_seed w)))).
  { rewrite Hlog, <- (app_nil_r (map _ _)), upsert_calls_map. simpl.
    by rewrite app_nil_r. }
  rewrite Heq. simpl. repeat split.
  - lia.
  - change (EvEnsureTables :: EvBeginTx :: ?l) with
      ([EvEnsureTables; EvBeginTx] ++ l).
    rewrite !upsert_calls_app. simpl. by rewrite app_nil_r.
  - destruct (SaveLastRefreshed_ok _ _ _ _ Hsave) as [Hrows _].
    apply merge_loop_apply_upserts in Hloop. rewrite Hup in Hloop.
    unfold rows_of at 1. rewrite Hrows. exact Hloop.
  - rewrite <- Hup. eapply Forall_impl; [exact Hpass |]. by intros c [_ ?].
  - exists (EvEnsureTables :: EvBeginTx :: log). done.
  - by destruct (SaveLastRefreshed_ok _ _ _ _ Hsave) as [_ ?].
Qed.

(** *** The validation gate *)

Lemma passes_requirements (c : Country) :
  passes c = true -> name_ok c /\ population_ok c /\ currency_ok c.
Proof.
  unfold passes. destruct (Validate c) eqn:Hv; [discriminate |].
  intros _. by apply Validate_errors_empty, Validate_None.
Qed.

Lemma Refresh_upserts_pass (w : World) (db : DB) :
  Forall (fun c => passes c = true) (upsert_calls (calls (Refresh w db))).
Proof.
  unfold Refresh.
  destruct (fetch (countries_api w) "restcountries") as [e1 | rc];
    [by constructor |].
  destruct (fetch (rates_api w) "exchangerates") as [e2 | rr];
    [by constructor |].
  destruct (EnsureTables (faults w) db) as [[e3 |] db1]; [by constructor |].
  destruct (begin_err (faults w)); [by constructor |].
  pose proof (merge_loop_upserts_pass (faults w) (Rates rr) (clock_now w) rc
                db1 (NewSource (clock_seed w)) 0) as Hpass.
  apply (Forall_impl _ (fun c => passes c = true)) in Hpass;
    [| by intros c [? _]].
  destruct (merge_loop _ _ _ _ _ _ _) as [[e4 | [tx n]] log]; simpl in Hpass.
  { exact Hpass. }
  destruct (SaveLastRefreshed _ tx (clock_now w)) as [[e5 |] tx'];
    [| destruct (commit_err (faults w))]; simpl;
    change (EvEnsureTables :: EvBeginTx :: ?l) with
      ([EvEnsureTables; EvBeginTx] ++ l);
    rewrite !upsert_calls_app; simpl; by rewrite app_nil_r.
Qed.

Lemma EnsureTables_rows (f : Faults) (db db1 : DB) (e : option error) :
  EnsureTables f db = (e, db1) -> rows_of db1 = rows_of db.
Proof.
  unfold EnsureTables, rows_of.
  destruct (create_countries_err f); [by intros [= _ <-] |].
  destruct (create_meta_err f); by intros [= _ <-].
Qed.

(** The rows a run leaves are rows it found or rows it wrote from a
    record that passed validation. *)
Lemma Refresh_rows (w : World) (db : DB) (row : Country) :
  In row (rows_of (store (Refresh w db))) ->
  In row (rows_of db) \/ (population_ok row /\ currency_ok row).
Proof.
  unfold Refresh.
  destruct (fetch (countries_api w) "restcountries") as [e1 | rc];
    [by left |].
  destruct (fetch (rates_api w) "exchangerates") as [e2 | rr]; [by left |].
  destruct (EnsureTables (faults w) db) as [e3 db1] eqn:Hdb1.
  apply EnsureTables_rows in Hdb1.
  destruct e3; [simpl; rewrite Hdb1; by left |].
  destruct (begin_err (faults w)); [simpl; rewrite Hdb1; by left |].
  destruct (merge_loop _ _ _ _ _ _ _) as [[e4 | [tx n]] log] eqn:Hloop;
    [simpl; rewrite Hdb1; by left |].
  destruct (SaveLastRefreshed _ tx (clock_now w)) as [[e5 |] tx'] eqn:Hsave;
    [simpl; rewrite Hdb1; by left |].
  destruct (commit_err (faults w)); [simpl; rewrite Hdb1; by left |].
  simpl. apply SaveLastRefreshed_ok in Hsave as [Hrows _].
  unfold rows_of at 1. rewrite Hrows. fold (rows_of tx).
  rewrite <- Hdb1. revert row.
  eapply (merge_loop_invariant
            (fun t => forall row, In row (rows_of t) ->
                      In row (rows_of db1)
                      \/ (population_ok row /\ currency_ok row))
            (fun _ => True));
    [| | | exact Hloop]; [| by apply Forall_true | by left].
  clear. intros tx x r n tx1 HP _ _ Hpass Hup row Hin.
  apply UpsertCountry_ok in Hup as (rows & Hrows & ->).
  unfold rows_of in Hin. simpl in Hin.
  apply insert_on_duplicate_In in Hin as [Hin | (Hpop & Hcur & _)].
  - apply HP. unfold rows_of. by rewrite Hrows.
  - right. apply passes_requirements in Hpass as (_ & Hp & Hc).
    unfold population_ok, currency_ok in *. simpl in *.
    rewrite Hpop, Hcur. done.
Qed.

(** C10.  Every record [Refresh] hands to [UpsertCountry] has a
    non-empty name, a strictly positive population and a present,
    non-empty currency code, and every row a run leaves in the table is a
    row it found or carries such a population and currency code; so a
    record of the zero-fallback branch is never upserted; and [Refresh]
    never returns a [ValidationError]. *)
Theorem Refresh_upserts_only_valid_records (w : World) (db : DB) :
  (forall c, In c (upsert_calls (calls (Refresh w db))) ->
             name_ok c /\ population_ok c /\ currency_ok c)
  /\ (forall row, In row (rows_of (store (Refresh w db))) ->
                  In row (rows_of db)
                  \/ (population_ok row /\ currency_ok row))
  /\ (forall rates now rcountry r,
        first_code rcountry = None ->
        EstimatedGDP (fst (derive rates now rcountry r)) = Some F64.zero
        /\ ~ In (fst (derive rates now rcountry r))
                (upsert_calls (calls (Refresh w db))))
  /\ (forall errs, ret (Refresh w db) <> Err (ValidationError errs)).
Proof.
  assert (Hvalid : forall c, In c (upsert_calls (calls (Refresh w db))) ->
                             name_ok c /\ population_ok c /\ currency_ok c).
  { intros c Hin. apply passes_requirements.
    pose proof (Refresh_upserts_pass w db) as Hall.
    rewrite Forall_forall in Hall. apply Hall. by apply list_elem_of_In. }
  split; [exact Hvalid |]. split; [apply Refresh_rows |]. split.
  - intros rates now rcountry r Hfirst.
    pose proof (derive_cases rates now rcountry r) as Hc. cbv zeta in Hc.
    rewrite Hfirst in Hc. destruct Hc as (Hcode & _ & Hest & _).
    split; [exact Hest |]. intros Hin.
    destruct (Hvalid _ Hin) as (_ & _ & code & Hsome & _). congruence.
  - intros errs Herr. apply Refresh_error_kind in Herr.
    destruct Herr as [[api Heq] | [msg Heq]]; discriminate Heq.
Qed.

(** C3.  In the merging loop a record that fails validation is passed
    over: the loop goes on with the same transaction; [Refresh] never
    returns a [ValidationError]; and when the upsert of a validated
    record fails, [Refresh] returns that driver error after a rollback,
    with the database as [EnsureTables] left it, so without any of the
    upserts made in the transaction. *)
Theorem merge_loop_skip_and_abort :
  (forall (f : Faults) (rates : gmap string float64) (now : Time)
          (rcountry : restCountry) (rest : list restCountry)
          (tx : DB) (r : rng) (n : Z),
      rc_Name rcountry <> "" ->
      Validate (fst (derive rates now rcountry r)) <> None ->
      merge_loop f rates now (rcountry :: rest) tx r n
      = merge_loop f rates now rest tx (snd (derive rates now rcountry r)) n)
  /\ (forall (w : World) (db : DB) (errs : gmap string string),
        ret (Refresh w db) <> Err (ValidationError errs))
  /\ (forall (w : World) (db : DB) (pre post : list restCountry)
             (rcountry : restCountry) (rr : ratesResp) (tx : DB) (n : Z)
             (log : list event) (msg : string),
        let db1 := mkDB (Some (rows_of db)) (Some (default [] (metadata db))) in
        let r := rng_after (Rates rr) (clock_now w) pre
                           (NewSource (clock_seed w)) in
        let c := fst (derive (Rates rr) (clock_now w) rcountry r) in
        countries_api w = Response StatusOK (Some (pre ++ rcountry :: post)) ->
        rates_api w = Response StatusOK (Some rr) ->
        create_countries_err (faults w) = None ->
        create_meta_err (faults w) = None ->
        begin_err (faults w) = None ->
        merge_loop (faults w) (Rates rr) (clock_now w) pre db1
                   (NewSource (clock_seed w)) 0 = (inr (tx, n), log) ->
        rc_Name rcountry <> "" ->
        Validate c = None ->
        upsert_err (faults w) n c = Some msg ->
        Refresh w db
        = mkOutcome (Err (DriverError msg)) db1
            ([EvEnsureTables; EvBeginTx] ++ log
               ++ [EvUpsertCountry c; EvRollback])).
Proof.
  split; [| split].
  - intros f rates now rcountry rest tx r n Hname Hinvalid.
    apply merge_loop_invalid; [exact Hname |].
    unfold passes. by destruct (Validate _).
  - intros w db errs Herr. apply Refresh_error_kind in Herr.
    destruct Herr as [[api Heq] | [msg' Heq]]; discriminate Heq.
  - intros w db pre post rcountry rr tx n log msg db1 r c
           Hc Hr Hcc Hcm Hb Hpre Hname Hvalid Hup.
    unfold Refresh. rewrite Hc, Hr. simpl.
    unfold EnsureTables. rewrite Hcc, Hcm, Hb. simpl.
    fold (rows_of db). fold db1.
    rewrite (merge_loop_app _ _ _ _ _ _ _ _ _ _ _ Hpre). fold r.
    rewrite (merge_loop_upsert_error _ _ _ _ _ tx tx _ _ (DriverError msg));
      [done | exact Hname | |].
    + fold c. unfold passes. by rewrite Hvalid.
    + fold c. unfold UpsertCountry. by rewrite Hup.
Qed.

End Orchestration.

(** ** Listing: filters and ordering *)

(** *** The order of float64 *)

Lemma leb_same_sign_pos (ex ey : Z) (mx my : positive) :
  match
    match ex ?= ey with
    | Eq => Pos.compare_cont Eq mx my
    | Lt => Lt
    | Gt => Gt
    end
  with
  | Gt => false
  | _ => true
  end = true
  <-> ex < ey \/ (ex = ey /\ (mx <= my)%positive).
Proof.
  change (Pos.compare_cont Eq mx my) with (mx ?= my)%positive.
  destruct (Z.compare_spec ex ey), (Pos.compare_spec mx my);
    split; intros; try discriminate; try reflexivity; lia.
Qed.

Lemma leb_same_sign_neg (ex ey : Z) (mx my : positive) :
  match
    match ex ?= ey with
    | Eq => CompOpp (Pos.compare_cont Eq mx my)
    | Lt => Gt
    | Gt => Lt
    end
  with
  | Gt => false
  | _ => true
  end = true
  <-> ey < ex \/ (ex = ey /\ (my <= mx)%positive).
Proof.
  change (Pos.compare_cont Eq mx my) with (mx ?= my)%positive.
  destruct (Z.compare_spec ex ey), (Pos.compare_spec mx my); simpl;
    split; intros; try discriminate; try reflexivity; lia.
Qed.

Lemma F64_leb_trans (x y z : float64) :
  F64.leb x y = true -> F64.leb y z = true -> F64.leb x z = true.
Proof.
  unfold F64.leb, SFleb.
  destruct x as [sx | sx | | sx mx ex], y as [sy | sy | | sy my ey],
    z as [sz | sz | | sz mz ez]; simpl; try done;
    try destruct sx; try destruct sy; try destruct sz; simpl; try done;
    rewrite ?leb_same_sign_pos, ?leb_same_sign_neg; lia.
Qed.

Lemma F64_leb_total (x y : float64) :
  F64.is_nan x = false -> F64.is_nan y = false ->
  F64.leb x y = true \/ F64.leb y x = true.
Proof.
  unfold F64.leb, SFleb.
  destruct x as [sx | sx | | sx mx ex], y as [sy | sy | | sy my ey];
    simpl; try done;
    try destruct sx; try destruct sy; simpl; intros _ _; try tauto;
    rewrite ?leb_same_sign_pos, ?leb_same_sign_neg; lia.
Qed.

Lemma est_leb_trans (a b c : option float64) :
  est_leb a b = true -> est_leb b c = true -> est_leb a c = true.
Proof.
  destruct a, b, c; simpl; try done. apply F64_leb_trans.
Qed.

Lemma before_trans (d : direction) (a b c : Country) :
  before d a b = true -> before d b c = true -> before d a c = true.
Proof.
  destruct d; simpl; intros Hab Hbc; eapply est_leb_trans; eassumption.
Qed.

Lemma before_total (d : direction) (a b : Country) :
  no_nan a -> no_nan b -> before d a b = true \/ before d b a = true.
Proof.
  unfold no_nan, before, est_leb.
  destruct d, (EstimatedGDP a) as [x |], (EstimatedGDP b) as [y |];
    intros Ha Hb; try tauto;
    destruct (F64_leb_total x y Ha Hb); tauto.
Qed.

(** *** The insertion sort of [order_rows] *)

Lemma insert_row_perm (le : Country -> Country -> bool) (x : Country)
      (l : list Country) :
  Permutation (insert_row le x l) (x :: l).
Proof.
  induction l as [| y l IH]; simpl; [done |].
  destruct (le x y); [done |].
  rewrite IH. apply perm_swap.
Qed.

Lemma order_rows_perm (o : option direction) (l : list Country) :
  Permutation (order_rows o l) l.
Proof.
  destruct o as [d |]; simpl; [| done].
  induction l as [| x l IH]; simpl; [done |].
  rewrite insert_row_perm. by constructor.
Qed.

Lemma insert_row_sorted (d : direction) (x : Country) (l : list Country) :
  no_nan x -> Forall no_nan l ->
  Sorted (fun a b => before d a b = true) l ->
  Sorted (fun a b => before d a b = true) (insert_row (before d) x l).
Proof.
  intros Hx Hl Hs. induction Hs as [| y l Hs IH Hhd]; simpl.
  - repeat constructor.
  - apply Forall_cons in Hl as [Hy Hl].
    destruct (before d x y) eqn:Hxy.
    + constructor; [by constructor | by constructor].
    + constructor; [by apply IH |].
      assert (Hyx : before d y x = true).
      { destruct (before_total d x y Hx Hy); congruence. }
      destruct Hhd as [| z l Hyz]; simpl; [by constructor |].
      destruct (before d x z); by constructor.
Qed.

Lemma order_rows_sorted (d : direction) (l : list Country) :
  Forall no_nan l ->
  StronglySorted (fun a b => before d a b = true) (order_rows (Some d) l).
Proof.
  intros Hl. apply Sorted_StronglySorted.
  { intros a b c. apply before_trans. }
  simpl. induction Hl as [| x l Hx Hl IH]; simpl; [constructor |].
  apply insert_row_sorted; [exact Hx | | exact IH].
  change (fold_right (insert_row (before d)) [] l)
    with (order_rows (Some d) l).
  rewrite order_rows_perm. exact Hl.
Qed.

(** *** [GetAll] *)

Section Listing.

Context `{Engine}.

Lemma scan_id (row : Country) : scan row = row.
Proof. destruct row as [? ? [?|] [?|] ? [?|] [?|] [?|] [?|] [?|]]; reflexivity. Qed.

(** The text [GetAll] assembles is the rendering of the statement with
    one condition per provided filter and the ordering of the token. *)
Lemma GetAll_query_text (region currency sort : string) :
  GetAll_query region currency sort
  = (render (mkSelect
               ((if String.eqb region "" then [] else [col_region])
                ++ (if String.eqb currency "" then []
                    else [col_currency_code]))
               (order_of sort)),
     (if String.eqb region "" then [] else [region])
     ++ (if String.eqb currency "" then [] else [currency])).
Proof.
  unfold GetAll_query, order_of.
  destruct (String.eqb region ""), (String.eqb currency ""),
    (String.eqb sort "gdp_desc"), (String.eqb sort "gdp_asc"); reflexivity.
Qed.

Lemma parse_render (s : select) :
  In s statements -> parse (render s) = Some s.
Proof.
  intros Hin. vm_compute in Hin.
  repeat (destruct Hin as [<- | Hin]; [vm_compute; reflexivity |]).
  destruct Hin.
Qed.

Lemma where_holds_selected (region currency : string) (r : Country) :
  where_holds
    ((if String.eqb region "" then [] else [col_region])
     ++ (if String.eqb currency "" then [] else [col_currency_code]))
    ((if String.eqb region "" then [] else [region])
     ++ (if String.eqb currency "" then [] else [currency])) r
  = selected region currency r.
Proof.
  unfold selected, filter_accepts, ci_equal.
  destruct (String.eqb region ""), (String.eqb currency ""); simpl;
    unfold cond_holds, column_value;
    destruct (Region r), (CurrencyCode r); simpl;
    rewrite ?andb_true_r, ?andb_false_r; reflexivity.
Qed.

Lemma GetAll_rows (db : DB) (rows : list Country)
      (region currency sort : string) :
  countries db = Some rows ->
  GetAll None db region currency sort
  = inr (order_rows (order_of sort)
           (List.filter (selected region currency) rows)).
Proof.
  intros Hrows. unfold GetAll. rewrite GetAll_query_text.
  unfold db_Query. rewrite parse_render.
  2:{ unfold order_of.
      destruct (String.eqb region ""), (String.eqb currency ""),
        (String.eqb sort "gdp_desc"), (String.eqb sort "gdp_asc");
        vm_compute; tauto. }
  cbn [sel_where sel_order].
  replace (negb (_ =? _)%nat) with false
    by (destruct (String.eqb region ""), (String.eqb currency "");
        reflexivity).
  rewrite Hrows. f_equal.
  rewrite (map_ext scan id) by apply scan_id. rewrite map_id.
  f_equal. apply filter_ext. intros r. apply where_holds_selected.
Qed.

Lemma order_of_other (sort : string) :
  sort <> "gdp_desc" -> sort <> "gdp_asc" -> order_of sort = None.
Proof.
  intros Hd Ha. unfold order_of.
  apply String.eqb_neq in Hd, Ha. by rewrite Hd, Ha.
Qed.

(** C8.  [GetAll] puts a WHERE clause in its statement exactly when a
    filter is provided; a provided filter accepts the rows whose column
    equals it up to case and no row whose column is NULL, an absent one
    every row; the rows returned are the accepted rows, sorted by
    descending estimate under [gdp_desc], by ascending estimate under
    [gdp_asc], and in table order, as for no token at all, under any
    other token; a stored region "americas" matches "AMERICAS", and
    estimates 10, 30, 20 come back as 30, 20, 10 under [gdp_desc]. *)
Theorem GetAll_filters_and_order (qerr : option string) (db : DB)
        (region currency sort : string) :
  has_where (fst (GetAll_query region currency sort))
  = negb (String.eqb region "" && String.eqb currency "")
  /\ (forall q v, q <> "" -> LOWER v = LOWER q ->
                  filter_accepts q (Some v) = true)
  /\ (forall q v, q <> "" ->
                  (forall a b, collation_key a = collation_key b -> a = b) ->
                  filter_accepts q (Some v) = true -> LOWER v = LOWER q)
  /\ (forall q, q <> "" -> filter_accepts q None = false)
  /\ (forall col, filter_accepts "" col = true)
  /\ (forall rows,
        qerr = None -> countries db = Some rows ->
        exists out,
          GetAll qerr db region currency sort = inr out
          /\ Permutation out (List.filter (selected region currency) rows)
          /\ (sort = "gdp_desc" -> Forall no_nan rows ->
              StronglySorted gdp_desc out)
          /\ (sort = "gdp_asc" -> Forall no_nan rows ->
              StronglySorted gdp_asc out)
          /\ (sort <> "gdp_desc" -> sort <> "gdp_asc" ->
              out = List.filter (selected region currency) rows))
  /\ (sort <> "gdp_desc" -> sort <> "gdp_asc" ->
      GetAll qerr db region currency sort = GetAll qerr db region currency "")
  /\ (LOWER "americas" = LOWER "AMERICAS" ->
      forall row, Region row = Some "americas" ->
                  selected "AMERICAS" "" row = true)
  /\ (forall a b c,
        EstimatedGDP a = Some (F64.of_int 10) ->
        EstimatedGDP b = Some (F64.of_int 30) ->
        EstimatedGDP c = Some (F64.of_int 20) ->
        GetAll None (mkDB (Some [a; b; c]) (metadata db)) "" "" "gdp_desc"
        = inr [b; c; a]).
Proof.
  assert (Hci : forall q v, q <> "" -> LOWER v = LOWER q ->
                            filter_accepts q (Some v) = true).
  { intros q v Hq Heq. unfold filter_accepts, ci_equal, same_key.
    apply String.eqb_neq in Hq. rewrite Hq, Heq. apply String.eqb_refl. }
  split; [| split; [exact Hci | split; [| split; [| split; [| split;
    [| split; [| split]]]]]]].
  - rewrite GetAll_query_text. unfold order_of.
    destruct (String.eqb region ""), (String.eqb currency ""),
      (String.eqb sort "gdp_desc"), (String.eqb sort "gdp_asc");
      vm_compute; reflexivity.
  - intros q v Hq Hinj. unfold filter_accepts, ci_equal, same_key.
    apply String.eqb_neq in Hq. rewrite Hq.
    intros Heq. apply String.eqb_eq in Heq. by apply Hinj.
  - intros q Hq. unfold filter_accepts.
    apply String.eqb_neq in Hq. by rewrite Hq.
  - intros col. reflexivity.
  - intros rows -> Hrows. eexists. split; [by apply GetAll_rows |].
    assert (Hnan : Forall no_nan rows ->
                   Forall no_nan (List.filter (selected region currency) rows)).
    { rewrite !Forall_forall. intros Hall r Hin. apply Hall.
      apply list_elem_of_In. apply list_elem_of_In in Hin.
      by apply filter_In in Hin as [? _]. }
    split; [apply order_rows_perm |]. split; [| split].
    + intros -> Hall. apply (order_rows_sorted DESC). by apply Hnan.
    + intros -> Hall. apply (order_rows_sorted ASC). by apply Hnan.
    + intros Hd Ha. by rewrite order_of_other.
  - intros Hd Ha. unfold GetAll. rewrite !GetAll_query_text.
    by rewrite (order_of_other sort).
  - intros Hlower row Hregion. unfold selected. rewrite Hregion.
    rewrite Hci; [reflexivity | discriminate | exact Hlower].
  - intros a b c Ha Hb Hc. erewrite GetAll_rows by reflexivity.
    f_equal. simpl. unfold before. simpl.
    repeat (rewrite ?Ha, ?Hb, ?Hc; simpl). reflexivity.
Qed.

End Listing.

(** ** Upsert by name *)

Section UpsertByName.

Context {rng : Type} `{Runtime rng} `{Engine}.

Lemma same_key_eq (a b : string) :
  same_key a b = true <-> collation_key a = collation_key b.
Proof. unfold same_key. apply String.eqb_eq. Qed.

Lemma same_key_neq (a b : string) :
  same_key a b = false <-> collation_key a <> collation_key b.
Proof. unfold same_key. apply String.eqb_neq. Qed.

Lemma same_key_refl (a : string) : same_key a a = true.
Proof. by apply same_key_eq. Qed.

(** An upsert under another name leaves the rows of [name] as they
    are. *)
Lemma insert_on_duplicate_other (name : string) (rows : list Country)
      (new : Country) :
  same_key (Name new) name = false ->
  List.filter (named name) (insert_on_duplicate rows new)
  = List.filter (named name) rows.
Proof.
  intros Hother. induction rows as [| r rows IH]; simpl.
  - unfold named. by rewrite Hother.
  - destruct (same_key (Name r) (Name new)) eqn:Hk; simpl.
    + change (named name (update_row r new)) with (named name r).
      assert (Hr : named name r = false).
      { apply same_key_neq. apply same_key_eq in Hk.
        apply same_key_neq in Hother. congruence. }
      by rewrite Hr.
    + by rewrite IH.
Qed.

(** An upsert under [name] updates the row of that name when the table
    has one and adds the row otherwise. *)
Lemma insert_on_duplicate_same (name : string) (rows : list Country)
      (new : Country) :
  unique_names rows ->
  same_key (Name new) name = true ->
  List.filter (named name) (insert_on_duplicate rows new)
  = match List.filter (named name) rows with
    | [] => [new]
    | row :: _ => [update_row row new]
    end.
Proof.
  intros Huniq Hsame. apply same_key_eq in Hsame.
  induction rows as [| r rows IH]; simpl.
  - unfold named. replace (same_key (Name new) name) with true; [done |].
    symmetry. by apply same_key_eq.
  - destruct Huniq as [Hr Huniq].
    destruct (same_key (Name r) (Name new)) eqn:Hk; simpl.
    + apply same_key_eq in Hk.
      assert (Hrn : named name r = true)
        by (apply same_key_eq; congruence).
      change (named name (update_row r new)) with (named name r).
      rewrite Hrn. f_equal. clear IH Huniq.
      induction rows as [| r' rows IH]; simpl; [done |].
      apply Forall_cons in Hr as [Hr' Hr].
      assert (Hr'n : named name r' = false).
      { apply same_key_neq. apply same_key_neq in Hr'. congruence. }
      rewrite Hr'n. by apply IH.
    + assert (Hrn : named name r = false).
      { apply same_key_neq. apply same_key_neq in Hk. congruence. }
      rewrite Hrn. by apply IH.
Qed.

Lemma insert_on_duplicate_names (Q : string -> Prop) (rows : list Country)
      (new : Country) :
  Forall (fun r => Q (Name r)) rows -> Q (Name new) ->
  Forall (fun r => Q (Name r)) (insert_on_duplicate rows new).
Proof.
  intros Hrows Hnew. induction Hrows as [| r rows Hr Hrows IH]; simpl.
  - by repeat constructor.
  - destruct (same_key (Name r) (Name new)); by constructor.
Qed.

Lemma insert_on_duplicate_unique (rows : list Country) (new : Country) :
  unique_names rows -> unique_names (insert_on_duplicate rows new).
Proof.
  induction rows as [| r rows IH]; simpl; intros Huniq.
  - split; [constructor | exact I].
  - destruct Huniq as [Hr Huniq].
    destruct (same_key (Name r) (Name new)) eqn:Hk; simpl.
    + split; assumption.
    + split; [| by apply IH].
      by apply (insert_on_duplicate_names
                  (fun name => same_key (Name r) name = false)).
Qed.

Lemma unique_names_at_most_one (name : string) (rows : list Country) :
  unique_names rows ->
  List.filter (named name) rows = []
  \/ exists row, List.filter (named name) rows = [row].
Proof.
  induction rows as [| r rows IH]; simpl; intros Huniq; [by left |].
  destruct Huniq as [Hr Huniq].
  destruct (named name r) eqn:Hrn; [| by apply IH].
  right. exists r. f_equal. apply same_key_eq in Hrn.
  clear IH Huniq. induction Hr as [| r' rows Hr' Hr IH]; simpl; [done |].
  assert (Hr'n : named name r' = false).
  { apply same_key_neq. apply same_key_neq in Hr'. congruence. }
  by rewrite Hr'n.
Qed.

Lemma UpsertCountry_named (f : Faults) (n : Z) (tx tx1 : DB) (c : Country)
      (name : string) (rows : list Country) :
  UpsertCountry f n tx c = (None, tx1) ->
  countries tx = Some rows -> unique_names rows ->
  exists rows1,
    countries tx1 = Some rows1 /\ unique_names rows1
    /\ List.filter (named name) rows1
       = if same_key (Name c) name then
           match List.filter (named name) rows with
           | [] => [stored_row (AUTO_INCREMENT rows) c]
           | row :: _ => [update_row row (stored_row (AUTO_INCREMENT rows) c)]
           end
         else List.filter (named name) rows.
Proof.
  intros Hup Hrows Huniq.
  apply UpsertCountry_ok in Hup as (rows' & Hrows' & ->).
  assert (rows' = rows) as -> by congruence.
  eexists. split; [reflexivity |].
  split; [by apply insert_on_duplicate_unique |].
  destruct (same_key (Name c) name) eqn:Hk.
  - by apply insert_on_duplicate_same.
  - by apply insert_on_duplicate_other.
Qed.

Lemma merge_loop_app_inr (f : Faults) (rates : gmap string float64)
      (now : Time) (pre suf : list restCountry) :
  forall (tx : DB) (r : rng) (n : Z) (tx' : DB) (n' : Z) (log : list event),
    merge_loop f rates now (pre ++ suf) tx r n = (inr (tx', n'), log) ->
    exists tx1 n1 log1 log2,
      merge_loop f rates now pre tx r n = (inr (tx1, n1), log1)
      /\ merge_loop f rates now suf tx1 (rng_after rates now pre r) n1
         = (inr (tx', n'), log2).
Proof.
  induction pre as [| x rest IH]; intros tx r n tx' n' log Hall.
  { exists tx, n, [], log. done. }
  rewrite rng_after_cons. rewrite <- app_comm_cons in Hall.
  destruct (merge_loop_cons_cases f rates now x (rest ++ suf) tx r n)
    as [(Hn & Heq) | [(Hn & Hp & Heq) | [(Hn & Hp & msg & Hup & Heq)
                                        | (Hn & Hp & tx1 & Hup & Heq)]]];
    rewrite Heq in Hall; case_decide; try contradiction.
  - rewrite merge_loop_nameless by done. by eapply IH.
  - rewrite merge_loop_invalid by done. by eapply IH.
  - discriminate.
  - rewrite (merge_loop_upsert_ok _ _ _ _ _ _ tx1) by done.
    destruct (merge_loop f rates now (rest ++ suf) tx1 _ (n + 1))
      as [out log1] eqn:Hrest.
    simpl in Hall. injection Hall as -> <-.
    destruct (IH _ _ _ _ _ _ Hrest) as (tx2 & n2 & l1 & l2 & Hpre & Hsuf).
    rewrite Hpre. simpl. eauto 10.
Qed.

(** A record with a name, a positive population and a usable currency
    code passes validation whatever the generator draws. *)
Lemma derive_passes (rates : gmap string float64) (now : Time)
      (rcountry : restCountry) (r : rng) :
  rc_Name rcountry <> "" -> 0 < rc_Population rcountry ->
  first_code rcountry <> None ->
  passes (fst (derive rates now rcountry r)) = true.
Proof.
  intros Hname Hpop Hcode. unfold passes.
  replace (Validate _) with (@None error); [done |].
  symmetry. apply Validate_None, Validate_errors_empty.
  pose proof (derive_fixed_fields rates now rcountry r) as (Hn & Hp & _).
  pose proof (derive_cases rates now rcountry r) as Hc.
  cbv zeta in Hn, Hp, Hc.
  unfold name_ok, population_ok, currency_ok. rewrite Hn, Hp.
  split; [done |]. split; [done |].
  destruct (first_code rcountry) as [code |] eqn:Hfirst; [| done].
  exists code. split; [| by eapply first_code_nonempty].
  destruct (rates !! code); tauto.
Qed.

(** One successful run over a list that holds a valid record [rec]
    leaves exactly one row under the name of [rec]: the row that was
    there before, updated, or a new one; when no later record of the
    list has that name, its columns are those derived from [rec]. *)
Lemma Refresh_upsert_one (w : World) (db : DB) (res : RefreshResult)
      (pre post : list restCountry) (rec : restCountry) :
  unique_names (rows_of db) ->
  countries_api w = Response StatusOK (Some (pre ++ rec :: post)) ->
  rc_Name rec <> "" -> 0 < rc_Population rec -> first_code rec <> None ->
  ret (Refresh w db) = Ok res ->
  exists rr row,
    rates_api w = Response StatusOK (Some rr)
    /\ unique_names (rows_of (store (Refresh w db)))
    /\ rows_named (rc_Name rec) (store (Refresh w db)) = [row]
    /\ (forall row0, rows_named (rc_Name rec) db = [row0] ->
                     ID row = ID row0 /\ Name row = Name row0)
    /\ (Forall (fun x => same_key (rc_Name x) (rc_Name rec) = false) post ->
        exists r,
          row = update_row row
                  (stored_row (ID row)
                     (fst (derive (Rates rr) (clock_now w) rec r)))).
Proof.
  intros Huniq Hc Hname Hpop Hcode Hok.
  destruct (Refresh_Ok_inv w db res Hok)
    as (rc & rr & tx & n & log & tx' & Hc' & Hr & _ & Hloop & Hsave & Heq).
  rewrite Hc in Hc'. injection Hc' as <-.
  exists rr. rewrite Heq. simpl. clear Heq Hok.
  apply SaveLastRefreshed_ok in Hsave as [Hrows' _].
  assert (Hro : rows_of tx' = rows_of tx)
    by (unfold rows_of; by rewrite Hrows').
  change (rows_named (rc_Name rec) tx')
    with (List.filter (named (rc_Name rec)) (rows_of tx')).
  rewrite Hro. clear Hro Hrows'.
  set (name := rc_Name rec) in *. set (now := clock_now w) in *.
  set (post_ok := Forall (fun x => same_key (rc_Name x) name = false) post).
  apply merge_loop_app_inr in Hloop as (tx1 & n1 & log1 & log2 & Hpre & Hsuf).
  (* the records before [rec] *)
  set (J := fun t : DB =>
              exists rows,
                countries t = Some rows /\ unique_names rows
                /\ forall row0,
                    rows_named name db = [row0] ->
                    exists row, List.filter (named name) rows = [row]
                                /\ ID row = ID row0 /\ Name row = Name row0).
  assert (HJ : J tx1).
  { eapply (merge_loop_invariant J (fun _ => True));
      [| by apply Forall_true | | exact Hpre].
    - intros t x r n0 t1 (rows & Hrows & Hu & Hrow0) _ _ _ Hup.
      destruct (UpsertCountry_named _ _ _ _ _ name rows Hup Hrows Hu)
        as (rows1 & Hrows1 & Hu1 & Hfilter).
      exists rows1. split; [done |]. split; [done |]. intros row0 Hz.
      destruct (Hrow0 row0 Hz) as (row & Hf & Hid & Hnm).
      rewrite Hf in Hfilter.
      destruct (same_key _ name); eexists; (split; [exact Hfilter |]); done.
    - exists (rows_of db). split; [done |]. split; [done |].
      intros row0 Hz. exists row0. done. }
  destruct HJ as (rows1 & Hrows1 & Hu1 & Hrow0).
  (* the record [rec] *)
  set (r1 := rng_after (Rates rr) now pre (NewSource (clock_seed w))) in *.
  set (c := fst (derive (Rates rr) now rec r1)) in *.
  assert (Hpass : passes c = true) by by apply derive_passes.
  destruct (merge_loop_cons_cases (faults w) (Rates rr) now rec post tx1 r1 n1)
    as [(Hn & _) | [(_ & Hp & _) | [(_ & _ & msg & _ & Heq)
                                   | (_ & _ & tx2 & Hup & Heq)]]];
    [contradiction | fold c in Hp; congruence
     | rewrite Heq in Hsuf; discriminate |].
  rewrite Heq in Hsuf. clear Heq.
  destruct (merge_loop (faults w) (Rates rr) now post tx2 _ (n1 + 1))
    as [out log3] eqn:Hpostloop.
  simpl in Hsuf. injection Hsuf as -> _.
  fold c in Hup.
  destruct (UpsertCountry_named _ _ _ _ _ name rows1 Hup Hrows1 Hu1)
    as (rows2 & Hrows2 & Hu2 & Hfilter).
  assert (Hcname : Name c = name) by apply derive_fixed_fields.
  rewrite Hcname, same_key_refl in Hfilter.
  assert (exists row2,
             List.filter (named name) rows2 = [row2]
             /\ row2 = update_row row2 (stored_row (ID row2) c)
             /\ forall row0, rows_named name db = [row0] ->
                             ID row2 = ID row0 /\ Name row2 = Name row0)
    as (row2 & Hf2 & Hcols & Hsame).
  { destruct (List.filter (named name) rows1) as [| row ?] eqn:Hf1.
    - eexists. split; [exact Hfilter |]. split; [reflexivity |].
      intros row0 Hz. destruct (Hrow0 row0 Hz) as (? & ? & _). discriminate.
    - eexists. split; [exact Hfilter |]. split; [reflexivity |].
      intros row0 Hz. destruct (Hrow0 row0 Hz) as (? & [= <-] & ? & ?).
      done. }
  clear Hfilter Hrow0.
  (* the records after [rec] *)
  set (K := fun t : DB =>
              exists rows,
                countries t = Some rows /\ unique_names rows
                /\ exists row,
                    List.filter (named name) rows = [row]
                    /\ ID row = ID row2 /\ Name row = Name row2
                    /\ (post_ok -> row = row2)).
  assert (HK : K tx).
  { eapply (merge_loop_invariant K
              (fun x => post_ok -> same_key (rc_Name x) name = false));
      [| | | exact Hpostloop].
    - intros t x r n0 t1 (rows & Hrows & Hu & row & Hf & Hid & Hnm & Heq)
             Hx _ _ Hupx.
      destruct (UpsertCountry_named _ _ _ _ _ name rows Hupx Hrows Hu)
        as (rows' & Hrows'' & Hu' & Hfilter).
      exists rows'. split; [done |]. split; [done |].
      rewrite Hf in Hfilter.
      assert (Hxname : Name (fst (derive (Rates rr) now x r)) = rc_Name x)
        by apply derive_fixed_fields.
      rewrite Hxname in Hfilter.
      destruct (same_key (rc_Name x) name) eqn:Hk.
      + eexists. split; [exact Hfilter |]. simpl.
        split; [done |]. split; [done |].
        intros Hok. specialize (Hx Hok). congruence.
      + exists row. done.
    - apply Forall_forall. intros x Hin Hok.
      unfold post_ok in Hok. rewrite Forall_forall in Hok. by apply Hok.
    - exists rows2. split; [done |]. split; [done |]. exists row2. done. }
  destruct HK as (rows3 & Hrows3 & Hu3 & row3 & Hf3 & Hid3 & Hnm3 & Heq3).
  unfold rows_of at 1 2. rewrite Hrows3. simpl. exists row3.
  split; [done |]. split; [done |]. split; [done |]. split.
  - intros row0 Hz. destruct (Hsame row0 Hz). split; congruence.
  - intros Hok. exists r1. by rewrite (Heq3 Hok).
Qed.

(** C9.  Upsert by name.  When the two records of the example carry a
    usable currency code, so that they pass validation, two successful
    runs leave exactly one row under the name: the row of the first run,
    whose id and name the second run keeps and whose other columns it
    overwrites with those derived from the second record, provided no
    later record of the second list has the same name. *)
Theorem Refresh_upsert_by_name (w1 w2 : World) (db : DB)
        (res1 res2 : RefreshResult) (pre1 post1 pre2 post2 : list restCountry)
        (code1 code2 : string) :
  unique_names (rows_of db) ->
  code1 <> "" -> code2 <> "" ->
  countries_api w1
  = Response StatusOK (Some (pre1 ++ wakanda 5 code1 :: post1)) ->
  ret (Refresh w1 db) = Ok res1 ->
  countries_api w2
  = Response StatusOK (Some (pre2 ++ wakanda 9 code2 :: post2)) ->
  Forall (fun x => same_key (rc_Name x) "Wakanda" = false) post2 ->
  ret (Refresh w2 (store (Refresh w1 db))) = Ok res2 ->
  exists row1 row2 rr2,
    rows_named "Wakanda" (store (Refresh w1 db)) = [row1]
    /\ rates_api w2 = Response StatusOK (Some rr2)
    /\ rows_named "Wakanda" (store (Refresh w2 (store (Refresh w1 db))))
       = [row2]
    /\ ID row2 = ID row1 /\ Name row2 = Name row1
    /\ Population row2 = 9
    /\ Capital row2 = None /\ Region row2 = None /\ FlagURL row2 = None
    /\ CurrencyCode row2 = Some code2
    /\ ExchangeRate row2 = Rates rr2 !! code2
    /\ LastRefreshedAt row2 = Some (DATETIME (clock_now w2))
    /\ exists r,
        EstimatedGDP row2
        = EstimatedGDP
            (fst (derive (Rates rr2) (clock_now w2) (wakanda 9 code2) r)).
Proof.
  intros Huniq Hcode1 Hcode2 Hc1 Hok1 Hc2 Hpost2 Hok2.
  assert (Hfirst : forall p code, code <> "" ->
                                  first_code (wakanda p code) = Some code).
  { intros p code Hne. unfold first_code, wakanda, nonempty. simpl.
    apply String.eqb_neq in Hne. by rewrite Hne. }
  destruct (Refresh_upsert_one w1 db res1 pre1 post1 (wakanda 5 code1))
    as (rr1 & row1 & _ & Hu1 & Hrow1 & _ & _);
    try done; try (simpl; lia); [by rewrite Hfirst |].
  destruct (Refresh_upsert_one w2 (store (Refresh w1 db)) res2 pre2 post2
                               (wakanda 9 code2))
    as (rr2 & row2 & Hr2 & _ & Hrow2 & Hkeep & Hcols);
    try done; try (simpl; lia); [by rewrite Hfirst |].
  simpl in Hrow1, Hrow2, Hkeep, Hcols.
  destruct (Hkeep row1 Hrow1) as [Hid Hnm].
  destruct (Hcols Hpost2) as (r & Hrow).
  exists row1, row2, rr2.
  pose proof (derive_fixed_fields (Rates rr2) (clock_now w2)
                (wakanda 9 code2) r) as (_ & Hp & Hcap & Hreg & Hflag & Hlast).
  pose proof (derive_cases (Rates rr2) (clock_now w2) (wakanda 9 code2) r)
    as Hcase.
  cbv zeta in Hp, Hcap, Hreg, Hflag, Hlast, Hcase.
  rewrite (Hfirst 9 code2 Hcode2) in Hcase.
  set (c := fst (derive (Rates rr2) (clock_now w2) (wakanda 9 code2) r)) in *.
  assert (Hcur : CurrencyCode c = Some code2
                 /\ ExchangeRate c = Rates rr2 !! code2).
  { destruct (Rates rr2 !! code2); tauto. }
  destruct Hcur as [Hcur Hrate].
  simpl in Hp, Hcap, Hreg, Hflag.
  assert (Hfields :
            Population row2 = Population c /\ Capital row2 = Capital c
            /\ Region row2 = Region c /\ FlagURL row2 = FlagURL c
            /\ CurrencyCode row2 = CurrencyCode c
            /\ ExchangeRate row2 = ExchangeRate c
            /\ LastRefreshedAt row2 = DATETIME <$> LastRefreshedAt c
            /\ EstimatedGDP row2 = EstimatedGDP c)
    by (rewrite Hrow; simpl; repeat split; reflexivity).
  destruct Hfields as (-> & -> & -> & -> & -> & -> & -> & ->).
  rewrite Hlast. simpl.
  repeat (split; [assumption || reflexivity |]).
  by exists r.
Qed.

End UpsertByName.

(** ** The statements on the runs of [Demo] *)

Module Runs.

Import Demo.

(** A record with an empty name, population 0 and no currency violates
    all three requirements. *)
Lemma Validate_requirements_witness :
  exists errs,
    Validate (mkCountry 0 "" None None 0 None None None None None)
    = Some (ValidationError errs)
    /\ errs !! "name" = Some "is required"
    /\ errs !! "population" = Some "must be positive"
    /\ errs !! "currency_code" = Some "is required"
    /\ errs !! "capital" = None.
Proof.
  destruct (Validate_requirements
              (mkCountry 0 "" None None 0 None None None None None))
    as [_ Hsome].
  destruct (Hsome _ eq_refl) as (errs & Heq & Hmap).
  exists errs. split; [rewrite <- Heq; reflexivity |].
  assert (Hcur : ~ currency_ok
                   (mkCountry 0 "" None None 0 None None None None None))
    by (intros (code & Hc & _); discriminate Hc).
  repeat split.
  - apply Hmap. left. repeat split. intros Hn. by apply Hn.
  - apply Hmap. right. left. repeat split. unfold population_ok. simpl. lia.
  - apply Hmap. right. right. repeat split. exact Hcur.
  - destruct (errs !! "capital") as [reason |] eqn:Hl; [| reflexivity].
    apply Hmap in Hl. destruct Hl as [[Hk _] | [[Hk _] | [Hk _]]];
      discriminate Hk.
Defined.

(** The three branches on the records of [Demo]; the generator state 500
    draws the multiplier 1500. *)
Lemma derive_three_way_policy_witness :
  let derived rec := fst (derive usd_rates 100 rec 500) in
  (CurrencyCode (derived rec_none) = None
   /\ ExchangeRate (derived rec_none) = None
   /\ EstimatedGDP (derived rec_none) = Some F64.zero)
  /\ (CurrencyCode (derived rec_xyz) = Some "XYZ"
      /\ ExchangeRate (derived rec_xyz) = None
      /\ EstimatedGDP (derived rec_xyz) = None)
  /\ (CurrencyCode (derived rec_usd) = Some "USD"
      /\ ExchangeRate (derived rec_usd) = Some (F64.of_int 2)
      /\ EstimatedGDP (derived rec_usd)
         = Some (estimate 1000000 1500 (F64.of_int 2))).
Proof.
  intros derived. split; [| split].
  - exact (proj1 (derive_three_way_policy usd_rates 100 rec_none 500)
                 eq_refl).
  - exact (proj1 (proj2 (derive_three_way_policy usd_rates 100 rec_xyz 500))
                 "XYZ" eq_refl eq_refl).
  - exact (proj2 (proj2 (derive_three_way_policy usd_rates 100 rec_usd 500))
                 "USD" (F64.of_int 2) eq_refl eq_refl).
Defined.

Lemma derive_estimate_needs_currency_witness :
  (exists code rate,
      CurrencyCode (fst (derive usd_rates 100 rec_usd 500)) = Some code
      /\ usd_rates !! code = Some rate)
  /\ EstimatedGDP (fst (derive usd_rates 100 rec_none 500)) = Some F64.zero.
Proof.
  split.
  - destruct (proj1 (derive_estimate_needs_currency usd_rates 100 rec_usd 500)
                    (F64.of_int 750000000))
      as (code & rate & Hcode & Hrate & _).
    + vm_compute. reflexivity.
    + intros Hzero. discriminate Hzero.
    + exists code, rate. split; assumption.
  - exact (proj2 (derive_estimate_needs_currency usd_rates 100 rec_none 500)
                 eq_refl).
Defined.

Lemma estimate_formula_witness :
  EstimatedGDP (fst (derive usd_rates 100 rec_usd 500))
  = Some (F64.of_int 750000000)
  /\ multiplier 500 = 1500.
Proof.
  destruct (estimate_formula usd_rates 100 rec_usd 500 "USD" (F64.of_int 2)
                             eq_refl eq_refl)
    as (Hest & _).
  - vm_compute. split; [discriminate | reflexivity].
  - split; [| reflexivity]. rewrite Hest. vm_compute. reflexivity.
Defined.

Lemma Refresh_source_unavailable_witness :
  exists api,
    Refresh w_rates_down empty_db
    = mkOutcome (Err (ExternalError api)) empty_db []
    /\ (fetch_fails (countries_api w_rates_down) -> api = "restcountries")
    /\ (~ fetch_fails (countries_api w_rates_down) -> api = "exchangerates").
Proof.
  apply (Refresh_source_unavailable w_rates_down empty_db).
  right. simpl. exact I.
Defined.

(** Of the five records of [w_mixed] two pass validation, and both are
    in the table afterwards. *)
Lemma Refresh_success_report_witness :
  ret (Refresh w_mixed empty_db) = Ok (mkRefreshResult 2 100)
  /\ upsert_calls (calls (Refresh w_mixed empty_db))
     = [fst (derive usd_rates 100 rec_usd 500);
        fst (derive usd_rates 100 rec_xyz 514)]
  /\ rows_of (store (Refresh w_mixed empty_db))
     = [stored_row 1 (fst (derive usd_rates 100 rec_usd 500));
        stored_row 2 (fst (derive usd_rates 100 rec_xyz 514))]
  /\ exists row,
      last_refreshed_row (store (Refresh w_mixed empty_db)) = Some row
      /\ meta_value row = Some "1970-01-01T00:01:40Z".
Proof.
  assert (Hok : ret (Refresh w_mixed empty_db) = Ok (mkRefreshResult 2 100))
    by (vm_compute; reflexivity).
  destruct (Refresh_success_report w_mixed empty_db _ Hok)
    as (rc & rr & Hc & Hr & _ & Hcalls & Hrows & _ & _ & _ & row & Hrow & Hval
        & _).
  split; [exact Hok |]. split; [| split].
  - vm_compute. reflexivity.
  - rewrite Hrows, <- Hcalls. vm_compute. reflexivity.
  - exists row. split; [exact Hrow |]. rewrite Hval. vm_compute. reflexivity.
Defined.

Lemma Refresh_upserts_only_valid_records_witness :
  (forall c,
      In c (upsert_calls (calls (Refresh w_mixed empty_db))) ->
      name_ok c /\ population_ok c /\ currency_ok c)
  /\ ~ In (fst (derive usd_rates 100 rec_none 500))
          (upsert_calls (calls (Refresh w_mixed empty_db))).
Proof.
  pose proof (Refresh_upserts_only_valid_records w_mixed empty_db)
    as (Hvalid & _ & Hzero & _).
  split; [exact Hvalid |].
  exact (proj2 (Hzero usd_rates 100 rec_none 500 eq_refl)).
Defined.

(** The first record is upserted in the transaction, the second fails
    validation, the upsert of the third is rejected: the run fails and
    the table stays empty. *)
Lemma merge_loop_skip_and_abort_witness :
  (merge_loop no_faults usd_rates 100 [rec_empty; rec_eur]
              (mkDB (Some []) (Some [])) 500 0
   = merge_loop no_faults usd_rates 100 [rec_eur]
                (mkDB (Some []) (Some [])) 507 0)
  /\ countries (store (Refresh w_second_fails empty_db)) = Some []
  /\ ret (Refresh w_second_fails empty_db)
     = Err (DriverError "Lock wait timeout exceeded")
  /\ upsert_calls (calls (Refresh w_second_fails empty_db))
     = [fst (derive usd_rates 100 rec_usd 500);
        fst (derive usd_rates 100 rec_eur 514)].
Proof.
  pose proof merge_loop_skip_and_abort as (Hskip & _ & Habort).
  split.
  - apply (Hskip no_faults usd_rates 100 rec_empty [rec_eur]
                 (mkDB (Some []) (Some [])) 500 0).
    + discriminate.
    + vm_compute. discriminate.
  - rewrite (Habort w_second_fails empty_db [rec_usd; rec_empty] [rec_xyz]
               rec_eur (mkRatesResp "success" usd_rates)
               (mkDB (Some [stored_row 1
                              (fst (derive usd_rates 100 rec_usd 500))])
                     (Some []))
               1
               [EvUpsertCountry (fst (derive usd_rates 100 rec_usd 500))]
               "Lock wait timeout exceeded").
    + repeat split.
    + reflexivity.
    + reflexivity.
    + reflexivity.
    + reflexivity.
    + reflexivity.
    + vm_compute. reflexivity.
    + discriminate.
    + vm_compute. reflexivity.
    + reflexivity.
Defined.

(** Regions are stored in lower case and asked for in upper case; the
    three rows of the region come back by descending estimate. *)
Lemma GetAll_filters_and_order_witness :
  GetAll None db_listing "AMERICAS" "" "gdp_desc"
  = inr [listed 3 "Thirty" "americas" 30; listed 4 "Twenty" "americas" 20;
         listed 1 "Ten" "americas" 10]
  /\ StronglySorted gdp_desc
       [listed 3 "Thirty" "americas" 30; listed 4 "Twenty" "americas" 20;
        listed 1 "Ten" "americas" 10]
  /\ selected "AMERICAS" "" (listed 1 "Ten" "americas" 10) = true
  /\ GetAll None db_listing "" "" "by_name" = GetAll None db_listing "" "" ""
  /\ has_where (fst (GetAll_query "" "" "gdp_desc")) = false.
Proof.
  pose proof (GetAll_filters_and_order None db_listing "AMERICAS" ""
                                       "gdp_desc")
    as (_ & _ & _ & _ & _ & Hrows & _ & Hregion & _).
  pose proof (GetAll_filters_and_order None db_listing "" "" "by_name")
    as (_ & _ & _ & _ & _ & _ & Hother & _).
  assert (Hget : GetAll None db_listing "AMERICAS" "" "gdp_desc"
                 = inr [listed 3 "Thirty" "americas" 30;
                        listed 4 "Twenty" "americas" 20;
                        listed 1 "Ten" "americas" 10])
    by (vm_compute; reflexivity).
  split; [exact Hget |]. split; [| split; [| split]].
  - destruct (Hrows _ eq_refl eq_refl) as (out & Hout & _ & Hdesc & _).
    rewrite Hget in Hout. injection Hout as <-.
    apply Hdesc; [reflexivity |]. repeat constructor.
  - apply Hregion; reflexivity.
  - apply Hother; discriminate.
  - vm_compute. reflexivity.
Defined.

(** The record of the upsert example with a name and a population only:
    it fails validation in both runs, both runs succeed with a count of
    0, and no row is stored under its name. *)
Lemma bare_wakanda_is_never_stored :
  ret (Refresh (w_bare 5 100) empty_db) = Ok (mkRefreshResult 0 100)
  /\ ret (Refresh (w_bare 9 200) (store (Refresh (w_bare 5 100) empty_db)))
     = Ok (mkRefreshResult 0 200)
  /\ rows_of (store (Refresh (w_bare 9 200)
                             (store (Refresh (w_bare 5 100) empty_db))))
     = []
  /\ ~ exists row,
        rows_named "Wakanda"
                   (store (Refresh (w_bare 9 200)
                                   (store (Refresh (w_bare 5 100) empty_db))))
        = [row]
        /\ Population row = 9.
Proof.
  split; [vm_compute; reflexivity |].
  split; [vm_compute; reflexivity |].
  split; [vm_compute; reflexivity |].
  intros (row & Hrow & _). vm_compute in Hrow. discriminate Hrow.
Defined.

Lemma Refresh_upsert_by_name_witness :
  exists row1 row2,
    rows_named "Wakanda" (store (Refresh (w_usd 5 100) empty_db)) = [row1]
    /\ rows_named "Wakanda"
                  (store (Refresh (w_usd 9 200)
                                  (store (Refresh (w_usd 5 100) empty_db))))
       = [row2]
    /\ ID row2 = ID row1 /\ Population row2 = 9
    /\ CurrencyCode row2 = Some "USD"
    /\ LastRefreshedAt row2 = Some 200.
Proof.
  destruct (Refresh_upsert_by_name
              (w_usd 5 100) (w_usd 9 200) empty_db
              (mkRefreshResult 1 100) (mkRefreshResult 1 200)
              [] [] [] [] "USD" "USD")
    as (row1 & row2 & rr2 & H1 & _ & H2 & Hid & _ & Hpop & _ & _ & _ & Hcur
        & _ & Hlast & _).
  - exact I.
  - discriminate.
  - discriminate.
  - reflexivity.
  - vm_compute. reflexivity.
  - reflexivity.
  - constructor.
  - vm_compute. reflexivity.
  - exists row1, row2. repeat split; assumption.
Defined.

End Runs.

(** ** The repository accessors *)

Section RepositoryFacts.

Context `{Engine} `{TimeParser}.

Lemma find_none_iff {A : Type} (f : A -> bool) (l : list A) :
  List.find f l = None <-> Forall (fun x => f x = false) l.
Proof.
  induction l as [| x l IH]; simpl.
  - split; [constructor | done].
  - destruct (f x) eqn:Hx.
    + split; [discriminate |]. intros Hall.
      apply Forall_cons in Hall as [Hfx _]. congruence.
    + rewrite IH. split; [by constructor |].
      intros Hall. by apply Forall_cons in Hall as [_ ?].
Qed.

Lemma find_pointwise {A : Type} (f g : A -> bool) (l : list A) :
  (forall x, f x = g x) -> List.find f l = List.find g l.
Proof.
  intros Hfg. induction l as [| x l IH]; simpl; [done |].
  by rewrite Hfg, IH.
Qed.

Lemma name_matches_lower (name other : string) (r : Country) :
  LOWER other = LOWER name -> name_matches other r = name_matches name r.
Proof. unfold name_matches. by intros ->. Qed.

(** [GetByName] on an existing table: [ErrNotFound] exactly when no
    stored name equals the requested one up to case; otherwise a stored
    row whose name does; and two requests that differ by case only get
    the same answer. *)
Theorem GetByName_lookup (db : DB) (rows : list Country) (name : string) :
  countries db = Some rows ->
  (GetByName None db name = inl ErrNotFound
   <-> Forall (fun r => name_matches name r = false) rows)
  /\ (forall c, GetByName None db name = inr c ->
                In c rows /\ name_matches name c = true)
  /\ (forall err, GetByName None db name <> inl (LookupFailed err))
  /\ (forall other, LOWER other = LOWER name ->
                    GetByName None db other = GetByName None db name).
Proof.
  intros Hrows. unfold GetByName. rewrite Hrows.
  split; [| split; [| split]].
  - rewrite <- find_none_iff.
    destruct (List.find (name_matches name) rows); split; congruence.
  - intros c. destruct (List.find (name_matches name) rows) as [row |] eqn:Hf;
      [| discriminate].
    rewrite scan_id. intros [= <-]. by apply find_some in Hf.
  - intros err. by destruct (List.find (name_matches name) rows).
  - intros other Hlower.
    rewrite (find_pointwise (name_matches other) (name_matches name));
      [done |].
    intros r. by apply name_matches_lower.
Qed.


Lemma filter_matches_length (name : string) (rows : list Country) :
  (length rows
   = length (List.filter (fun r => negb (name_matches name r)) rows)
     + length (List.filter (name_matches name) rows))%nat.
Proof.
  induction rows as [| r rows IH]; simpl; [done |].
  destruct (name_matches name r); simpl; lia.
Qed.

(** One [DeleteByName] without driver error, and what follows it. *)
Lemma DeleteByName_outcome (db : DB) (rows : list Country) (name : string) :
  countries db = Some rows ->
  exists removed db',
    DeleteByName None None db name = (inr removed, db')
    /\ countries db'
       = Some (List.filter (fun r => negb (name_matches name r)) rows)
    /\ metadata db' = metadata db
    /\ (removed = true <-> Exists (fun r => name_matches name r = true) rows)
    /\ GetByName None db' name = inl ErrNotFound
    /\ DeleteByName None None db' name = (inr false, db').
Proof.
  intros Hrows.
  set (kept := List.filter (fun r => negb (name_matches name r)) rows).
  assert (Hkept : Forall (fun r => name_matches name r = false) kept).
  { apply Forall_forall. intros r Hin. apply list_elem_of_In in Hin.
    apply filter_In in Hin as [_ Hneg]. by apply negb_true_iff. }
  assert (Hagain : List.filter (fun r => negb (name_matches name r)) kept
                   = kept).
  { clear -Hkept. induction Hkept as [| r l Hr Hl IH]; simpl; [done |].
    rewrite Hr. simpl. by rewrite IH. }
  pose proof (filter_matches_length name rows) as Hsplit. fold kept in Hsplit.
  eexists _, (mkDB (Some kept) (metadata db)).
  unfold DeleteByName at 1. rewrite Hrows. fold kept.
  split; [reflexivity |]. split; [done |]. split; [done |].
  split; [| split].
  - rewrite Z.ltb_lt, Exists_exists. split.
    + intros Hlt.
      destruct (List.filter (name_matches name) rows) as [| r ?] eqn:Hf;
        [simpl in Hsplit; lia |].
      assert (Hin : In r (List.filter (name_matches name) rows))
        by (rewrite Hf; by left).
      apply filter_In in Hin as [Hin Hr].
      exists r. split; [by apply list_elem_of_In | done].
    + intros (r & Hin & Hr).
      assert (In r (List.filter (name_matches name) rows))
        by (apply filter_In; split; [by apply list_elem_of_In | done]).
      destruct (List.filter (name_matches name) rows); [done |].
      simpl in Hsplit. lia.
  - unfold GetByName. simpl.
    by apply find_none_iff in Hkept as ->.
  - unfold DeleteByName. simpl. rewrite Hagain.
    by rewrite Z.sub_diag.
Qed.

(** [DeleteByName] on an existing table removes every row whose name
    equals the requested one up to case and no other row, leaves the
    metadata alone, reports whether a row was removed, and makes the
    name unknown to [GetByName] and to a second [DeleteByName]; the
    count drops by the number of rows removed. *)
Theorem DeleteByName_removes (db : DB) (rows : list Country) (name : string) :
  countries db = Some rows ->
  exists removed db',
    DeleteByName None None db name = (inr removed, db')
    /\ countries db'
       = Some (List.filter (fun r => negb (name_matches name r)) rows)
    /\ metadata db' = metadata db
    /\ (removed = true <-> Exists (fun r => name_matches name r = true) rows)
    /\ GetByName None db' name = inl ErrNotFound
    /\ DeleteByName None None db' name = (inr false, db')
    /\ TotalCount None db'
       = inr (Z.of_nat (length rows)
              - Z.of_nat (length (List.filter (name_matches name) rows))).
Proof.
  intros Hrows.
  destruct (DeleteByName_outcome db rows name Hrows)
    as (removed & db' & Hdel & Hkept & Hmeta & Hremoved & Hget & Hagain).
  exists removed, db'.
  split; [exact Hdel |]. split; [exact Hkept |]. split; [exact Hmeta |].
  split; [exact Hremoved |]. split; [exact Hget |]. split; [exact Hagain |].
  unfold TotalCount. rewrite Hkept. f_equal.
  pose proof (filter_matches_length name rows). lia.
Qed.

(** [GetLastRefreshed] on an existing metadata table never fails: it
    answers nil when there is no row, when the value is NULL or empty
    and when it does not parse, and the parsed time otherwise. *)
Theorem GetLastRefreshed_tolerant (db : DB) (rows : list metaRow) :
  metadata db = Some rows ->
  exists last,
    GetLastRefreshed None db = inr last
    /\ (last_refreshed_row db = None -> last = None)
    /\ (forall m, last_refreshed_row db = Some m ->
                  (meta_value m = None \/ meta_value m = Some "" ->
                   last = None)
                  /\ (forall s, meta_value m = Some s -> s <> "" ->
                                last = Parse_RFC3339 s)).
Proof.
  intros Hrows. unfold GetLastRefreshed, last_refreshed_row.
  rewrite Hrows. simpl.
  destruct (List.find _ rows) as [m |].
  - destruct (meta_value m) as [s |] eqn:Hv; simpl.
    + destruct (String.eqb_spec s "") as [-> | Hne]; simpl.
      * exists None. split; [done |]. split; [discriminate |].
        intros m' [= <-]. rewrite Hv. split; [done |].
        intros s' [= <-] Hs. done.
      * exists (Parse_RFC3339 s).
        split; [by destruct (Parse_RFC3339 s) |]. split; [discriminate |].
        intros m' [= <-]. rewrite Hv. split.
        -- intros [? | [= ->]]; done.
        -- by intros s' [= <-] _.
    + exists None. split; [done |]. split; [discriminate |].
      intros m' [= <-]. rewrite Hv. split; [done | discriminate].
  - exists None. split; [done |]. split; [done | discriminate].
Qed.

End RepositoryFacts.

(** ** [Refresh] as a whole: all or nothing, and what a run leaves alone *)

Section RefreshFacts.

Context {rng : Type} `{Runtime rng} `{Engine}.

Lemma EnsureTables_metadata (f : Faults) (db db1 : DB) (e : option error) :
  EnsureTables f db = (e, db1) ->
  default [] (metadata db1) = default [] (metadata db).
Proof.
  unfold EnsureTables.
  destruct (create_countries_err f); [by intros [= _ <-] |].
  destruct (create_meta_err f); by intros [= _ <-].
Qed.

Lemma merge_loop_log_events (f : Faults) (rates : gmap string float64)
      (now : Time) (rc : list restCountry) (tx : DB) (r : rng) (n : Z)
      (ev : event) :
  In ev (snd (merge_loop f rates now rc tx r n)) ->
  ev = EvRollback \/ exists c, ev = EvUpsertCountry c.
Proof.
  pose proof (merge_loop_calls f rates now rc tx r n) as Hc. cbv zeta in Hc.
  destruct (merge_loop f rates now rc tx r n) as [[e | [tx' n']] log]; simpl.
  - destruct Hc as (msg & sent & _ & -> & _). intros Hin.
    apply in_app_or in Hin as [Hin | [<- | []]]; [| by left].
    apply in_map_iff in Hin as (c & <- & _). right. eauto.
  - destruct Hc as [-> _]. intros Hin.
    apply in_map_iff in Hin as (c & <- & _). right. eauto.
Qed.

(** A run that returns an error leaves the rows of both tables as they
    were. *)
Lemma Refresh_error_rows (w : World) (db : DB) :
  match ret (Refresh w db) with
  | Err _ =>
      rows_of (store (Refresh w db)) = rows_of db
      /\ default [] (metadata (store (Refresh w db)))
         = default [] (metadata db)
  | Ok _ => True
  end.
Proof.
  unfold Refresh.
  destruct (fetch (countries_api w) "restcountries") as [e1 | rc];
    [by simpl |].
  destruct (fetch (rates_api w) "exchangerates") as [e2 | rr];
    [by simpl |].
  destruct (EnsureTables (faults w) db) as [e3 db1] eqn:Hens.
  pose proof (EnsureTables_rows _ _ _ _ Hens) as Hrows.
  pose proof (EnsureTables_metadata _ _ _ _ Hens) as Hmeta.
  destruct e3 as [e3 |]; [by simpl |].
  destruct (begin_err (faults w)) as [msg |]; [by simpl |].
  destruct (merge_loop _ _ _ _ _ _ _) as [[e4 | [tx n]] log]; [by simpl |].
  destruct (SaveLastRefreshed (faults w) tx (clock_now w)) as [[e5 |] tx'];
    [by simpl |].
  destruct (commit_err (faults w)) as [msg |]; by simpl.
Qed.

(** All or nothing.  A run that returns an error, whichever step failed
    (fetch, schema, begin, upsert, metadata, commit), leaves the rows of
    both tables as they were and does not start the summary task; a run
    that succeeds commits and then starts it. *)
Theorem Refresh_all_or_nothing (w : World) (db : DB) :
  match ret (Refresh w db) with
  | Err _ =>
      rows_of (store (Refresh w db)) = rows_of db
      /\ default [] (metadata (store (Refresh w db)))
         = default [] (metadata db)
      /\ ~ In EvGoGenerateSummaryImage (calls (Refresh w db))
  | Ok _ =>
      exists log,
        calls (Refresh w db) = log ++ [EvCommit; EvGoGenerateSummaryImage]
        /\ ~ In EvRollback log
  end.
Proof.
  unfold Refresh.
  destruct (fetch (countries_api w) "restcountries") as [e1 | rc];
    [simpl; tauto |].
  destruct (fetch (rates_api w) "exchangerates") as [e2 | rr];
    [simpl; tauto |].
  destruct (EnsureTables (faults w) db) as [e3 db1] eqn:Hens.
  pose proof (EnsureTables_rows _ _ _ _ Hens) as Hrows.
  pose proof (EnsureTables_metadata _ _ _ _ Hens) as Hmeta.
  destruct e3 as [e3 |].
  { simpl. split; [done |]. split; [done |].
    intros [Hin | []]. discriminate. }
  destruct (begin_err (faults w)) as [msg |].
  { simpl. split; [done |]. split; [done |].
    intros [Hin | [Hin | []]]; discriminate. }
  pose proof (merge_loop_log_events (faults w) (Rates rr) (clock_now w) rc
                db1 (NewSource (clock_seed w)) 0) as Hlog.
  pose proof (merge_loop_calls (faults w) (Rates rr) (clock_now w) rc
                db1 (NewSource (clock_seed w)) 0) as Hcalls.
  cbv zeta in Hcalls.
  destruct (merge_loop _ _ _ _ _ _ _) as [[e4 | [tx n]] log]; simpl in Hlog.
  { simpl. split; [done |]. split; [done |].
    intros [Hin | [Hin | Hin]]; try discriminate.
    destruct (Hlog _ Hin) as [? | [c ?]]; discriminate. }
  assert (Hnolog : forall ev, In ev log -> exists c, ev = EvUpsertCountry c).
  { destruct Hcalls as [-> _]. intros ev Hin.
    apply in_map_iff in Hin as (c & <- & _). eauto. }
  destruct (SaveLastRefreshed (faults w) tx (clock_now w)) as [[e5 |] tx'].
  { simpl. split; [done |]. split; [done |].
    intros [Hin | [Hin | Hin]]; try discriminate.
    apply in_app_or in Hin as [Hin | [Hin | [Hin | []]]]; try discriminate.
    destruct (Hnolog _ Hin) as [c ?]; discriminate. }
  destruct (commit_err (faults w)) as [msg |].
  { simpl. split; [done |]. split; [done |].
    intros [Hin | [Hin | Hin]]; try discriminate.
    apply in_app_or in Hin as [Hin | [Hin | [Hin | [Hin | []]]]];
      try discriminate.
    destruct (Hnolog _ Hin) as [c ?]; discriminate. }
  simpl.
  exists ([EvEnsureTables; EvBeginTx] ++ log
          ++ [EvSaveLastRefreshed (clock_now w)]).
  split.
  - simpl. do 2 f_equal. by rewrite <- app_assoc.
  - intros Hin. simpl in Hin.
    destruct Hin as [Hin | [Hin | Hin]]; try discriminate.
    apply in_app_or in Hin as [Hin | [Hin | []]]; try discriminate.
    destruct (Hnolog _ Hin) as [c ?]; discriminate.
Qed.

(** *** Rows a run does not name *)


Lemma merge_loop_frame (name : string) (f : Faults)
      (rates : gmap string float64) (now : Time) (rc : list restCountry) :
  forall (tx : DB) (r : rng) (n : Z) (tx' : DB) (n' : Z) (log : list event),
    merge_loop f rates now rc tx r n = (inr (tx', n'), log) ->
    Forall (fun c => same_key (Name c) name = false) (upsert_calls log) ->
    List.filter (named name) (rows_of tx')
    = List.filter (named name) (rows_of tx).
Proof.
  induction rc as [| x rest IH]; intros tx r n tx' n' log.
  { simpl. by intros [= <- _ _]. }
  destruct (merge_loop_cons_cases f rates now x rest tx r n)
    as [(Hn & ->) | [(Hn & Hp & ->) | [(Hn & Hp & msg & Hup & ->)
                                      | (Hn & Hp & tx1 & Hup & ->)]]].
  - apply IH.
  - apply IH.
  - discriminate.
  - destruct (merge_loop f rates now rest tx1 _ (n + 1))
      as [out log1] eqn:Hrest. simpl. intros [= -> <-] Hall.
    change (EvUpsertCountry ?c :: log1)
      with ([EvUpsertCountry c] ++ log1) in Hall.
    rewrite upsert_calls_app in Hall. simpl in Hall.
    apply Forall_cons in Hall as [Hc Hall].
    rewrite (IH _ _ _ _ _ _ Hrest Hall).
    apply UpsertCountry_rows_of in Hup as [-> _].
    by apply insert_on_duplicate_other.
Qed.

(** A run leaves alone the rows stored under a name that none of the
    records it upserts bears: rows of countries that disappeared from
    the directory, or whose record failed validation, stay as they
    are. *)
Theorem Refresh_frame (w : World) (db : DB) (name : string) :
  Forall (fun c => same_key (Name c) name = false)
         (upsert_calls (calls (Refresh w db))) ->
  rows_named name (store (Refresh w db)) = rows_named name db.
Proof.
  pose proof (Refresh_error_rows w db) as Hall.
  destruct (ret (Refresh w db)) as [res |] eqn:Hret.
  2:{ intros _. unfold rows_named. destruct Hall as [-> _]. done. }
  clear Hall.
  destruct (Refresh_Ok_inv w db res Hret)
    as (rc & rr & tx & n & log & tx' & _ & _ & _ & Hloop & Hsave & ->).
  simpl. change (EvEnsureTables :: EvBeginTx :: ?l)
    with ([EvEnsureTables; EvBeginTx] ++ l).
  rewrite !upsert_calls_app. simpl. rewrite app_nil_r. intros Hnames.
  apply SaveLastRefreshed_ok in Hsave as [Hrows _].
  unfold rows_named. unfold rows_of at 1. rewrite Hrows. fold (rows_of tx).
  by rewrite (merge_loop_frame name _ _ _ _ _ _ _ _ _ _ Hloop Hnames).
Qed.

(** *** Rows a run keeps *)

Lemma insert_on_duplicate_idname (rows : list Country) (new : Country) :
  map idname (insert_on_duplicate rows new) = map idname rows
  \/ map idname (insert_on_duplicate rows new)
     = map idname rows ++ [idname new].
Proof.
  induction rows as [| r rows IH]; simpl; [by right |].
  destruct (same_key (Name r) (Name new)); simpl; [by left |].
  destruct IH as [-> | ->]; [by left | by right].
Qed.

Lemma merge_loop_keeps (f : Faults) (rates : gmap string float64)
      (now : Time) (rc : list restCountry) :
  forall (tx : DB) (r : rng) (n : Z) (tx' : DB) (n' : Z) (log : list event),
    merge_loop f rates now rc tx r n = (inr (tx', n'), log) ->
    map idname (rows_of tx) `prefix_of` map idname (rows_of tx')
    /\ Z.of_nat (length (rows_of tx'))
       <= Z.of_nat (length (rows_of tx)) + (n' - n).
Proof.
  induction rc as [| x rest IH]; intros tx r n tx' n' log.
  { simpl. intros [= <- <- _]. split; [done | lia]. }
  destruct (merge_loop_cons_cases f rates now x rest tx r n)
    as [(Hn & ->) | [(Hn & Hp & ->) | [(Hn & Hp & msg & Hup & ->)
                                      | (Hn & Hp & tx1 & Hup & ->)]]].
  - apply IH.
  - apply IH.
  - discriminate.
  - destruct (merge_loop f rates now rest tx1 _ (n + 1))
      as [out log1] eqn:Hrest. simpl. intros [= -> _].
    destruct (IH _ _ _ _ _ _ Hrest) as [Hpre Hlen].
    apply UpsertCountry_rows_of in Hup as [Hrows _].
    pose proof (insert_on_duplicate_idname (rows_of tx)
                  (stored_row (AUTO_INCREMENT (rows_of tx))
                              (fst (derive rates now x r)))) as Hins.
    rewrite <- Hrows in Hins.
    assert (Hlens : length (rows_of tx1) = length (map idname (rows_of tx1)))
      by by rewrite length_map.
    split.
    + etransitivity; [| exact Hpre].
      destruct Hins as [-> | ->]; [done | by apply prefix_app_r].
    + destruct Hins as [Heq | Heq]; rewrite Heq in Hlens;
        rewrite ?length_app, length_map in Hlens; simpl in Hlens; lia.
Qed.

(** A run never removes and never renumbers or renames a row: the rows
    it finds stay in place with their id and name, new rows come after
    them, and a successful run adds at most as many rows as it reports
    records processed. *)
Theorem Refresh_keeps_rows (w : World) (db : DB) :
  map idname (rows_of db) `prefix_of` map idname (rows_of (store (Refresh w db)))
  /\ (forall res, ret (Refresh w db) = Ok res ->
                  Z.of_nat (length (rows_of (store (Refresh w db))))
                  <= Z.of_nat (length (rows_of db)) + Total res).
Proof.
  pose proof (Refresh_error_rows w db) as Hall.
  destruct (ret (Refresh w db)) as [res |] eqn:Hret.
  2:{ destruct Hall as [-> _]. split; [done | discriminate]. }
  clear Hall.
  destruct (Refresh_Ok_inv w db res Hret)
    as (rc & rr & tx & n & log & tx' & _ & _ & _ & Hloop & Hsave & Heq).
  rewrite Heq in Hret. simpl in Hret. injection Hret as <-.
  rewrite Heq. simpl.
  apply SaveLastRefreshed_ok in Hsave as [Hrows _].
  assert (Htx : rows_of tx' = rows_of tx)
    by (unfold rows_of; by rewrite Hrows).
  rewrite Htx.
  destruct (merge_loop_keeps _ _ _ _ _ _ _ _ _ _ Hloop) as [Hpre Hlen].
  change (rows_of (mkDB (Some (rows_of db)) (Some (default [] (metadata db)))))
    with (rows_of db) in Hpre, Hlen.
  split; [exact Hpre |]. intros res [= <-]. simpl. lia.
Qed.

End RefreshFacts.

(** ** The handlers *)

Section HandlerFacts.

Context {rng : Type} `{Runtime rng} `{Engine} `{TimeParser}.

(** The error of a failed run tells which phase failed. *)
Lemma Refresh_error_cases (w : World) (db : DB) (e : error) :
  ret (Refresh w db) = Err e ->
  (fetch_fails (countries_api w) /\ e = ExternalError "restcountries"
   /\ store (Refresh w db) = db)
  \/ (~ fetch_fails (countries_api w) /\ fetch_fails (rates_api w)
      /\ e = ExternalError "exchangerates" /\ store (Refresh w db) = db)
  \/ (~ fetch_fails (countries_api w) /\ ~ fetch_fails (rates_api w)
      /\ exists msg, e = DriverError msg).
Proof.
  unfold Refresh.
  destruct (fetch_fails_dec (countries_api w)) as [Hc | Hc].
  { rewrite (fetch_failure _ _ Hc). simpl. intros [= <-]. left. done. }
  destruct (fetch_success _ "restcountries" Hc) as (rc & _ & ->).
  destruct (fetch_fails_dec (rates_api w)) as [Hr | Hr].
  { rewrite (fetch_failure _ _ Hr). simpl. intros [= <-]. right. left. done. }
  destruct (fetch_success _ "exchangerates" Hr) as (rr & _ & ->).
  intros Herr. right. right. split; [done |]. split; [done |].
  destruct (EnsureTables (faults w) db) as [[e3 |] db1] eqn:Hens.
  { apply EnsureTables_error in Hens. destruct Hens as [msg ->].
    simpl in Herr. injection Herr as <-. eauto. }
  destruct (begin_err (faults w)) as [msg |].
  { simpl in Herr. injection Herr as <-. eauto. }
  destruct (merge_loop _ _ _ _ _ _ _) as [[e4 | [tx n]] log] eqn:Hloop.
  { apply merge_loop_error in Hloop. destruct Hloop as [msg ->].
    simpl in Herr. injection Herr as <-. eauto. }
  destruct (SaveLastRefreshed (faults w) tx (clock_now w))
    as [[e5 |] tx'] eqn:Hsave.
  { apply SaveLastRefreshed_error in Hsave. destruct Hsave as [msg ->].
    simpl in Herr. injection Herr as <-. eauto. }
  destruct (commit_err (faults w)) as [msg |]; simpl in Herr.
  - injection Herr as <-. eauto.
  - discriminate.
Qed.

(** POST /countries/refresh answers 200, 503 or 500 and never 400.
    When a fetch failed, and only then, it answers 503 with the details
    naming the provider, restcountries if the first fetch failed and
    exchangerates otherwise, and the database is as it was.  When the
    run succeeded, and only then, it answers 200 with the run's total
    and formatted timestamp, and the database is the one the run left.
    When the run failed on the database, and only then, it answers 500
    with the fixed message and no detail of the driver's error, and the
    rows are those of before. *)
Theorem handle_refresh_status (w : World) (db : DB) :
  let rep := fst (handle_refresh w db) in
  let db' := snd (handle_refresh w db) in
  (code rep = StatusOK \/ code rep = StatusServiceUnavailable
   \/ code rep = StatusInternalServerError)
  /\ (code rep = StatusServiceUnavailable
      <-> fetch_fails (countries_api w) \/ fetch_fails (rates_api w))
  /\ (fetch_fails (countries_api w) ->
      rep = writeError StatusServiceUnavailable
              "External data source unavailable"
              (Some (DetailsText "Could not fetch data from restcountries"))
      /\ db' = db)
  /\ (~ fetch_fails (countries_api w) -> fetch_fails (rates_api w) ->
      rep = writeError StatusServiceUnavailable
              "External data source unavailable"
              (Some (DetailsText "Could not fetch data from exchangerates"))
      /\ db' = db)
  /\ (code rep = StatusOK <-> exists res, ret (Refresh w db) = Ok res)
  /\ (forall res,
         ret (Refresh w db) = Ok res ->
         rep = writeJSON StatusOK
                 (RefreshedPayload (Total res)
                                   (Format_RFC3339 (LastRefreshed res)))
         /\ db' = store (Refresh w db))
  /\ (code rep = StatusInternalServerError
      <-> exists msg, ret (Refresh w db) = Err (DriverError msg))
  /\ (code rep = StatusInternalServerError ->
      rep = writeError StatusInternalServerError "Internal server error" None
      /\ rows_of db' = rows_of db).
Proof.
  intros rep db'. subst rep db'. unfold handle_refresh. simpl.
  pose proof (Refresh_error_rows w db) as Hall.
  destruct (ret (Refresh w db)) as [res | e] eqn:Hret.
  - assert (Hno : ~ fetch_fails (countries_api w)
                  /\ ~ fetch_fails (rates_api w)).
    { destruct (Refresh_Ok_inv w db res Hret)
        as (rc & rr & _ & _ & _ & _ & -> & -> & _). simpl.
      split; intros [? | ?]; done. }
    simpl. split; [by left |].
    split; [split; [discriminate | tauto] |].
    split; [tauto |]. split; [tauto |].
    split; [split; [eauto | done] |].
    split; [by intros res' [= <-] |].
    split; [| discriminate].
    split; [discriminate | by intros (? & ?)].
  - destruct Hall as (Hrows & _).
    destruct (Refresh_error_cases w db e Hret)
      as [(Hc & -> & Hst) | [(Hc & Hr & -> & Hst) | (Hc & Hr & msg & ->)]];
      simpl.
    + split; [by right; left |]. split; [tauto |].
      split; [done |]. split; [tauto |].
      split; [split; [discriminate | by intros (? & ?)] |].
      split; [discriminate |].
      split; [| discriminate].
      split; [discriminate | by intros (? & ?)].
    + split; [by right; left |]. split; [tauto |].
      split; [tauto |]. split; [done |].
      split; [split; [discriminate | by intros (? & ?)] |].
      split; [discriminate |].
      split; [| discriminate].
      split; [discriminate | by intros (? & ?)].
    + split; [by right; right |].
      split; [split; [discriminate | tauto] |].
      split; [tauto |]. split; [tauto |].
      split; [split; [discriminate | by intros (? & ?)] |].
      split; [discriminate |].
      split; [split; eauto | done].
Qed.

(** GET /countries/{name} on an existing table answers 404 with the
    fixed message when no stored name equals the requested one up to
    case, and only then; it answers 200 with a stored row of that name
    when there is one, and only then; it does not answer 500. *)
Theorem handle_get_status (db : DB) (rows : list Country) (name : string) :
  countries db = Some rows ->
  (code (handle_get None db name) = StatusNotFound
   <-> Forall (fun r => name_matches name r = false) rows)
  /\ (Forall (fun r => name_matches name r = false) rows ->
      handle_get None db name
      = writeError StatusNotFound "Country not found" None)
  /\ (code (handle_get None db name) = StatusOK
      <-> Exists (fun r => name_matches name r = true) rows)
  /\ (Exists (fun r => name_matches name r = true) rows ->
      exists c, handle_get None db name = writeJSON StatusOK (CountryPayload c)
                /\ In c rows /\ name_matches name c = true)
  /\ code (handle_get None db name) <> StatusInternalServerError.
Proof.
  intros Hrows. unfold handle_get, GetByName. rewrite Hrows.
  rewrite <- find_none_iff.
  destruct (List.find (name_matches name) rows) as [row |] eqn:Hf; simpl.
  - rewrite scan_id. apply find_some in Hf as [Hin Hm].
    assert (Hex : Exists (fun r => name_matches name r = true) rows).
    { apply Exists_exists. exists row.
      split; [by apply list_elem_of_In | done]. }
    split; [split; discriminate |]. split; [discriminate |].
    split; [done |]. split; [| discriminate].
    intros _. exists row. done.
  - assert (Hall : Forall (fun r => name_matches name r = false) rows)
      by (by apply find_none_iff).
    assert (Hnex : ~ Exists (fun r => name_matches name r = true) rows).
    { intros Hex. apply Exists_exists in Hex as (r & Hin & Hm).
      rewrite Forall_forall in Hall. specialize (Hall r Hin). congruence. }
    split; [done |]. split; [done |].
    split; [split; [discriminate | done] |].
    split; [done | discriminate].
Qed.

(** DELETE /countries/{name} on an existing table answers 200 when a
    stored name equals the requested one up to case and 404 otherwise;
    after it, GET and DELETE of that name both answer 404. *)
Theorem handle_delete_status (db : DB) (rows : list Country) (name : string) :
  countries db = Some rows ->
  let rep := fst (handle_delete None None db name) in
  let db' := snd (handle_delete None None db name) in
  (code rep = StatusOK
   <-> Exists (fun r => name_matches name r = true) rows)
  /\ (code rep = StatusNotFound
      <-> Forall (fun r => name_matches name r = false) rows)
  /\ code (handle_get None db' name) = StatusNotFound
  /\ code (fst (handle_delete None None db' name)) = StatusNotFound
  /\ snd (handle_delete None None db' name) = db'.
Proof.
  intros Hrows rep db'. subst rep db'.
  destruct (DeleteByName_outcome db rows name Hrows)
    as (removed & db' & Hdel & Hkept & _ & Hremoved & Hget & Hagain).
  assert (Hnone : removed = false
                  <-> Forall (fun r => name_matches name r = false) rows).
  { rewrite <- not_true_iff_false, Hremoved, <- Forall_Exists_neg.
    apply Forall_iff. intros r. apply not_true_iff_false. }
  assert (Hfirst : handle_delete None None db name
                   = (if removed
                      then writeJSON StatusOK (MessagePayload "deleted")
                      else writeError StatusNotFound "Country not found" None,
                      db')).
  { unfold handle_delete. rewrite Hdel. by destruct removed. }
  rewrite Hfirst. simpl.
  unfold handle_delete, handle_get. rewrite Hget, Hagain.
  destruct removed; simpl.
  - split; [tauto |]. split; [| done].
    split; [discriminate |]. intros Hall. apply Hnone in Hall. discriminate.
  - split; [| split; [tauto | done]].
    split; [discriminate |]. intros Hex. apply Hremoved in Hex. discriminate.
Qed.

(** After a successful refresh, GET /status reports the number of stored
    rows and, provided the timestamp text parses back to a time that
    renders to the same text, the very [last_refreshed_at] that the
    refresh answered. *)
Theorem handle_status_after_refresh (w : World) (db : DB) (total : Z)
        (s : string) (t : Time) :
  body (fst (handle_refresh w db)) = RefreshedPayload total s ->
  s <> "" -> Parse_RFC3339 s = Some t -> Format_RFC3339 t = s ->
  handle_status None None (snd (handle_refresh w db))
  = writeJSON StatusOK
      (StatusPayload
         (Z.of_nat (length (rows_of (snd (handle_refresh w db))))) (Some s)).
Proof.
  unfold handle_refresh. simpl.
  destruct (ret (Refresh w db)) as [res | e] eqn:Hret.
  2:{ by destruct e. }
  simpl. intros [= <- <-] Hne Hparse Hformat.
  destruct (Refresh_Ok_inv w db res Hret)
    as (rc & rr & tx & n & log & tx' & _ & _ & _ & Hloop & Hsave & Heq).
  rewrite Heq in Hret. simpl in Hret. injection Hret as <-.
  rewrite Heq. simpl in *.
  assert (Hcountries : exists rows, countries tx = Some rows).
  { eapply (merge_loop_invariant (fun t => exists rows, countries t = Some rows)
              (fun _ => True)); [| by apply Forall_true | | exact Hloop].
    - intros t0 x r n0 t1 _ _ _ _ Hup.
      apply UpsertCountry_ok in Hup as (rows & _ & ->). simpl. eauto.
    - simpl. eauto. }
  destruct Hcountries as (rows & Hrows).
  pose proof Hsave as Hsave'.
  apply SaveLastRefreshed_ok in Hsave as (Hc & row & Hrow & Hval & _).
  unfold handle_status, TotalCount, GetLastRefreshed, rows_of.
  rewrite Hc, Hrows. simpl.
  unfold SaveLastRefreshed in Hsave'.
  destruct (save_err (faults w)); [discriminate |].
  destruct (metadata tx) as [mrows |]; [| discriminate].
  injection Hsave' as <-. simpl in *.
  unfold last_refreshed_row in Hrow. simpl in Hrow. rewrite Hrow.
  rewrite Hval. simpl.
  apply String.eqb_neq in Hne. rewrite Hne, Hparse. simpl.
  by rewrite Hformat.
Qed.

End HandlerFacts.

(** ** The query parameters of GET /countries *)

Section ListHandlerFacts.

Context `{Engine}.

Lemma sanitize_query_snoc (raw : list (string * list string))
      (kv : string * list string) :
  sanitize_query (raw ++ [kv])
  = <[stripped kv := snd kv]> (sanitize_query raw).
Proof. unfold sanitize_query. by rewrite foldl_app. Qed.

Lemma sanitize_query_list_to_map (raw : list (string * list string)) :
  NoDup (map stripped raw) ->
  sanitize_query raw
  = list_to_map (map (fun kv => (stripped kv, snd kv)) raw).
Proof.
  induction raw as [| kv raw IH] using rev_ind; intros Hnd; [done |].
  rewrite sanitize_query_snoc, map_app. simpl.
  rewrite map_app in Hnd. simpl in Hnd.
  apply NoDup_app in Hnd as (Hnd & Hfresh & _).
  rewrite list_to_map_snoc.
  - by rewrite IH.
  - intros Hin. apply (Hfresh (stripped kv)); [| by left].
    rewrite <- list_fmap_compose in Hin.
    exact Hin.
Qed.

Lemma list_to_map_find (l : list (string * list string)) (key : string) :
  (list_to_map l : gmap string (list string)) !! key
  = snd <$> List.find (fun p => String.eqb (fst p) key) l.
Proof.
  induction l as [| [k v] l IH]; simpl; [done |].
  destruct (String.eqb_spec k key) as [-> | Hne].
  - by rewrite lookup_insert_eq.
  - by rewrite lookup_insert_ne.
Qed.

Lemma query_get_first_value (raw : list (string * list string))
      (key : string) :
  NoDup (map stripped raw) ->
  query_get (sanitize_query raw) key = first_value raw key.
Proof.
  intros Hnd. unfold query_get, first_value.
  rewrite (sanitize_query_list_to_map raw Hnd), list_to_map_find.
  clear Hnd. induction raw as [| [k v] raw IH]; simpl; [done |].
  change (stripped (k, v)) with (TrimLeft k "?").
  destruct (String.eqb (TrimLeft k "?") key); [done | exact IH].
Qed.

Lemma sanitize_query_question (raw : list (string * list string)) :
  sanitize_query (map (fun kv => ("?" +:+ fst kv, snd kv)) raw)
  = sanitize_query raw.
Proof.
  unfold sanitize_query. generalize (∅ : gmap string (list string)).
  induction raw as [| kv raw IH]; intros q; simpl; [done |]. apply IH.
Qed.

(** GET /countries reads [region], [currency] and [sort] from the query
    after removing leading question marks from the keys: prefixing every
    key with a question mark changes nothing; when the stripped keys are
    distinct, each parameter is the first value of its entry, or empty
    when absent, and the order in which the map is visited does not
    matter. *)
Theorem handle_list_query_keys (qerr : option string) (db : DB)
        (raw : list (string * list string)) :
  handle_list (map (fun kv => ("?" +:+ fst kv, snd kv)) raw) qerr db
  = handle_list raw qerr db
  /\ (NoDup (map stripped raw) ->
      handle_list raw qerr db
      = match GetAll qerr db (first_value raw "region")
                     (first_value raw "currency") (first_value raw "sort")
        with
        | inl _ =>
            writeError StatusInternalServerError "Internal server error" None
        | inr list => writeJSON StatusOK (ListPayload list)
        end)
  /\ (forall raw', NoDup (map stripped raw) -> Permutation raw raw' ->
                   handle_list raw' qerr db = handle_list raw qerr db).
Proof.
  split; [| split].
  - unfold handle_list. by rewrite sanitize_query_question.
  - intros Hnd. unfold handle_list.
    by rewrite !(query_get_first_value raw _ Hnd).
  - intros raw' Hnd Hperm. unfold handle_list.
    assert (Hnd' : NoDup (map stripped raw')).
    { by rewrite <- Hperm. }
    rewrite (sanitize_query_list_to_map raw Hnd),
      (sanitize_query_list_to_map raw' Hnd').
    rewrite (list_to_map_proper
               (map (fun kv => (stripped kv, snd kv)) raw')
               (map (fun kv => (stripped kv, snd kv)) raw)); [done | |].
    + rewrite <- list_fmap_compose. exact Hnd'.
    + symmetry. by apply Permutation_map.
Qed.

End ListHandlerFacts.

(** ** The CORS middleware *)

Lemma blocked_spec (allowedOrigins : list string) (r : Request) :
  let origin := Header_Get (Header r) "Origin" in
  negb (existsb (fun allowedOrigin =>
                   String.eqb origin allowedOrigin
                   || String.eqb allowedOrigin "*") allowedOrigins)
  && negb (String.eqb origin "") = true
  <-> blocked allowedOrigins r.
Proof.
  intros origin. unfold blocked. fold origin.
  rewrite andb_true_iff, !negb_true_iff, String.eqb_neq.
  rewrite <- not_true_iff_false, existsb_exists.
  split.
  - intros [Hno Hne]. split; [done |]. split; intros Hin; apply Hno.
    + exists origin. split; [done |]. by rewrite String.eqb_refl.
    + exists "*". split; [done |]. apply orb_true_r.
  - intros (Hne & Ho & Hs). split; [| done].
    intros (a & Hin & Ha). apply orb_true_iff in Ha as [Ha | Ha];
      apply String.eqb_eq in Ha; subst; tauto.
Qed.

Lemma blocked_dec (allowedOrigins : list string) (r : Request) :
  {blocked allowedOrigins r} + {~ blocked allowedOrigins r}.
Proof.
  pose proof (blocked_spec allowedOrigins r) as Hspec. cbv zeta in Hspec.
  destruct (negb _ && negb _); [left | right]; intuition congruence.
Defined.

(** A request is turned away only when it names an origin that is not
    in the list while the list has no wildcard.  A request turned away
    gets 403 with no CORS header and never reaches the next handler; a
    preflight request that is let through gets 200 with the CORS headers
    and does not reach it either. *)
Theorem CorsMiddleware_short_circuits (allowedOrigins : list string)
        (next next' : Writer -> Request -> Writer) (w : Writer) (r : Request) :
  let res := CorsMiddleware allowedOrigins next w r in
  (blocked allowedOrigins r ->
   res = http_Error w "Unauthorized origin" StatusForbidden
   /\ CorsMiddleware allowedOrigins next' w r = res
   /\ (w_status w = None -> w_status res = Some StatusForbidden)
   /\ forall key, key <> "Content-Type" -> key <> "X-Content-Type-Options" ->
                  key <> "Content-Length" ->
                  w_header res !! key = w_header w !! key)
  /\ (~ blocked allowedOrigins r -> Method r = "OPTIONS" ->
      CorsMiddleware allowedOrigins next' w r = res
      /\ (w_status w = None -> w_status res = Some StatusOK)
      /\ w_body res = w_body w
      /\ w_header res !! "Access-Control-Allow-Credentials" = Some "true"
      /\ w_header res !! "Access-Control-Allow-Methods"
         = Some "GET, POST, PUT, DELETE, OPTIONS"
      /\ w_header res !! "Access-Control-Allow-Headers"
         = Some "Content-Type, Authorization").
Proof.
  intros res. subst res. unfold CorsMiddleware.
  pose proof (blocked_spec allowedOrigins r) as Hspec. cbv zeta in Hspec.
  destruct (negb _ && negb _) eqn:Hb.
  - split; [| intros Hnot; exfalso; apply Hnot; by apply Hspec].
    intros _. split; [done |]. split; [done |]. split.
    + unfold http_Error, WriteHeader. simpl. by intros ->.
    + intros key H1 H2 H3. unfold http_Error, WriteHeader. simpl.
      destruct (w_status w); simpl; by simplify_map_eq.
  - split; [intros Hbl; apply Hspec in Hbl; discriminate |].
    intros _ ->. simpl. split; [done |].
    unfold WriteHeader.
    destruct (negb (String.eqb (Header_Get (Header r) "Origin") ""));
      simpl; destruct (w_status w); simpl;
      (split; [intros; congruence |]); (split; [done |]);
      repeat split; by simplify_map_eq.
Qed.

(** A request without an [Origin] header, and any request when the list
    holds the wildcard or the request's origin, reaches the next handler
    unless it is a preflight; the writer it is handed has the three fixed
    CORS headers, echoes the origin when there is one, and has no status
    or body written by the middleware. *)
Theorem CorsMiddleware_lets_through (allowedOrigins : list string)
        (next : Writer -> Request -> Writer) (w : Writer) (r : Request) :
  let origin := Header_Get (Header r) "Origin" in
  origin = "" \/ In "*" allowedOrigins \/ In origin allowedOrigins ->
  Method r <> "OPTIONS" ->
  exists w1,
    CorsMiddleware allowedOrigins next w r = next w1 r
    /\ w_status w1 = w_status w /\ w_body w1 = w_body w
    /\ w_header w1 !! "Access-Control-Allow-Origin"
       = (if decide (origin = "") then w_header w !! "Access-Control-Allow-Origin"
          else Some origin)
    /\ w_header w1 !! "Access-Control-Allow-Credentials" = Some "true"
    /\ w_header w1 !! "Access-Control-Allow-Methods"
       = Some "GET, POST, PUT, DELETE, OPTIONS"
    /\ w_header w1 !! "Access-Control-Allow-Headers"
       = Some "Content-Type, Authorization".
Proof.
  intros origin Hallowed Hmethod. unfold CorsMiddleware. fold origin.
  pose proof (blocked_spec allowedOrigins r) as Hspec. cbv zeta in Hspec.
  fold origin in Hspec.
  destruct (negb _ && negb _) eqn:Hb.
  { exfalso. destruct Hspec as [Hbl _].
    destruct (Hbl eq_refl) as (Hne & Ho & Hs). fold origin in Hne, Ho.
    tauto. }
  apply String.eqb_neq in Hmethod. rewrite Hmethod.
  eexists. split; [reflexivity |].
  destruct (String.eqb_spec origin "") as [Heq | Hne]; simpl;
    case_decide; try contradiction;
    repeat split; by simplify_map_eq.
Qed.

(** ** The summary image *)

Section ImageFacts.

Context `{Engine} `{Formatter}.

Lemma StronglySorted_app_parts {A : Type} (R : A -> A -> Prop)
      (l1 l2 : list A) :
  StronglySorted R (l1 ++ l2) ->
  StronglySorted R l1 /\ forall x y, In x l1 -> In y l2 -> R x y.
Proof.
  induction l1 as [| a l1 IH]; simpl; intros Hs.
  - split; [constructor | by intros x y []].
  - apply StronglySorted_inv in Hs as [Hs Hall].
    destruct (IH Hs) as [Hs1 Hcross]. split.
    + constructor; [exact Hs1 |].
      apply List.Forall_forall. intros x Hx.
      rewrite List.Forall_forall in Hall. apply Hall.
      apply in_or_app. by left.
    + intros x y [<- | Hx] Hy.
      * rewrite List.Forall_forall in Hall. apply Hall.
        apply in_or_app. by right.
      * by apply Hcross.
Qed.

Lemma draw_top_positions (top : list entry) :
  (length top <= 5)%nat ->
  draw_top 0 (F64.of_int 120) top
  = imap (fun i e =>
            DrawStringAnchored
              (Sprintf_d (Z.of_nat i + 1) +:+ ". " +:+ entry_Name e
               +:+ " â€” " +:+ Sprintf_2f (entry_GDP e))
              (F64.of_int 60) (F64.of_int (120 + 40 * Z.of_nat i))
              (F64.of_int 0) f64_half) top.
Proof.
  intros Hlen.
  do 6 (destruct top as [| ? top]; [reflexivity |]).
  simpl in Hlen. lia.
Qed.

(** With both queries and both file operations succeeding, the image
    lists the rows with the largest estimates, at most five of them, by
    descending estimate: every row with an estimate that is left out has
    an estimate no larger than each listed one, and rows without an
    estimate are never listed.  The header shows the number of all rows,
    line [i] (from 0) is drawn at height [120 + 40 i], and the file is
    saved after its directory is made. *)
Theorem GenerateSummaryImage_top (db : DB) (rows : list Country)
        (destPath : string) :
  countries db = Some rows -> Forall no_nan rows ->
  exists top rest entries,
    Permutation (top ++ rest) (List.filter has_estimate rows)
    /\ (length top <= 5)%nat
    /\ (rest <> [] -> length top = 5%nat)
    /\ StronglySorted gdp_desc top
    /\ (forall t r, In t top -> In r rest -> gdp_desc t r)
    /\ Forall2 (fun r e => entry_Name e = Name r
                           /\ EstimatedGDP r = Some (entry_GDP e))
               top entries
    /\ GenerateSummaryImage None None None None db destPath
       = (None,
          [NewContext 1000 600; SetColorWhite; Clear; SetRGB 0 0 0;
           LoadFontFace "/Library/Fonts/Arial.ttf" 28;
           DrawStringAnchored
             ("Countries Summary (total: "
              +:+ Sprintf_d (Z.of_nat (length rows)) +:+ ")")
             (F64.of_int 500) (F64.of_int 60) f64_half f64_half]
          ++ imap (fun i e =>
                     DrawStringAnchored
                       (Sprintf_d (Z.of_nat i + 1) +:+ ". " +:+ entry_Name e
                        +:+ " â€” " +:+ Sprintf_2f (entry_GDP e))
                       (F64.of_int 60) (F64.of_int (120 + 40 * Z.of_nat i))
                       (F64.of_int 0) f64_half) entries
          ++ [MkdirAll (filepath_Dir destPath); SavePNG destPath]).
Proof.
  intros Hrows Hnan.
  set (l := order_rows (Some DESC) (List.filter has_estimate rows)).
  assert (Hperm : Permutation l (List.filter has_estimate rows))
    by apply order_rows_perm.
  assert (Hest : Forall (fun r => has_estimate r = true) l).
  { rewrite Hperm. apply Forall_forall. intros r Hin.
    apply list_elem_of_In in Hin. by apply filter_In in Hin as [_ ?]. }
  assert (Hsorted : StronglySorted gdp_desc l).
  { apply (order_rows_sorted DESC). apply Forall_forall. intros r Hin.
    apply list_elem_of_In in Hin. apply filter_In in Hin as [Hin _].
    rewrite Forall_forall in Hnan. apply Hnan. by apply list_elem_of_In. }
  assert (Htop : top_rows rows = take 5 l) by reflexivity.
  assert (Hlen : (length (take 5 l) <= 5)%nat)
    by (rewrite length_take; lia).
  assert (Hentries : exists entries,
             mapM scan_entry (take 5 l) = Some entries
             /\ Forall2 (fun r e => entry_Name e = Name r
                                    /\ EstimatedGDP r = Some (entry_GDP e))
                        (take 5 l) entries).
  { assert (Hest5 : Forall (fun r => has_estimate r = true) (take 5 l))
      by by apply Forall_take.
    assert (Hscan : exists entries,
               Forall2 (fun r e => scan_entry r = Some e) (take 5 l) entries).
    { clear -Hest5. induction Hest5 as [| r l5 Hr Hl IH].
      - exists []. constructor.
      - destruct IH as (entries & Hf2).
        unfold has_estimate in Hr.
        destruct (EstimatedGDP r) as [gdp |] eqn:Hgdp; [| discriminate].
        exists (mkEntry (Name r) gdp :: entries).
        constructor; [| exact Hf2]. unfold scan_entry. by rewrite Hgdp. }
    destruct Hscan as (entries & Hscan). exists entries. split.
    - by apply mapM_Some_2.
    - eapply Forall2_impl; [exact Hscan |].
      intros r e. unfold scan_entry.
      destruct (EstimatedGDP r); [| discriminate]. by intros [= <-]. }
  destruct Hentries as (entries & Hmap & Hf2).
  exists (take 5 l), (drop 5 l), entries.
  rewrite take_drop.
  split; [exact Hperm |]. split; [exact Hlen |]. split; [| split; [| split]].
  - intros Hrest. rewrite length_take.
    destruct (decide (length l <= 5)%nat) as [Hle | Hgt]; [| lia].
    exfalso. apply Hrest. by apply drop_ge.
  - rewrite <- (take_drop 5 l) in Hsorted.
    by apply StronglySorted_app_parts in Hsorted as [? _].
  - intros t r Ht Hr. rewrite <- (take_drop 5 l) in Hsorted.
    apply StronglySorted_app_parts in Hsorted as [_ Hcross].
    by apply Hcross.
  - split; [exact Hf2 |].
    unfold GenerateSummaryImage, TotalCount, rows_of. rewrite Hrows. simpl.
    rewrite Htop, Hmap.
    rewrite draw_top_positions.
    + f_equal. simpl. do 6 f_equal. by rewrite <- app_assoc.
    + apply Forall2_length in Hf2. lia.
Qed.

End ImageFacts.

(** ** Running [Refresh] twice *)

Section Idempotence.

Context {rng : Type} `{Runtime rng} `{Engine}.

Lemma apply_upserts_snoc (rows cs : list Country) (c : Country) :
  apply_upserts rows (cs ++ [c])
  = insert_on_duplicate (apply_upserts rows cs)
      (stored_row (AUTO_INCREMENT (apply_upserts rows cs)) c).
Proof. unfold apply_upserts. by rewrite foldl_app. Qed.

Lemma last_named_snoc (name : string) (cs : list Country) (c : Country) :
  last_named name (cs ++ [c])
  = if same_key (Name c) name then Some c else last_named name cs.
Proof. unfold last_named. rewrite rev_app_distr. reflexivity. Qed.

(** The two shapes of an upsert on a table with unique names. *)
Lemma insert_on_duplicate_present (rows : list Country) (new : Country) :
  unique_names rows ->
  Exists (fun r => same_key (Name r) (Name new) = true) rows ->
  insert_on_duplicate rows new
  = map (fun r => if same_key (Name r) (Name new) then update_row r new
                  else r) rows.
Proof.
  induction rows as [| r rows IH]; intros Huniq Hex.
  { by apply Exists_nil in Hex. }
  destruct Huniq as [Hr Huniq]. simpl.
  destruct (same_key (Name r) (Name new)) eqn:Hk.
  - f_equal. clear IH Hex Huniq.
    induction Hr as [| r' rows Hr' Hr IH]; simpl; [done |].
    assert (Hk' : same_key (Name r') (Name new) = false).
    { apply same_key_neq. apply same_key_neq in Hr'.
      apply same_key_eq in Hk. congruence. }
    by rewrite Hk', <- IH.
  - f_equal. apply IH; [done |].
    apply Exists_cons in Hex as [Hex | Hex]; [congruence | done].
Qed.

Lemma insert_on_duplicate_absent (rows : list Country) (new : Country) :
  Forall (fun r => same_key (Name r) (Name new) = false) rows ->
  insert_on_duplicate rows new = rows ++ [new].
Proof.
  induction 1 as [| r rows Hr Hrows IH]; simpl; [done |].
  by rewrite Hr, IH.
Qed.

Lemma Exists_or_Forall_named (rows : list Country) (name : string) :
  Exists (fun r => same_key (Name r) name = true) rows
  \/ Forall (fun r => same_key (Name r) name = false) rows.
Proof.
  induction rows as [| r rows [IH | IH]].
  - right. constructor.
  - left. by right.
  - destruct (same_key (Name r) name) eqn:Hk.
    + left. by left.
    + right. by constructor.
Qed.

(** After the upserts of [cs], the names are unique, every name of [cs]
    is stored, and the row of a name has the columns of the last record
    of [cs] with that name. *)
Lemma apply_upserts_state (rows cs : list Country) :
  unique_names rows ->
  unique_names (apply_upserts rows cs)
  /\ Forall (fun c => Exists (fun r => same_key (Name r) (Name c) = true)
                             (apply_upserts rows cs)) cs
  /\ Forall (fun r => forall c, last_named (Name r) cs = Some c ->
                                r = update_row r (stored_row (ID r) c))
            (apply_upserts rows cs).
Proof.
  intros Huniq. induction cs as [| c cs IH] using rev_ind.
  { split; [done |]. split; [constructor |].
    apply Forall_forall. intros r _ c. discriminate. }
  destruct IH as (Hu & Hkeys & Hcols).
  rewrite apply_upserts_snoc.
  set (T := apply_upserts rows cs) in *.
  set (new := stored_row (AUTO_INCREMENT T) c).
  assert (Hshape :
            (Exists (fun r => same_key (Name r) (Name c) = true) T
             /\ insert_on_duplicate T new
                = map (fun r => if same_key (Name r) (Name c)
                                then update_row r new else r) T)
            \/ (Forall (fun r => same_key (Name r) (Name c) = false) T
                /\ insert_on_duplicate T new = T ++ [new])).
  { destruct (Exists_or_Forall_named T (Name c)) as [Hex | Hall].
    - left. split; [done |].
      exact (insert_on_duplicate_present T new Hu Hex).
    - right. split; [done |].
      exact (insert_on_duplicate_absent T new Hall). }
  split; [by apply insert_on_duplicate_unique |]. split.
  - apply Forall_app. split.
    + eapply Forall_impl; [exact Hkeys |]. intros c0 Hex.
      apply Exists_exists in Hex as (r & Hin & Hk).
      apply Exists_exists.
      destruct Hshape as [[_ ->] | [_ ->]].
      * exists (if same_key (Name r) (Name c) then update_row r new else r).
        split; [| by destruct (same_key (Name r) (Name c))].
        apply list_elem_of_In, in_map_iff. exists r.
        split; [done | by apply list_elem_of_In].
      * exists r. split; [| done].
        apply list_elem_of_In, in_or_app. left. by apply list_elem_of_In.
    + constructor; [| constructor]. apply Exists_exists.
      destruct Hshape as [[Hex ->] | [_ ->]].
      * apply Exists_exists in Hex as (r & Hin & Hk).
        exists (update_row r new). split; [| done].
        apply list_elem_of_In, in_map_iff. exists r.
        split; [by rewrite Hk | by apply list_elem_of_In].
      * exists new. split; [| apply same_key_refl].
        apply list_elem_of_In, in_or_app. right. by left.
  - apply Forall_forall. intros r Hin c0. rewrite last_named_snoc.
    apply list_elem_of_In in Hin. rewrite Forall_forall in Hcols.
    destruct Hshape as [[_ Heq] | [Hall Heq]]; rewrite Heq in Hin.
    + apply in_map_iff in Hin as (r0 & <- & Hin0).
      apply list_elem_of_In in Hin0.
      destruct (same_key (Name r0) (Name c)) eqn:Hk.
      * change (Name (update_row r0 new)) with (Name r0).
        replace (same_key (Name c) (Name r0)) with true.
        2:{ symmetry. apply same_key_eq. apply same_key_eq in Hk. done. }
        by intros [= <-].
      * replace (same_key (Name c) (Name r0)) with false.
        2:{ symmetry. apply same_key_neq. apply same_key_neq in Hk. done. }
        by apply Hcols.
    + apply in_app_or in Hin as [Hin | [<- | []]].
      * apply list_elem_of_In in Hin.
        rewrite Forall_forall in Hall. pose proof (Hall _ Hin) as Hk.
        replace (same_key (Name c) (Name r)) with false.
        2:{ symmetry. apply same_key_neq. apply same_key_neq in Hk. done. }
        by apply Hcols.
      * change (Name new) with (Name c). rewrite same_key_refl.
        by intros [= <-].
Qed.

(** Upserts of records whose names are all stored overwrite rows in
    place. *)
Lemma apply_upserts_overwrites (rows cs : list Country) :
  unique_names rows ->
  Forall (fun c => Exists (fun r => same_key (Name r) (Name c) = true) rows)
         cs ->
  apply_upserts rows cs = map (overwritten cs) rows.
Proof.
  intros Huniq. induction cs as [| c cs IH] using rev_ind; intros Hkeys.
  { simpl. unfold overwritten. simpl. by rewrite map_id. }
  apply Forall_app in Hkeys as [Hkeys Hc].
  apply Forall_cons in Hc as [Hc _].
  rewrite apply_upserts_snoc, (IH Hkeys).
  assert (Hnames : forall r, Name (overwritten cs r) = Name r).
  { intros r. unfold overwritten. by destruct (last_named (Name r) cs). }
  rewrite insert_on_duplicate_present.
  - rewrite map_map. apply map_ext. intros r.
    change (Name (stored_row ?i c)) with (Name c). rewrite Hnames.
    assert (Hsnoc : overwritten (cs ++ [c]) r
                    = if same_key (Name r) (Name c)
                      then update_row r (stored_row (ID r) c)
                      else overwritten cs r).
    { unfold overwritten. rewrite last_named_snoc.
      replace (same_key (Name c) (Name r)) with (same_key (Name r) (Name c))
        by (unfold same_key; apply String.eqb_sym).
      by destruct (same_key (Name r) (Name c)). }
    rewrite Hsnoc.
    destruct (same_key (Name r) (Name c)); [| done].
    unfold overwritten. by destruct (last_named (Name r) cs).
  - rewrite <- (IH Hkeys). by apply apply_upserts_state.
  - apply Exists_exists in Hc as (r & Hin & Hk).
    apply Exists_exists. exists (overwritten cs r). split.
    + apply list_elem_of_In, in_map_iff. exists r.
      split; [done | by apply list_elem_of_In].
    + change (Name (stored_row ?i c)) with (Name c). by rewrite Hnames.
Qed.

Lemma derive_now (rates : gmap string float64) (now1 now2 : Time)
      (x : restCountry) (r : rng) :
  forget_time (fst (derive rates now1 x r))
  = forget_time (fst (derive rates now2 x r))
  /\ snd (derive rates now1 x r) = snd (derive rates now2 x r).
Proof.
  unfold derive.
  destruct (match rc_Currencies x with [] => _ | _ => _ end)
    as [[[? ?] ?] ?].
  done.
Qed.

Lemma passes_forget (a b : Country) :
  forget_time a = forget_time b -> passes a = passes b.
Proof.
  intros Heq. change (passes a) with (passes (forget_time a)).
  by rewrite Heq.
Qed.

Lemma candidates_now (rates : gmap string float64) (now1 now2 : Time)
      (rc : list restCountry) :
  forall r : rng,
    Forall2 (fun a b => forget_time a = forget_time b)
            (List.filter passes (candidates rates now1 rc r))
            (List.filter passes (candidates rates now2 rc r)).
Proof.
  induction rc as [| x rest IH]; intros r; [constructor |].
  rewrite !candidates_cons. case_decide; [apply IH |].
  destruct (derive_now rates now1 now2 x r) as [Hfst Hsnd].
  simpl. rewrite (passes_forget _ _ Hfst), Hsnd.
  destruct (passes (fst (derive rates now2 x r))); [| apply IH].
  constructor; [exact Hfst | apply IH].
Qed.

Lemma forget_time_name (a b : Country) :
  forget_time a = forget_time b -> Name a = Name b.
Proof. intros Heq. by injection Heq. Qed.

Lemma Forall2_rev_both {A B : Type} (R : A -> B -> Prop) (l1 : list A)
      (l2 : list B) :
  Forall2 R l1 l2 -> Forall2 R (rev l1) (rev l2).
Proof.
  induction 1 as [| a b l1 l2 Hab Hl IH]; simpl; [constructor |].
  apply Forall2_app; [exact IH | by constructor].
Qed.

Lemma last_named_forget (name : string) (cs1 cs2 : list Country) :
  Forall2 (fun a b => forget_time a = forget_time b) cs1 cs2 ->
  match last_named name cs1, last_named name cs2 with
  | Some a, Some b => forget_time a = forget_time b
  | None, None => True
  | _, _ => False
  end.
Proof.
  intros Hf2. unfold last_named. apply Forall2_rev_both in Hf2.
  induction Hf2 as [| a b l1 l2 Hab Hl IH]; simpl; [done |].
  rewrite (forget_time_name _ _ Hab).
  by destruct (same_key (Name b) name).
Qed.

(** Idempotence.  Two successful runs over the same directory, the same
    rates and the same seed leave, after the second, the rows of the
    first: nothing is added, removed or changed but the refresh times;
    and both report the same count. *)
Theorem Refresh_twice (w1 w2 : World) (db : DB) (res1 res2 : RefreshResult) :
  unique_names (rows_of db) ->
  countries_api w2 = countries_api w1 ->
  rates_api w2 = rates_api w1 ->
  clock_seed w2 = clock_seed w1 ->
  ret (Refresh w1 db) = Ok res1 ->
  ret (Refresh w2 (store (Refresh w1 db))) = Ok res2 ->
  map forget_time (rows_of (store (Refresh w2 (store (Refresh w1 db)))))
  = map forget_time (rows_of (store (Refresh w1 db)))
  /\ Total res2 = Total res1.
Proof.
  intros Huniq Hc Hr Hseed Hok1 Hok2.
  destruct (Refresh_Ok_inv _ _ _ Hok1)
    as (rc & rr & tx1 & n1 & log1 & tx1' & Hc1 & Hr1 & _ & Hloop1 & Hsave1
        & Heq1).
  destruct (Refresh_Ok_inv _ _ _ Hok2)
    as (rc2 & rr2 & tx2 & n2 & log2 & tx2' & Hc2 & Hr2 & _ & Hloop2 & Hsave2
        & Heq2).
  rewrite Hc, Hc1 in Hc2. injection Hc2 as <-.
  rewrite Hr, Hr1 in Hr2. injection Hr2 as <-.
  rewrite Hseed in Hloop2.
  rewrite Heq2 in Hok2. simpl in Hok2. injection Hok2 as <-.
  rewrite Heq2. clear Heq2.
  rewrite Heq1 in Hok1. simpl in Hok1. injection Hok1 as <-.
  rewrite Heq1 in *. clear Heq1. simpl in *.
  apply SaveLastRefreshed_ok in Hsave1 as [Hrows1 _].
  apply SaveLastRefreshed_ok in Hsave2 as [Hrows2 _].
  assert (H1 : rows_of tx1' = rows_of tx1)
    by (unfold rows_of; by rewrite Hrows1).
  assert (H2 : rows_of tx2' = rows_of tx2)
    by (unfold rows_of; by rewrite Hrows2).
  rewrite H1, H2. rewrite H1 in Hloop2. clear H1 H2 Hrows1 Hrows2.
  pose proof (merge_loop_calls (faults w1) (Rates rr) (clock_now w1) rc
                (mkDB (Some (rows_of db)) (Some (default [] (metadata db))))
                (NewSource (clock_seed w1)) 0) as Hcalls1.
  pose proof (merge_loop_calls (faults w2) (Rates rr) (clock_now w2) rc
                (mkDB (Some (rows_of tx1))
                      (Some (default [] (metadata tx1'))))
                (NewSource (clock_seed w1)) 0) as Hcalls2.
  cbv zeta in Hcalls1, Hcalls2. rewrite Hloop1 in Hcalls1.
  rewrite Hloop2 in Hcalls2.
  destruct Hcalls1 as [Hlog1 Hn1]. destruct Hcalls2 as [Hlog2 Hn2].
  pose proof (candidates_now (Rates rr) (clock_now w1) (clock_now w2) rc
                (NewSource (clock_seed w1))) as Hsame.
  set (cs1 := List.filter passes (candidates (Rates rr) (clock_now w1) rc
                                            (NewSource (clock_seed w1)))) in *.
  set (cs2 := List.filter passes (candidates (Rates rr) (clock_now w2) rc
                                            (NewSource (clock_seed w1)))) in *.
  split; [| apply Forall2_length in Hsame; lia].
  apply merge_loop_apply_upserts in Hloop1, Hloop2.
  rewrite Hlog1 in Hloop1. rewrite Hlog2 in Hloop2.
  rewrite <- (app_nil_r (map _ cs1)), upsert_calls_map in Hloop1.
  rewrite <- (app_nil_r (map _ cs2)), upsert_calls_map in Hloop2.
  simpl in Hloop1, Hloop2. rewrite app_nil_r in Hloop1, Hloop2.
  change (rows_of (mkDB (Some (rows_of db)) ?m)) with (rows_of db) in Hloop1.
  change (rows_of (mkDB (Some (rows_of tx1)) ?m)) with (rows_of tx1)
    in Hloop2.
  destruct (apply_upserts_state (rows_of db) cs1 Huniq)
    as (Hu1 & Hkeys1 & Hcols1).
  rewrite <- Hloop1 in Hu1, Hkeys1, Hcols1.
  assert (Hkeys2 : Forall (fun c => Exists (fun r => same_key (Name r) (Name c)
                                                     = true) (rows_of tx1))
                          cs2).
  { clear -Hsame Hkeys1. induction Hsame as [| a b l1 l2 Hab Hl IH];
      [constructor |].
    apply Forall_cons in Hkeys1 as [Ha Hkeys1].
    constructor; [| by apply IH].
    by rewrite <- (forget_time_name _ _ Hab). }
  rewrite Hloop2, (apply_upserts_overwrites _ _ Hu1 Hkeys2).
  rewrite map_map. apply map_ext_in. intros r Hin.
  rewrite Forall_forall in Hcols1.
  apply list_elem_of_In in Hin. specialize (Hcols1 r Hin).
  unfold overwritten.
  pose proof (last_named_forget (Name r) cs1 cs2 Hsame) as Hlast.
  destruct (last_named (Name r) cs2) as [c2 |]; [| done].
  destruct (last_named (Name r) cs1) as [c1 |]; [| done].
  transitivity (forget_time (update_row r (stored_row (ID r) c1)));
    [| by rewrite <- (Hcols1 c1 eq_refl)].
  injection Hlast as Hid Hname Hcap Hreg Hpop Hcode Hrate Hest Hflag.
  unfold forget_time, update_row, stored_row. simpl.
  by rewrite Hcap, Hreg, Hpop, Hcode, Hrate, Hest, Hflag.
Qed.

End Idempotence.

(** ** Dropping the tables *)

Section ResetFacts.

Context {rng : Type} `{Runtime rng} `{Engine} `{TimeParser}.

(** POST /drop-tables answers 200 or 500.  When it answers 500 the
    records table is as it was, because the metadata table is dropped
    first; the metadata table may be gone.  When it answers 200 both
    tables are gone: GET /status and GET /countries/{name} answer 500
    until the tables are made again, making them again gives an empty
    store, and a refresh behaves as on a database that never had the
    tables. *)
Theorem handle_drop_tables_outcomes (merr cerr : option string) (db : DB) :
  let rep := fst (handle_drop_tables merr cerr db) in
  let db' := snd (handle_drop_tables merr cerr db) in
  (code rep = StatusOK <-> merr = None /\ cerr = None)
  /\ (code rep = StatusInternalServerError <-> ~ (merr = None /\ cerr = None))
  /\ (code rep = StatusInternalServerError ->
      countries db' = countries db
      /\ (merr = None -> metadata db' = None))
  /\ (code rep = StatusOK ->
      code (handle_status None None db') = StatusInternalServerError
      /\ (forall name,
             code (handle_get None db' name) = StatusInternalServerError)
      /\ (forall f db2,
             EnsureTables f db' = (None, db2) ->
             handle_status None None db2
             = writeJSON StatusOK (StatusPayload 0 None))
      /\ forall w, Refresh w db' = Refresh w (mkDB None None)).
Proof.
  unfold handle_drop_tables, DropTables.
  destruct merr as [m |], cerr as [c |]; simpl.
  - split; [split; [discriminate | intros [? _]; discriminate] |].
    split; [split; [intros _ [? _]; discriminate | done] |].
    split; [intros _; split; [done | discriminate] | discriminate].
  - split; [split; [discriminate | intros [? _]; discriminate] |].
    split; [split; [intros _ [? _]; discriminate | done] |].
    split; [intros _; split; [done | discriminate] | discriminate].
  - split; [split; [discriminate | intros [_ ?]; discriminate] |].
    split; [split; [intros _ [_ ?]; discriminate | done] |].
    split; [intros _; split; done | discriminate].
  - split; [done |].
    split; [split; [discriminate | intros Hn; exfalso; by apply Hn] |].
    split; [discriminate |].
    intros _. split; [done |]. split; [done |]. split; [| done].
    intros f db2 Hens.
    pose proof (EnsureTables_ok _ _ _ Hens) as ->.
    reflexivity.
Qed.

End ResetFacts.

(** ** The accessors and the handlers on the sample data *)

Module MoreRuns.

Import Demo.
Import Samples.

(** Looking up FORTY finds the row stored as Forty; Utopia is not
    stored. *)
Lemma GetByName_lookup_witness :
  GetByName None db_listing "FORTY" = GetByName None db_listing "Forty"
  /\ (exists c, GetByName None db_listing "Forty" = inr c
                /\ In c (rows_of db_listing) /\ Name c = "Forty")
  /\ GetByName None db_listing "Utopia" = inl ErrNotFound.
Proof.
  destruct (GetByName_lookup db_listing (rows_of db_listing) "Forty" eq_refl)
    as (_ & Hfound & _ & Hcase).
  destruct (GetByName_lookup db_listing (rows_of db_listing) "Utopia" eq_refl)
    as (Hnone & _).
  split; [apply Hcase; reflexivity |].
  split.
  - exists (listed 2 "Forty" "Europe" 40).
    assert (Hget : GetByName None db_listing "Forty"
                   = inr (listed 2 "Forty" "Europe" 40))
      by (vm_compute; reflexivity).
    destruct (Hfound _ Hget) as [Hin _].
    split; [exact Hget | split; [exact Hin | reflexivity]].
  - apply Hnone. vm_compute. repeat constructor.
Defined.

(** Deleting ten removes the row Ten and leaves three rows. *)
Lemma DeleteByName_removes_witness :
  exists db',
    DeleteByName None None db_listing "ten" = (inr true, db')
    /\ map Name (rows_of db') = ["Forty"; "Thirty"; "Twenty"]
    /\ GetByName None db' "ten" = inl ErrNotFound
    /\ TotalCount None db' = inr 3.
Proof.
  destruct (DeleteByName_removes db_listing (rows_of db_listing) "ten" eq_refl)
    as (removed & db' & Hdel & Hrows & _ & Hrem & Hget & _ & Hcount).
  exists db'.
  assert (Htrue : removed = true).
  { apply Hrem. vm_compute. apply Exists_cons_hd. reflexivity. }
  rewrite Htrue in Hdel.
  split; [exact Hdel |].
  split; [unfold rows_of; rewrite Hrows; vm_compute; reflexivity |].
  split; [exact Hget | rewrite Hcount; vm_compute; reflexivity].
Defined.

(** The stored text of the instant 100 parses back to it; without a row
    there is no time. *)
Lemma GetLastRefreshed_tolerant_witness :
  GetLastRefreshed None db_refreshed = inr (Some 100)
  /\ GetLastRefreshed None db_listing = inr None.
Proof.
  destruct (GetLastRefreshed_tolerant db_refreshed _ eq_refl)
    as (last & Hget & _ & Hrow).
  destruct (GetLastRefreshed_tolerant db_listing _ eq_refl)
    as (last' & Hget' & Hnone & _).
  split.
  - rewrite Hget. f_equal.
    destruct (Hrow _ eq_refl) as [_ Hparse].
    rewrite (Hparse refreshed_at_100 eq_refl); [| discriminate].
    vm_compute. reflexivity.
  - rewrite Hget'. f_equal. apply Hnone. reflexivity.
Defined.

(** A run over the single record Wakanda leaves the row Forty as it
    is. *)
Lemma Refresh_frame_witness :
  rows_named "Forty" (store (Refresh (w_usd 5 100) db_listing))
  = [listed 2 "Forty" "Europe" 40].
Proof.
  rewrite (Refresh_frame (w_usd 5 100) db_listing "Forty").
  - vm_compute. reflexivity.
  - vm_compute. repeat constructor.
Defined.

(** The run over [w_mixed] keeps the four rows in place and adds two. *)
Lemma Refresh_keeps_rows_witness :
  map idname (rows_of db_listing)
  `prefix_of` map idname (rows_of (store (Refresh w_mixed db_listing)))
  /\ Z.of_nat (length (rows_of (store (Refresh w_mixed db_listing)))) <= 4 + 2.
Proof.
  destruct (Refresh_keeps_rows w_mixed db_listing) as [Hpre Hlen].
  split; [exact Hpre |].
  apply (Hlen (mkRefreshResult 2 100)). vm_compute. reflexivity.
Defined.

(** With the rate feed down the route answers 503 and names the
    provider; the run over [w_mixed] is answered with 200, its total and
    its timestamp. *)
Lemma handle_refresh_status_witness :
  handle_refresh w_rates_down empty_db
  = (writeError StatusServiceUnavailable "External data source unavailable"
       (Some (DetailsText "Could not fetch data from exchangerates")),
     empty_db)
  /\ fst (handle_refresh w_mixed empty_db)
     = writeJSON StatusOK (RefreshedPayload 2 "1970-01-01T00:01:40Z")
  /\ length (rows_of (snd (handle_refresh w_mixed empty_db))) = 2%nat.
Proof.
  destruct (handle_refresh_status w_rates_down empty_db)
    as (_ & _ & _ & Hrates & _).
  destruct (handle_refresh_status w_mixed empty_db)
    as (_ & _ & _ & _ & _ & Hok & _).
  split; [| split].
  - destruct Hrates as [Hrep Hdb].
    + simpl. intros [Hcodes | Hbody]; [by apply Hcodes | discriminate Hbody].
    + simpl. exact I.
    + rewrite (surjective_pairing (handle_refresh w_rates_down empty_db)).
      by rewrite Hrep, Hdb.
  - destruct (Hok (mkRefreshResult 2 100)) as [Hrep _];
      [vm_compute; reflexivity |].
    rewrite Hrep. vm_compute. reflexivity.
  - destruct (Hok (mkRefreshResult 2 100)) as [_ Hdb];
      [vm_compute; reflexivity |].
    rewrite Hdb. vm_compute. reflexivity.
Defined.

(** GET /countries/forty answers 200 with the row Forty, GET
    /countries/Utopia answers 404. *)
Lemma handle_get_status_witness :
  (exists c, handle_get None db_listing "forty"
             = writeJSON StatusOK (CountryPayload c)
             /\ In c (rows_of db_listing))
  /\ handle_get None db_listing "Utopia"
     = writeError StatusNotFound "Country not found" None.
Proof.
  destruct (handle_get_status db_listing _ "forty" eq_refl)
    as (_ & _ & _ & Hfound & _).
  destruct (handle_get_status db_listing _ "Utopia" eq_refl)
    as (_ & Hnone & _).
  split.
  - destruct Hfound as (c & Hrep & Hin & _).
    + vm_compute. apply Exists_cons_tl, Exists_cons_hd. reflexivity.
    + exists c. split; [exact Hrep | exact Hin].
  - apply Hnone. vm_compute. repeat constructor.
Defined.

(** DELETE /countries/forty answers 200 once and 404 afterwards. *)
Lemma handle_delete_status_witness :
  code (fst (handle_delete None None db_listing "forty")) = StatusOK
  /\ code (fst (handle_delete None None
                  (snd (handle_delete None None db_listing "forty")) "forty"))
     = StatusNotFound.
Proof.
  destruct (handle_delete_status db_listing _ "forty" eq_refl)
    as (Hok & _ & _ & Hagain & _).
  split; [| exact Hagain].
  apply Hok. vm_compute. apply Exists_cons_tl, Exists_cons_hd. reflexivity.
Defined.

(** After the run of [w_usd] at the instant 100 the status route reports
    one row and the instant of the run. *)
Lemma handle_status_after_refresh_witness :
  handle_status None None (snd (handle_refresh (w_usd 5 100) empty_db))
  = writeJSON StatusOK (StatusPayload 1 (Some refreshed_at_100)).
Proof.
  rewrite (handle_status_after_refresh (w_usd 5 100) empty_db 1
             refreshed_at_100 100).
  - vm_compute. reflexivity.
  - vm_compute. reflexivity.
  - discriminate.
  - vm_compute. reflexivity.
  - vm_compute. reflexivity.
Defined.

(** Keys with a question mark are read as those without; the query
    for the americas by descending estimate lists three rows. *)
Lemma handle_list_query_keys_witness :
  handle_list [("?region", ["Americas"]); ("?sort", ["gdp_desc"])] None
              db_listing
  = handle_list [("region", ["Americas"]); ("sort", ["gdp_desc"])] None
                db_listing
  /\ handle_list query_americas None db_listing
     = writeJSON StatusOK
         (ListPayload [listed 3 "Thirty" "americas" 30;
                       listed 4 "Twenty" "americas" 20;
                       listed 1 "Ten" "americas" 10]).
Proof.
  split.
  - exact (proj1 (handle_list_query_keys None db_listing
                    [("region", ["Americas"]); ("sort", ["gdp_desc"])])).
  - destruct (handle_list_query_keys None db_listing query_americas)
      as (_ & Hfirst & _).
    rewrite Hfirst; [vm_compute; reflexivity |].
    vm_compute. apply NoDup_cons_2; [| apply NoDup_cons_2; [| constructor]].
    + intros Hin. apply list_elem_of_In in Hin.
      destruct Hin as [Heq | []]. discriminate Heq.
    + intros Hin. apply list_elem_of_In in Hin. destruct Hin.
Defined.

(** A request from an origin that is not listed gets 403 and does not
    reach the handler; a preflight from the listed origin gets 200. *)
Lemma CorsMiddleware_short_circuits_witness :
  CorsMiddleware ["https://a.example"] echo blank_writer
                 (request_from "GET" "https://evil.example")
  = http_Error blank_writer "Unauthorized origin" StatusForbidden
  /\ w_status (CorsMiddleware ["https://a.example"] echo blank_writer
                              (request_from "OPTIONS" "https://a.example"))
     = Some StatusOK.
Proof.
  split.
  - destruct (CorsMiddleware_short_circuits
                ["https://a.example"] echo echo blank_writer
                (request_from "GET" "https://evil.example"))
      as [Hblocked _].
    apply Hblocked. split; [discriminate |].
    split; intros [Heq | []]; discriminate Heq.
  - destruct (CorsMiddleware_short_circuits
                ["https://a.example"] echo echo blank_writer
                (request_from "OPTIONS" "https://a.example"))
      as [_ Hpre].
    apply Hpre; [| reflexivity | reflexivity].
    intros (_ & Hnot & _). apply Hnot. left. reflexivity.
Defined.

(** With the wildcard a GET from any origin reaches the handler with the
    origin echoed. *)
Lemma CorsMiddleware_lets_through_witness :
  exists w1,
    CorsMiddleware ["*"] echo blank_writer
                   (request_from "GET" "https://b.example")
    = echo w1 (request_from "GET" "https://b.example")
    /\ w_header w1 !! "Access-Control-Allow-Origin" = Some "https://b.example"
    /\ w_status w1 = None.
Proof.
  destruct (CorsMiddleware_lets_through
              ["*"] echo blank_writer (request_from "GET" "https://b.example"))
    as (w1 & Hrun & Hstatus & _ & Horigin & _).
  - right. left. left. reflexivity.
  - discriminate.
  - exists w1. split; [exact Hrun |]. split; [exact Horigin | exact Hstatus].
Defined.

(** Of the seven rows of [db_seven] the image lists Sixty, Fifty, Forty,
    Thirty and Twenty. *)
Lemma GenerateSummaryImage_top_witness :
  exists top rest entries,
    Permutation (top ++ rest)
                (List.filter has_estimate (rows_of db_seven))
    /\ length top = 5%nat
    /\ map entry_Name entries = map Name top
    /\ fst (GenerateSummaryImage None None None None db_seven
                                 "cache/summary.png") = None.
Proof.
  destruct (GenerateSummaryImage_top db_seven (rows_of db_seven)
              "cache/summary.png" eq_refl)
    as (top & rest & entries & Hperm & Hle & Hfull & _ & _ & Hentries & Hrun).
  { vm_compute. repeat constructor. }
  exists top, rest, entries.
  split; [exact Hperm |].
  split.
  - apply Hfull. intros ->. rewrite app_nil_r in Hperm.
    apply Permutation_length in Hperm.
    assert (Hlen : length (List.filter has_estimate (rows_of db_seven))
                   = 6%nat) by (vm_compute; reflexivity).
    rewrite Hlen in Hperm. lia.
  - split; [| by rewrite Hrun].
    clear -Hentries. induction Hentries as [| r e l1 l2 [Hn _] _ IH];
      [reflexivity |].
    simpl. by rewrite Hn, IH.
Defined.

(** Two runs over the record Wakanda, at the instants 100 and 200 with
    the same seed, on a table of four rows: the second changes nothing
    but the refresh time, and both report one record. *)
Lemma Refresh_twice_witness :
  let first := store (Refresh (w_usd 5 100) db_listing) in
  let second := store (Refresh (w_usd 5 200) first) in
  map forget_time (rows_of second) = map forget_time (rows_of first)
  /\ length (rows_of second) = 5%nat
  /\ ret (Refresh (w_usd 5 200) first) = Ok (mkRefreshResult 1 200).
Proof.
  intros first second.
  assert (Hok1 : ret (Refresh (w_usd 5 100) db_listing)
                 = Ok (mkRefreshResult 1 100)) by (vm_compute; reflexivity).
  assert (Hok2 : ret (Refresh (w_usd 5 200) first)
                 = Ok (mkRefreshResult 1 200)) by (vm_compute; reflexivity).
  destruct (Refresh_twice (w_usd 5 100) (w_usd 5 200) db_listing
              (mkRefreshResult 1 100) (mkRefreshResult 1 200))
    as [Hrows _]; try reflexivity; try assumption.
  - vm_compute. repeat constructor.
  - split; [exact Hrows |]. split; [vm_compute; reflexivity | exact Hok2].
Defined.

(** Dropping the tables of [db_refreshed] and making them again gives a
    store without rows and without a refresh time; when the second
    statement fails the rows are still there. *)
Lemma handle_drop_tables_outcomes_witness :
  handle_status None None
    (snd (EnsureTables no_faults
            (snd (handle_drop_tables None None db_refreshed))))
  = writeJSON StatusOK (StatusPayload 0 None)
  /\ countries (snd (handle_drop_tables None (Some "Lock wait timeout exceeded")
                       db_refreshed))
     = countries db_refreshed.
Proof.
  destruct (handle_drop_tables_outcomes None None db_refreshed)
    as (Hok & _ & _ & Hgone).
  destruct (handle_drop_tables_outcomes
              None (Some "Lock wait timeout exceeded") db_refreshed)
    as (_ & Hfail & Hkept & _).
  split.
  - destruct (Hgone (proj2 Hok (conj eq_refl eq_refl)))
      as (_ & _ & Hagain & _).
    apply (Hagain no_faults). reflexivity.
  - apply Hkept. apply Hfail. intros [_ Hnone]. discriminate Hnone.
Defined.

End MoreRuns.
